(** * Verification of the case.law / CourtListener bulk-download crawlers

    A shallow embedding of [crawler_caselaw.py] and
    [crawler_courtlistener.py].  A Python [str] is the [string] of its
    UTF-8 encoding: the characters the code compares with are ASCII, apart
    from the white space of [\s], which is listed with its encodings.
    Byte strings are [list byte], the local disk is a finite map from
    paths to file contents, and the network, the HTML parser and [urljoin]
    are collaborators collected in an environment record.  Python
    functions become state-passing computations that either return a value
    or raise an exception. *)

From Stdlib Require Import ZArith Ascii String Strings.Byte List Sorted Lia Bool.
From stdpp Require Import base gmap strings list.

#[local] Arguments String.append : simpl nomatch.
#[local] Open Scope Z_scope.

(** ** Python string primitives *)

Module Str.

Definition chr_eqb (a b : ascii) : bool := Ascii.eqb a b.

(** [s.startswith(p)], returning the remainder after the prefix. *)
Fixpoint strip_prefix (p s : string) : option string :=
  match p with
  | EmptyString => Some s
  | String a p' =>
      match s with
      | EmptyString => None
      | String b s' => if chr_eqb a b then strip_prefix p' s' else None
      end
  end.

Definition startswith (s p : string) : bool :=
  match strip_prefix p s with Some _ => true | None => false end.

(** [s.endswith(suf)] *)
Fixpoint endswith (s suf : string) : bool :=
  if String.eqb s suf then true
  else match s with
       | EmptyString => false
       | String _ s' => endswith s' suf
       end.

(** [s.rstrip(c)] for a one-character strip set. *)
Fixpoint rstrip (c : ascii) (s : string) : string :=
  match s with
  | EmptyString => EmptyString
  | String a s' =>
      match rstrip c s' with
      | EmptyString => if chr_eqb a c then EmptyString else String a EmptyString
      | r => String a r
      end
  end.

(** [s.split(c)] for a one-character separator: never the empty list. *)
Fixpoint split (c : ascii) (s : string) : list string :=
  match s with
  | EmptyString => [EmptyString]
  | String a s' =>
      if chr_eqb a c then EmptyString :: split c s'
      else match split c s' with
           | h :: t => String a h :: t
           | [] => [String a EmptyString]
           end
  end.

(** [xs[-1]] on a list of strings that is known to be non-empty. *)
Definition last_item (xs : list string) : string := List.last xs EmptyString.

(** The longest prefix of [s] whose characters satisfy [p], and the rest. *)
Fixpoint span (p : ascii -> bool) (s : string) : string * string :=
  match s with
  | EmptyString => (EmptyString, EmptyString)
  | String a s' =>
      if p a then let '(k, r) := span p s' in (String a k, r)
      else (EmptyString, s)
  end.

Fixpoint all_chars (p : ascii -> bool) (s : string) : bool :=
  match s with
  | EmptyString => true
  | String a s' => p a && all_chars p s'
  end.

(** [os.path.join(a, b)] of posixpath, two arguments. *)
Definition path_join (a b : string) : string :=
  if startswith b "/" then b
  else if String.eqb a "" || endswith a "/" then a +:+ b
  else a +:+ "/" +:+ b.

(** [os.path.basename(p)]: what follows the last slash. *)
Definition basename (p : string) : string := last_item (split "/" p).

End Str.

(** ** The two regular expressions of the object-store script *)

Module Re.

Definition not_lt (c : ascii) : bool := negb (Str.chr_eqb c "<").

(** One attempt of [<Key>([^<]+)</Key>] at the head of [s]: the captured
    group and what follows the match.  The greedy class takes the maximal
    run of non-[<] characters; backing off can never succeed because the
    next literal starts with [<]. *)
Definition match_Key (s : string) : option (string * string) :=
  match Str.strip_prefix "<Key>" s with
  | None => None
  | Some s1 =>
      let '(k, s2) := Str.span not_lt s1 in
      match k with
      | EmptyString => None
      | _ =>
          match Str.strip_prefix "</Key>" s2 with
          | None => None
          | Some s3 => Some (k, s3)
          end
      end
  end.

(** The scanner shared by [re.finditer] and [re.findall]: leftmost
    matches, not overlapping, each with its start offset. *)
Fixpoint scan_Key (fuel : nat) (off : nat) (s : string) : list (nat * string) :=
  match fuel with
  | O => []
  | S fuel' =>
      match s with
      | EmptyString => []
      | String _ s' =>
          match match_Key s with
          | Some (k, r) =>
              (off, k) :: scan_Key fuel' (off + (String.length s - String.length r))%nat r
          | None => scan_Key fuel' (S off) s'
          end
      end
  end.

Definition finditer_Key (s : string) : list (nat * string) :=
  scan_Key (String.length s) 0%nat s.

(** [re.findall(r'<Key>([^<]+)</Key>', s)] *)
Definition findall_Key (s : string) : list string :=
  map snd (finditer_Key s).

End Re.

Module ReBucket.

(** The characters [\s] matches on a str pattern, as code points: the
    ASCII controls and the space, NEL and the no-break space, the Ogham
    space mark, U+2000 to U+200A, the line and paragraph separators, the
    narrow no-break space, the medium mathematical space and the
    ideographic space. *)
Definition space_code_points : list N :=
  [0x9; 0xA; 0xB; 0xC; 0xD; 0x1C; 0x1D; 0x1E; 0x1F; 0x20; 0x85; 0xA0;
   0x1680; 0x2000; 0x2001; 0x2002; 0x2003; 0x2004; 0x2005; 0x2006; 0x2007;
   0x2008; 0x2009; 0x200A; 0x2028; 0x2029; 0x202F; 0x205F; 0x3000]%N.

(** The UTF-8 encoding of a code point below U+10000. *)
Definition utf8 (c : N) : string :=
  let chr (n : N) := ascii_of_N n in
  if (c <? 0x80)%N then String (chr c) ""
  else if (c <? 0x800)%N
       then String (chr (0xC0 + c / 0x40)%N)
              (String (chr (0x80 + c mod 0x40)%N) "")
  else String (chr (0xE0 + c / 0x1000)%N)
         (String (chr (0x80 + (c / 0x40) mod 0x40)%N)
            (String (chr (0x80 + c mod 0x40)%N) "")).

Definition space_chars : list string := Eval cbv in map utf8 space_code_points.

(** One character of [\s] at the head of [s]: what follows it.  No
    encoding is a prefix of another, so at most one applies. *)
Fixpoint strip_any (cs : list string) (s : string) : option string :=
  match cs with
  | [] => None
  | c :: cs' =>
      match Str.strip_prefix c s with
      | Some r => Some r
      | None => strip_any cs' s
      end
  end.

Definition strip_space (s : string) : option string := strip_any space_chars s.

(** [\s*]: the greedy loop, which takes white space while there is some;
    [fuel] bounds the number of characters taken. *)
Fixpoint skip_spaces (fuel : nat) (s : string) : string :=
  match fuel with
  | O => s
  | S fuel' =>
      match strip_space s with
      | Some r => skip_spaces fuel' r
      | None => s
      end
  end.

Definition skip (s : string) : string := skip_spaces (String.length s) s.

Definition is_quote (c : ascii) : bool :=
  Str.chr_eqb c "039" || Str.chr_eqb c "034".

Definition not_quote (c : ascii) : bool := negb (is_quote c).

(** One attempt of the pattern BUCKET_NAME, white space, =, white space,
    a quote (single or double), one or more characters that are not
    quotes, a quote, at the head of [s]; every greedy loop is followed by
    a character outside its class, so no backtracking succeeds where the
    first try fails. *)
Definition match_bucket (s : string) : option string :=
  match Str.strip_prefix "BUCKET_NAME" s with
  | None => None
  | Some s1 =>
      match Str.strip_prefix "=" (skip s1) with
      | None => None
      | Some s3 =>
          match skip s3 with
          | EmptyString => None
          | String q s5 =>
              if is_quote q then
                let '(name, s6) := Str.span not_quote s5 in
                match name, s6 with
                | EmptyString, _ => None
                | _, EmptyString => None
                | _, String _ _ => Some name
                end
              else None
          end
      end
  end.

(** [re.search(...)] followed by [.group(1)]: the leftmost match. *)
Fixpoint search_bucket (s : string) : option string :=
  match match_bucket s with
  | Some name => Some name
  | None =>
      match s with
      | EmptyString => None
      | String _ s' => search_bucket s'
      end
  end.

End ReBucket.

(** ** Exceptions, requests, responses, the world *)

Inductive exn : Type :=
| RequestException          (* requests.RequestException and subclasses *)
| OSError                   (* open / write failures *)
| ValueError                (* int() on a malformed header, urljoin *)
| OverflowError             (* int / int that does not fit a float *)
| EOFError                  (* input() at end of input *)
| SystemExit (code : Z).

Inductive outcome (A : Type) : Type :=
| Ret (a : A)
| Raise (e : exn).
Arguments Ret {A} a.
Arguments Raise {A} e.

Record Request : Type := mkRequest {
  req_url : string;
  req_params : list (string * string);
  req_stream : bool;
  req_timeout : Z
}.

(** [response.headers.get('content-length', 0)] as [int()] sees it: no
    header, a header for which [int()] raises [ValueError], or the integer
    [int()] returns. *)
Inductive header_int : Type :=
| Absent
| Malformed
| Declared (n : Z).

Record Response : Type := mkResponse {
  status_code : Z;
  content_length : header_int;
  text : string;                 (* response.text / response.content *)
  chunks : list (list byte);     (* what iter_content yields, in order *)
  truncated : bool               (* the stream then raises instead of ending *)
}.

Inductive http_result : Type :=
| ConnectionFailed               (* the GET itself raises a RequestException *)
| Responded (r : Response).

(** Console output, one constructor per kind of line printed; the text of
    the exception and the formatting of numbers are left out. *)
Inductive Msg : Type :=
| Text (s : string)
| ErrorFetching (url : string)          (* Error fetching {url}: {e} *)
| FetchingBucket (url : string)         (* Fetching bucket listing from {url}... *)
| ErrorFetchingBucket                   (* Error fetching bucket listing: {e} *)
| ErrorFetchingHtml                     (* Error fetching HTML listing: {e} *)
| ErrorDownloading (name : string)      (* Error downloading [{name}]: {e} *)
| Progress (downloaded total : Z)       (* Progress: p% (a/b MB) *)
| FoundBucket (name : string)           (* Found bucket: {name} *)
| Trying (endpoint : string)            (* Trying: {endpoint} *)
| FoundUsing (n : nat)                  (* Found {n} files using this endpoint *)
| FoundCount (n : nat) (what : string)  (* Found {n} {what} *)
| Limiting (n : Z)                      (* Limiting to first {n} reporters ... *)
| Processing (idx total : nat) (name : string)
| Skipping (idx total : nat) (name : string)
| Downloading (idx total : nat) (name : string)
| SkippingFile (name : string)          (* Skipping {name} (already exists) *)
| DownloadingFile (name : string)       (* Downloading {name}... *)
| Completed (name : string)
| Failed (name : string)
| Item (idx total : nat)                (* [{i}/{n}] *)
| Listed (idx : nat) (name : string)    (*   {i}. {filename} *)
| MoreFiles (n : nat)                   (*   ... and {n} more files *)
| Tally (label : string) (n : nat)      (* {label}: {n} *)
| OutputDirectory (dir : string).

(** The state outside the program.  Destination paths name regular files:
    [files] maps a path, as the string the program uses, to the bytes of
    the file there, and the directories made by [mkdir] are only recorded.  The console, the log of requests
    and the count of pauses only grow. *)
Record World : Type := mkWorld {
  files : gmap string (list byte);   (* regular files on the local disk *)
  made_dirs : gset string;           (* directories created by mkdir *)
  requests : list Request;           (* every GET issued so far, in order *)
  console : list Msg;                (* everything printed so far *)
  stdin : list string;               (* lines still to be read by input() *)
  naps : nat                         (* number of time.sleep(0.5) calls *)
}.

(** The collaborators outside the repository.  The servers may answer a
    request differently each time: [respond] sees the requests made before.
    [urljoin] may reject an href ([ValueError], for instance on a bracket
    that does not close in the host part).  The disk may refuse to create
    a file or to take a chunk ([OSError]); removing an existing file always
    succeeds. *)
Record Env : Type := mkEnv {
  respond : list Request -> Request -> http_result;  (* the servers *)
  find_all_a : string -> list (option string);       (* html.parser: href of each <a> *)
  urljoin : string -> string -> option string;       (* urllib.parse.urljoin *)
  open_ok : string -> bool;                          (* may open(path, 'wb') succeed *)
  write_ok : string -> list byte -> list byte -> bool (* may f.write(chunk) succeed *)
}.

(** ** A state and exception monad for Python control flow *)

Definition M (A : Type) : Type := World -> outcome A * World.

Definition ret {A} (a : A) : M A := fun w => (Ret a, w).

Definition raise {A} (e : exn) : M A := fun w => (Raise e, w).

Definition bind {A B} (m : M A) (k : A -> M B) : M B :=
  fun w => match m w with
           | (Ret a, w') => k a w'
           | (Raise e, w') => (Raise e, w')
           end.

Declare Scope py_scope.
Delimit Scope py_scope with py.
Notation "x <- m ;; k" := (bind m (fun x => k))
  (at level 100, m at next level, right associativity) : py_scope.
Notation "m ;;; k" := (bind m (fun _ => k))
  (at level 100, right associativity) : py_scope.
#[local] Open Scope py_scope.

(** [try: body  except requests.RequestException: handler] *)
Definition except_RequestException {A} (body handler : M A) : M A :=
  fun w => match body w with
           | (Raise RequestException, w') => handler w'
           | r => r
           end.

(** [try: body  except: handler] (a bare except catches everything) *)
Definition except_all {A} (body handler : M A) : M A :=
  fun w => match body w with
           | (Raise _, w') => handler w'
           | r => r
           end.

Definition add_line (m : Msg) (w : World) : World :=
  mkWorld (files w) (made_dirs w) (requests w) (console w ++ [m]) (stdin w) (naps w).

Definition add_request (rq : Request) (w : World) : World :=
  mkWorld (files w) (made_dirs w) (requests w ++ [rq]) (console w) (stdin w) (naps w).

Definition set_files (f : gmap string (list byte)) (w : World) : World :=
  mkWorld f (made_dirs w) (requests w) (console w) (stdin w) (naps w).

Definition print (m : Msg) : M unit :=
  fun w => (Ret tt, add_line m w).

Definition nap (w : World) : World :=
  mkWorld (files w) (made_dirs w) (requests w) (console w) (stdin w) (S (naps w)).

(** [time.sleep(0.5)] *)
Definition sleep_half_second : M unit :=
  fun w => (Ret tt, nap w).

Definition input : M string :=
  fun w => match stdin w with
           | [] => (Raise EOFError, w)
           | l :: rest => (Ret l, mkWorld (files w) (made_dirs w) (requests w)
                                          (console w) rest (naps w))
           end.

(** [os.path.exists(path)] *)
Definition path_exists (path : string) : M bool :=
  fun w => (Ret (bool_decide (is_Some (files w !! path))), w).

(** [os.remove(path)] *)
Definition remove (path : string) : M unit :=
  fun w => (Ret tt, set_files (delete path (files w)) w).

(** [Path(path).mkdir(exist_ok=True)], taken to succeed. *)
Definition mkdir (path : string) : M unit :=
  fun w => (Ret tt, mkWorld (files w) ({[path]} ∪ made_dirs w) (requests w)
                            (console w) (stdin w) (naps w)).

(** [open(path, 'wb')]: creates or truncates the file. *)
Definition open_wb (env : Env) (path : string) : M unit :=
  fun w => if open_ok env path
           then (Ret tt, set_files (<[path := []]> (files w)) w)
           else (Raise OSError, w).

(** [f.write(chunk)] on the file opened at [path]. *)
Definition write (env : Env) (path : string) (chunk : list byte) : M unit :=
  fun w => let cur := default [] (files w !! path) in
           if write_ok env path cur chunk
           then (Ret tt, set_files (<[path := cur ++ chunk]> (files w)) w)
           else (Raise OSError, w).

(** [requests.get(...)] / [session.get(...)]: logged, then answered. *)
Definition http_get (env : Env) (rq : Request) : M Response :=
  fun w => match respond env (requests w) rq with
           | ConnectionFailed => (Raise RequestException, add_request rq w)
           | Responded r => (Ret r, add_request rq w)
           end.

(** The statuses for which [raise_for_status] raises: 4xx and 5xx. *)
Definition is_error_status (r : Response) : bool :=
  (400 <=? status_code r) && (status_code r <? 600).

(** [response.raise_for_status()] *)
Definition raise_for_status (r : Response) : M unit :=
  if is_error_status r then raise RequestException else ret tt.

(** [int(response.headers.get('content-length', 0))] *)
Definition total_size_of (r : Response) : M Z :=
  match content_length r with
  | Absent => ret 0
  | Malformed => raise ValueError
  | Declared n => ret n
  end.

(** [a / b] on ints, for [0 <= a] and [0 < b]: the quotient is rounded to
    the nearest float, and [OverflowError] is raised when that is 2^1024 or
    more, that is when the quotient reaches the midpoint between the
    largest float and 2^1024. *)
Definition float_limit : Z := 2 ^ 1024 - 2 ^ 970.

Definition truediv_overflows (a b : Z) : bool := b * float_limit <=? a.

(** The three divisions of the progress line, in the order of the code:
    [downloaded_size / total_size], [downloaded_size / (1024 * 1024)] and
    [total_size / (1024 * 1024)]. *)
Definition progress_overflows (downloaded_size total_size : Z) : bool :=
  truediv_overflows downloaded_size total_size
  || truediv_overflows downloaded_size (1024 * 1024)
  || truediv_overflows total_size (1024 * 1024).

(** The body of the streaming loop shared by both download functions:
    [for chunk in response.iter_content(...)] with its progress line. *)
Fixpoint write_chunks (env : Env) (path : string) (total_size : Z)
    (downloaded_size : Z) (cs : list (list byte)) : M Z :=
  match cs with
  | [] => ret downloaded_size
  | chunk :: rest =>
      match chunk with
      | [] => write_chunks env path total_size downloaded_size rest
      | _ =>
          write env path chunk ;;;
          let downloaded_size := downloaded_size + Z.of_nat (length chunk) in
          (if 0 <? total_size
           then if progress_overflows downloaded_size total_size
                then raise OverflowError
                else print (Progress downloaded_size total_size)
           else ret tt) ;;;
          write_chunks env path total_size downloaded_size rest
      end
  end.

Definition stream_to_file (env : Env) (path : string) (total_size : Z)
    (r : Response) : M unit :=
  open_wb env path ;;;
  _ <- write_chunks env path total_size 0 (chunks r) ;;
  if truncated r then raise RequestException else ret tt.

(** ** crawler_caselaw.py *)

Module CaseLaw.

(** The mutable fields of a [CaseLawCrawler] object; [self.session] is
    the network of the environment. *)
Record CaseLawCrawler : Type := mkCrawler {
  base_url : string;
  output_dir : string;
  downloaded_count : nat;
  failed_count : nat;
  skipped_count : nat
}.

(** [__init__] *)
Definition init (base_url output_dir : string) : CaseLawCrawler :=
  mkCrawler base_url output_dir 0 0 0.

Definition add_downloaded (self : CaseLawCrawler) : CaseLawCrawler :=
  mkCrawler (base_url self) (output_dir self)
            (S (downloaded_count self)) (failed_count self) (skipped_count self).

Definition add_failed (self : CaseLawCrawler) : CaseLawCrawler :=
  mkCrawler (base_url self) (output_dir self)
            (downloaded_count self) (S (failed_count self)) (skipped_count self).

Definition add_skipped (self : CaseLawCrawler) : CaseLawCrawler :=
  mkCrawler (base_url self) (output_dir self)
            (downloaded_count self) (failed_count self) (S (skipped_count self)).

(** The loop over [soup.find_all('a', href=True)] with [urljoin(url, href)]
    on each anchor that has an href: [None] when [urljoin] raises. *)
Fixpoint resolve_anchors (env : Env) (url : string)
    (anchors : list (option string)) : option (list string) :=
  match anchors with
  | [] => Some []
  | None :: rest => resolve_anchors env url rest
  | Some href :: rest =>
      match urljoin env url href with
      | None => None
      | Some full_url =>
          match resolve_anchors env url rest with
          | None => None
          | Some links => Some (full_url :: links)
          end
      end
  end.

Definition get_page_links (env : Env) (url : string) : M (list string) :=
  except_RequestException
    (response <- http_get env (mkRequest url [] false 30) ;;
     raise_for_status response ;;;
     match resolve_anchors env url (find_all_a env (text response)) with
     | Some links => ret links
     | None => raise ValueError
     end)
    (print (ErrorFetching url) ;;;
     ret []).

(** The body of the loop of [get_reporter_directories] for one link. *)
Definition reporter_of (base : string) (link : string) : option (string * string) :=
  if Str.endswith link "/" && negb (String.eqb link base) then
    let reporter_name := Str.last_item (Str.split "/" (Str.rstrip "/" link)) in
    if negb (String.eqb reporter_name "") && negb (Str.endswith reporter_name ".json")
    then Some (reporter_name, link)
    else None
  else None.

Definition get_reporter_directories (env : Env) (self : CaseLawCrawler)
    : M (list (string * string)) :=
  print (Text "Discovering reporter directories...") ;;;
  links <- get_page_links env (base_url self) ;;
  ret (omap (reporter_of (base_url self)) links).

Definition get_tar_files (env : Env) (reporter_url : string) : M (list string) :=
  links <- get_page_links env reporter_url ;;
  ret (List.filter (fun link => Str.endswith link ".tar") links).

Definition download_file (env : Env) (url output_path : string) : M bool :=
  except_RequestException
    (response <- http_get env (mkRequest url [] true 300) ;;
     raise_for_status response ;;;
     total_size <- total_size_of response ;;
     stream_to_file env output_path total_size response ;;;
     print (Text "") ;;;
     ret true)
    (print (ErrorDownloading "") ;;;
     present <- path_exists output_path ;;
     (if present then remove output_path else ret tt) ;;;
     ret false).

(** The inner loop of [crawl_and_download]: one reporter's tar files. *)
Fixpoint download_tars (env : Env) (self : CaseLawCrawler) (reporter_dir : string)
    (total tar_idx : nat) (tar_files : list string) : M CaseLawCrawler :=
  match tar_files with
  | [] => ret self
  | tar_url :: rest =>
      let filename := Str.last_item (Str.split "/" tar_url) in
      let output_path := Str.path_join reporter_dir filename in
      present <- path_exists output_path ;;
      if present then
        print (Skipping tar_idx total filename) ;;;
        download_tars env (add_skipped self) reporter_dir total (S tar_idx) rest
      else
        print (Downloading tar_idx total filename) ;;;
        ok <- download_file env tar_url output_path ;;
        self' <- (if ok
                  then print (Completed filename) ;;; ret (add_downloaded self)
                  else print (Failed filename) ;;; ret (add_failed self)) ;;
        sleep_half_second ;;;
        download_tars env self' reporter_dir total (S tar_idx) rest
  end.

(** The outer loop of [crawl_and_download]. *)
Fixpoint process_reporters (env : Env) (self : CaseLawCrawler)
    (total idx : nat) (reporters : list (string * string)) : M CaseLawCrawler :=
  match reporters with
  | [] => ret self
  | (reporter_name, reporter_url) :: rest =>
      print (Processing idx total reporter_name) ;;;
      let reporter_dir := Str.path_join (output_dir self) reporter_name in
      mkdir reporter_dir ;;;
      tar_files <- get_tar_files env reporter_url ;;
      match tar_files with
      | [] =>
          print (Text "  No .tar files found") ;;;
          process_reporters env self total (S idx) rest
      | _ =>
          print (FoundCount (length tar_files) "tar file(s)") ;;;
          self' <- download_tars env self reporter_dir (length tar_files) 1 tar_files ;;
          print (Text "") ;;;
          process_reporters env self' total (S idx) rest
      end
  end.

(** [xs[:n]] for a Python integer [n]. *)
Definition slice_to {A} (n : Z) (xs : list A) : list A :=
  if n <? 0 then take (Z.to_nat (Z.of_nat (length xs) + n)) xs
  else take (Z.to_nat n) xs.

Definition rule : string := "============================================================".

Definition crawl_and_download (env : Env) (self : CaseLawCrawler)
    (limit_reporters : option Z) : M CaseLawCrawler :=
  print (Text "Case Law Crawler - https://static.case.law/") ;;;
  print (Text rule) ;;;
  print (OutputDirectory (output_dir self)) ;;;
  print (Text "") ;;;
  reporters <- get_reporter_directories env self ;;
  match reporters with
  | [] =>
      print (Text "No reporter directories found!") ;;;
      ret self
  | _ =>
      print (FoundCount (length reporters) "reporter directories") ;;;
      reporters <- match limit_reporters with
                   | Some n =>
                       if n =? 0 then ret reporters
                       else print (Limiting n) ;;; ret (slice_to n reporters)
                   | None => ret reporters
                   end ;;
      print (Text "") ;;;
      self' <- process_reporters env self (length reporters) 1 reporters ;;
      print (Text rule) ;;;
      print (Text "Download Complete!") ;;;
      print (Text rule) ;;;
      print (Tally "Downloaded" (downloaded_count self')) ;;;
      print (Tally "Skipped" (skipped_count self')) ;;;
      print (Tally "Failed" (failed_count self')) ;;;
      print (OutputDirectory (output_dir self')) ;;;
      print (Text rule) ;;;
      ret self'
  end.

End CaseLaw.

(** ** crawler_courtlistener.py *)

Module CourtListener.

Definition bz2_only (keys : list string) : list string :=
  List.filter (fun key => Str.endswith key ".bz2") keys.

Definition get_s3_bucket_listing (env : Env) (bucket_url : string)
    : M (option (list string)) :=
  print (FetchingBucket bucket_url) ;;;
  except_RequestException
    (response <- http_get env
                   (mkRequest bucket_url [("prefix", "bulk-data/")] false 30) ;;
     raise_for_status response ;;;
     let keys := Re.findall_Key (text response) in
     let bz2_files := bz2_only keys in
     ret (Some bz2_files))
    (print ErrorFetchingBucket ;;;
     ret None).

Definition get_files_from_html_listing (env : Env) (list_url : string)
    : M (option (list string)) :=
  print (Text "Attempting to fetch from HTML listing page...") ;;;
  except_RequestException
    (response <- http_get env (mkRequest list_url [] false 30) ;;
     raise_for_status response ;;;
     match ReBucket.search_bucket (text response) with
     | Some bucket_name =>
         print (FoundBucket bucket_name) ;;;
         let s3_url := "https://" +:+ bucket_name +:+ ".s3-us-west-2.amazonaws.com/" in
         get_s3_bucket_listing env s3_url
     | None =>
         print (Text "Could not extract bucket name from HTML") ;;;
         ret None
     end)
    (print ErrorFetchingHtml ;;;
     ret None).

Definition endpoints_of (base_url : string) : list string :=
  [ base_url +:+ "?list-type=2&prefix=bulk-data/";
    base_url +:+ "?prefix=bulk-data/";
    base_url +:+ "?delimiter=/&prefix=bulk-data/" ].

(** One round of the loop of [get_files_alternative_method]: [Some] is
    the value returned from inside the loop, [None] goes on to the next
    endpoint (also after any exception: the except clause is bare). *)
Definition try_endpoint (env : Env) (endpoint : string) : M (option (list string)) :=
  except_all
    (print (Trying endpoint) ;;;
     response <- http_get env (mkRequest endpoint [] false 30) ;;
     if status_code response =? 200 then
       let keys := Re.findall_Key (text response) in
       let bz2_files := bz2_only keys in
       match bz2_files with
       | [] => ret None
       | _ => print (FoundUsing (length bz2_files)) ;;; ret (Some bz2_files)
       end
     else ret None)
    (ret None).

Fixpoint try_endpoints (env : Env) (endpoints : list string)
    : M (option (list string)) :=
  match endpoints with
  | [] => ret None
  | endpoint :: rest =>
      found <- try_endpoint env endpoint ;;
      match found with
      | Some bz2_files => ret (Some bz2_files)
      | None => try_endpoints env rest
      end
  end.

Definition get_files_alternative_method (env : Env) (base_url : string)
    : M (option (list string)) :=
  print (Text "Trying alternative discovery methods...") ;;;
  try_endpoints env (endpoints_of base_url).

Definition download_file (env : Env) (filename base_url output_dir : string)
    : M bool :=
  let url := base_url +:+ filename in
  let filepath := Str.path_join output_dir (Str.basename filename) in
  present <- path_exists filepath ;;
  if present then
    print (SkippingFile (Str.basename filename)) ;;;
    ret true
  else
    print (DownloadingFile (Str.basename filename)) ;;;
    except_RequestException
      (response <- http_get env (mkRequest url [] true 300) ;;
       raise_for_status response ;;;
       total_size <- total_size_of response ;;
       stream_to_file env filepath total_size response ;;;
       print (Completed (Str.basename filename)) ;;;
       ret true)
      (print (ErrorDownloading (Str.basename filename)) ;;;
       present <- path_exists filepath ;;
       (if present then remove filepath else ret tt) ;;;
       ret false).

Definition list_url : string :=
  "https://com-courtlistener-storage.s3-us-west-2.amazonaws.com/list.html?prefix=bulk-data/".
Definition base_url : string := "https://storage.courtlistener.com/bulk-data/".
Definition s3_base_url : string :=
  "https://com-courtlistener-storage.s3-us-west-2.amazonaws.com/".
Definition output_dir : string := "courtlistener_downloads".

(** [not bz2_files]: [None] and the empty list are both falsy. *)
Definition falsy (bz2_files : option (list string)) : bool :=
  match bz2_files with
  | None | Some [] => true
  | Some (_ :: _) => false
  end.

(** Lines 158-171 of [main]: the three discovery methods in turn. *)
Definition discover (env : Env) : M (option (list string)) :=
  bz2_files <- get_files_from_html_listing env list_url ;;
  bz2_files <- (if falsy bz2_files
                then get_files_alternative_method env s3_base_url
                else ret bz2_files) ;;
  if falsy bz2_files then
    print (Text "Trying storage.courtlistener.com endpoint...") ;;;
    get_s3_bucket_listing env base_url
  else ret bz2_files.

(** Lines 208-216 of [main]: the download loop and its two tallies. *)
Fixpoint download_all (env : Env) (total i : nat) (successful failed : nat)
    (bz2_files : list string) : M (nat * nat) :=
  match bz2_files with
  | [] => ret (successful, failed)
  | filename :: rest =>
      print (Item i total) ;;;
      ok <- download_file env filename s3_base_url output_dir ;;
      if ok
      then download_all env total (S i) (S successful) failed rest
      else download_all env total (S i) successful (S failed) rest
  end.

Fixpoint print_listing (i : nat) (names : list string) : M unit :=
  match names with
  | [] => ret tt
  | filename :: rest => print (Listed i filename) ;;; print_listing (S i) rest
  end.

(** [response.lower() != 'y'], negated. *)
Definition says_yes (response : string) : bool :=
  String.eqb response "y" || String.eqb response "Y".

(** Lines 173-224 of [main]: what follows discovery.  Of the console
    output the separator rules, the help text after a failed discovery
    and the prompt of [input] are left out. *)
Definition after_discovery (env : Env) (bz2_files : option (list string))
    : M (nat * nat) :=
  match bz2_files with
  | None | Some [] =>
      print (Text "ERROR: Could not discover files automatically.") ;;;
      raise (SystemExit 1)
  | Some bz2_files =>
      print (FoundCount (length bz2_files) ".bz2 files") ;;;
      print (Text "First 10 files:") ;;;
      print_listing 1 (take 10 bz2_files) ;;;
      (if (10 <? length bz2_files)%nat
       then print (MoreFiles (length bz2_files - 10))
       else ret tt) ;;;
      response <- input ;;
      if negb (says_yes response) then
        print (Text "Download cancelled.") ;;;
        raise (SystemExit 0)
      else
        tally <- download_all env (length bz2_files) 1 0 0 bz2_files ;;
        let '(successful, failed) := tally in
        print (Text "Download complete!") ;;;
        print (Tally "Successful" successful) ;;;
        print (Tally "Failed" failed) ;;;
        print (OutputDirectory output_dir) ;;;
        ret (successful, failed)
  end.

Definition main (env : Env) : M (nat * nat) :=
  mkdir output_dir ;;;
  print (OutputDirectory output_dir) ;;;
  bz2_files <- discover env ;;
  after_discovery env bz2_files.

End CourtListener.

(** * Specification-side definitions *)

(** ** Declarative notions used in the statements *)

(** An occurrence of the tag pattern at offset [i] of [body], with the key
    [k] between the tags: a non-empty run without [<]. *)
Definition occurs_at (body : string) (i : nat) (k : string) : Prop :=
  exists pre post,
    body = pre +:+ "<Key>" +:+ k +:+ "</Key>" +:+ post
    /\ String.length pre = i
    /\ k <> ""
    /\ Str.all_chars Re.not_lt k = true.

(** What [span] leaves behind starts with a character outside the class. *)
Definition stops (p : ascii -> bool) (r : string) : Prop :=
  match r with
  | EmptyString => True
  | String a _ => p a = false
  end.

(** What a computation may do: it changes only files whose path satisfies
    [Q], every request it issues satisfies [R], and every exception that
    escapes from it satisfies [E]. *)
Definition effects {A} (Q : string -> Prop) (R : Request -> Prop)
    (E : exn -> Prop) (m : M A) : Prop :=
  forall w,
    (forall p, ~ Q p -> files (snd (m w)) !! p = files w !! p)
    /\ (exists new, requests (snd (m w)) = requests w ++ new /\ Forall R new)
    /\ (forall e, fst (m w) = Raise e -> E e).

(** A computation that never modifies or deletes a file that is there. *)
Definition keeps {A} (m : M A) : Prop :=
  forall w p c, files w !! p = Some c -> files (snd (m w)) !! p = Some c.

(** The same, provided nothing is at [path] when it starts. *)
Definition keeps_if_absent {A} (path : string) (m : M A) : Prop :=
  forall w, files w !! path = None ->
  forall p c, files w !! p = Some c -> files (snd (m w)) !! p = Some c.

Definition no_path : string -> Prop := fun _ => False.
Definition no_request : Request -> Prop := fun _ => False.
Definition no_exn : exn -> Prop := fun _ => False.
Definition local_exn (e : exn) : Prop :=
  e = OSError \/ e = ValueError \/ e = OverflowError.

Definition is_slash (c : ascii) : bool := Str.chr_eqb c "/".
Definition not_slash (c : ascii) : bool := negb (is_slash c).

(** [name] is the final non-empty path segment of [link]: the link is some
    prefix that is empty or ends in a slash, then [name], which is not
    empty and has no slash, then nothing but slashes. *)
Definition is_final_segment (link name : string) : Prop :=
  name <> ""
  /\ Str.all_chars not_slash name = true
  /\ exists pre slashes,
       link = pre +:+ name +:+ slashes
       /\ Str.all_chars is_slash slashes = true
       /\ (pre = "" \/ exists pre', pre = pre' +:+ "/").

(** A link that [listReporters] retains, with the name derived from it: a
    directory marker, not the root, whose final non-empty segment is not a
    metadata file name. *)
Definition is_reporter (root link name : string) : Prop :=
  Str.endswith link "/" = true
  /\ link <> root
  /\ is_final_segment link name
  /\ Str.endswith name ".json" = false.

(** The result of [listReporters] on the links of a page, as the
    specification words it: the retained links, in document order. *)
Inductive listReporters_rel (root : string)
  : list string -> list (string * string) -> Prop :=
| reporters_nil : listReporters_rel root [] []
| reporters_keep link name links rs :
    is_reporter root link name ->
    listReporters_rel root links rs ->
    listReporters_rel root (link :: links) ((name, link) :: rs)
| reporters_drop link links rs :
    (forall name, ~ is_reporter root link name) ->
    listReporters_rel root links rs ->
    listReporters_rel root (link :: links) rs.

Definition any_request : Request -> Prop := fun _ => True.
Definition any_path : string -> Prop := fun _ => True.

(** The two kinds of request the scripts issue for a URL. *)
Definition page_request (url : string) : Request := mkRequest url [] false 30.
Definition file_request (url : string) : Request := mkRequest url [] true 300.

(** The [href] values of the anchors that carry one, in document order. *)
Definition hrefs_of (anchors : list (option string)) : list string :=
  omap id anchors.

(** The disk never refuses to create or extend the file at [path]. *)
Definition writable (env : Env) (path : string) : Prop :=
  open_ok env path = true /\ forall cur chunk, write_ok env path cur chunk = true.

(** The server answers [rq] after history [h] with a response that passes
    [raise_for_status] and whose declared length, if any, is a number. *)
Definition serves (env : Env) (h : list Request) (rq : Request) (r : Response) : Prop :=
  respond env h rq = Responded r
  /\ is_error_status r = false
  /\ content_length r <> Malformed.

(** The number of bytes of the body, and the length the response declares
    (0 when it declares none). *)
Definition body_size (r : Response) : Z :=
  Z.of_nat (length (concat (chunks r))).

Definition declared_size (r : Response) : Z :=
  match content_length r with
  | Declared n => n
  | _ => 0
  end.

(** The progress arithmetic does not overflow while the body of [r] is
    received: no positive length is declared, or the body is empty, or
    the three divisions fit a float at the end of the body (and so at
    every chunk before). *)
Definition fits (r : Response) : Prop :=
  declared_size r <= 0
  \/ body_size r = 0
  \/ progress_overflows (body_size r) (declared_size r) = false.

(** The request itself fails: no connection, or a 4xx/5xx status. *)
Definition refuses (env : Env) (h : list Request) (rq : Request) : Prop :=
  respond env h rq = ConnectionFailed
  \/ exists r, respond env h rq = Responded r /\ is_error_status r = true.

(** The try block of both download functions: request, status check,
    declared length, streaming to [path], the closing line. *)
Definition transfer (env : Env) (path : string) (done_msg : Msg) (rq : Request)
    : M bool :=
  (response <- http_get env rq ;;
   raise_for_status response ;;;
   total_size <- total_size_of response ;;
   stream_to_file env path total_size response ;;;
   print done_msg ;;;
   ret true)%py.

(** ** Concrete worlds and environments used in the examples *)

Definition empty_world : World := mkWorld ∅ ∅ [] [] [] 0.

Definition ok_response (body : string) (cs : list (list byte)) (broken : bool)
    : Response :=
  mkResponse 200 Absent body cs broken.

Definition status_response (status : Z) (body : string) : Response :=
  mkResponse status Absent body [] false.

(** A [urljoin] good enough for the examples: an href that opens a
    bracket in the host part is rejected, other absolute links are kept,
    relative ones are appended to the base. *)
Definition demo_urljoin (base href : string) : option string :=
  if Str.startswith href "http://[" then None
  else if Str.startswith href "http" then Some href
  else Some (base +:+ href).

(** The anchors of the two demo pages: the root lists a reporter, an
    anchor without href, a metadata file and the root itself; the reporter
    lists two archives and a text file. *)
Definition demo_anchors (body : string) : list (option string) :=
  if String.eqb body "root" then [Some "r/"; None; Some "meta.json"; Some "http://h/"]
  else if String.eqb body "reporter" then [Some "a.tar"; Some "b.tar"; Some "notes.txt"]
  else [].

(** A tree host on which [a.tar] transfers completely and the stream of
    [b.tar] breaks after its first chunk. *)
Definition demo_tree (h : list Request) (rq : Request) : http_result :=
  if String.eqb (req_url rq) "http://h/" then Responded (ok_response "root" [] false)
  else if String.eqb (req_url rq) "http://h/r/"
       then Responded (ok_response "reporter" [] false)
  else if String.eqb (req_url rq) "http://h/r/a.tar"
       then Responded (ok_response "" [[x01; x02]; []; [x03]] false)
  else if String.eqb (req_url rq) "http://h/r/b.tar"
       then Responded (ok_response "" [[x04; x05]] true)
  else ConnectionFailed.

Definition demo_env : Env :=
  mkEnv demo_tree demo_anchors demo_urljoin (fun _ => true) (fun _ _ _ => true).




(** The same host with an archive [b.tar] of two chunks, writing to a
    disk that takes the first chunk of [b.tar] and refuses the second. *)
Definition two_chunk_tree (h : list Request) (rq : Request) : http_result :=
  if String.eqb (req_url rq) "http://h/r/b.tar"
  then Responded (ok_response "" [[x04]; [x05]] false)
  else demo_tree h rq.

Definition b_disk_full_env : Env :=
  mkEnv two_chunk_tree demo_anchors demo_urljoin (fun _ => true)
        (fun path cur _ =>
           negb (Str.endswith path "b.tar")
           || match cur with [] => true | _ => false end).

(** A tree host whose root links to a reporter directory named [..]. *)
Definition dotdot_tree (h : list Request) (rq : Request) : http_result :=
  if String.eqb (req_url rq) "http://h/"
  then Responded (ok_response "root" [] false)
  else if String.eqb (req_url rq) "http://other/../"
  then Responded (ok_response "reporter" [] false)
  else if String.eqb (req_url rq) "http://other/../a.tar"
  then Responded (ok_response "" [[x01]] false)
  else ConnectionFailed.

Definition dotdot_anchors (body : string) : list (option string) :=
  if String.eqb body "root" then [Some "http://other/../"]
  else if String.eqb body "reporter" then [Some "http://other/../a.tar"]
  else [].

Definition dotdot_env : Env :=
  mkEnv dotdot_tree dotdot_anchors demo_urljoin (fun _ => true)
        (fun _ _ _ => true).

(** A listing page that assigns the bucket name twice, the first time
    with an ideographic space (U+3000) before the equals sign. *)
Definition ideographic_page : string :=
  "var BUCKET_NAME" +:+ ReBucket.utf8 0x3000 +:+ "= 'b1'; BUCKET_NAME='b2'".


(** A bucket whose listing page is unreachable, whose first alternate
    endpoint lists no archive, whose second alternate endpoint lists two,
    and whose other endpoints would list a third one. *)
Definition demo_bucket (h : list Request) (rq : Request) : http_result :=
  if String.eqb (req_url rq) CourtListener.list_url then ConnectionFailed
  else if String.eqb (req_url rq)
            (CourtListener.s3_base_url +:+ "?list-type=2&prefix=bulk-data/")
       then Responded (ok_response "<Key>bulk-data/readme.txt</Key>" [] false)
  else if String.eqb (req_url rq) (CourtListener.s3_base_url +:+ "?prefix=bulk-data/")
       then Responded (ok_response
              "<Key>bulk-data/a.bz2</Key><Key>x.txt</Key><Key>bulk-data/b.bz2</Key>"
              [] false)
  else if String.eqb (req_url rq) (CourtListener.s3_base_url +:+ "bulk-data/a.bz2")
       then Responded (ok_response "" [[x01]] false)
  else if String.eqb (req_url rq) (CourtListener.s3_base_url +:+ "bulk-data/b.bz2")
       then Responded (ok_response "" [[x02]] true)
  else Responded (ok_response "<Key>bulk-data/c.bz2</Key>" [] false).

Definition bucket_env : Env :=
  mkEnv demo_bucket (fun _ => []) demo_urljoin (fun _ => true) (fun _ _ _ => true).

(** A world whose disk holds one file. *)
Definition world_with (path : string) (content : list byte) : World :=
  mkWorld {[path := content]} ∅ [] [] [] 0.

(** The destination the object-store script computes for a key. *)
Definition destination (filename : string) : string :=
  Str.path_join CourtListener.output_dir (Str.basename filename).

(** The request the object-store script issues for a key. *)
Definition s3_request (filename : string) : Request :=
  file_request (CourtListener.s3_base_url +:+ filename).





(** The page at [url] is served, whenever it is asked for, and its anchors
    resolve to [links]. *)
Definition page_lists (env : Env) (url : string) (links : list string) : Prop :=
  exists r,
    (forall h, respond env h (page_request url) = Responded r)
    /\ is_error_status r = false
    /\ CaseLaw.resolve_anchors env url (find_all_a env (text r)) = Some links.

(** The download of [url] to [path] succeeds and brings [content]. *)
Definition completes (env : Env) (url path : string) (content : list byte) : Prop :=
  exists r,
    (forall h, serves env h (file_request url) r)
    /\ fits r
    /\ truncated r = false
    /\ concat (chunks r) = content
    /\ writable env path.

(** The download of [url] to [path] starts and the stream of the body
    breaks (a read error) while the disk takes every write. *)
Definition breaks_midstream (env : Env) (url path : string) : Prop :=
  exists r,
    (forall h, serves env h (file_request url) r)
    /\ fits r
    /\ truncated r = true
    /\ writable env path.



(** A request that fetches one of [keys] from the S3 endpoint. *)
Definition fetches_from_s3 (keys : list string) (rq : Request) : Prop :=
  exists k, In k keys /\ rq = s3_request k.

Definition any_exn : exn -> Prop := fun _ => True.

(** A bucket that only the storage endpoint (method 3) can list. *)
Definition storage_only (h : list Request) (rq : Request) : http_result :=
  if String.eqb (req_url rq) CourtListener.base_url
  then Responded (ok_response "<Key>bulk-data/c.bz2</Key>" [] false)
  else if String.eqb (req_url rq) (CourtListener.s3_base_url +:+ "bulk-data/c.bz2")
  then Responded (ok_response "" [[x03]] false)
  else Responded (status_response 403 "").

Definition storage_env : Env :=
  mkEnv storage_only (fun _ => []) demo_urljoin (fun _ => true) (fun _ _ _ => true).

Definition world_answering (line : string) : World := mkWorld ∅ ∅ [] [] [line] 0.

(** ** Notions used in the further properties *)

(** Two path strings name the same file when they resolve to the same
    list of names from the root.  The resolution is lexical, as on a disk
    without links: a relative path starts at the working directory
    [cwd], empty names and [.] are dropped, and [..] removes the name
    before it (at the root there is none to remove). *)
Module Path.

Definition step (stack : list string) (name : string) : list string :=
  if String.eqb name "" || String.eqb name "." then stack
  else if String.eqb name ".." then removelast stack
  else stack ++ [name].

Definition walk (stack : list string) (names : list string) : list string :=
  fold_left step names stack.

Definition resolve (cwd p : string) : list string :=
  walk (if Str.startswith p "/" then [] else walk [] (Str.split "/" cwd))
       (Str.split "/" p).

End Path.

(** Every value [m] can return satisfies [P]. *)
Definition yields {A} (P : A -> Prop) (m : M A) : Prop :=
  forall w a, fst (m w) = Ret a -> P a.

(** A key as the discovery functions let it through: it ends in [.bz2]
    and, coming out of the tag pattern, contains no [<]. *)
Definition archive_key (k : string) : Prop :=
  Str.endswith k ".bz2" = true /\ Str.all_chars Re.not_lt k = true.

Definition archive_keys (found : option (list string)) : Prop :=
  forall keys, found = Some keys -> Forall archive_key keys.

(** A path directly inside the output directory of the object-store
    script, with a name that ends in [.bz2]. *)
Definition archive_destination (p : string) : Prop :=
  exists name,
    p = CourtListener.output_dir +:+ "/" +:+ name
    /\ Str.all_chars not_slash name = true
    /\ Str.endswith name ".bz2" = true.

(** A path two joins below [out]: a reporter directory, then a file whose
    name ends in [.tar]; neither name contains a slash. *)
Definition archive_path (out p : string) : Prop :=
  exists reporter name,
    p = Str.path_join (Str.path_join out reporter) name
    /\ reporter <> ""
    /\ Str.all_chars not_slash reporter = true
    /\ Str.all_chars not_slash name = true
    /\ Str.endswith name ".tar" = true.

(** A reporter name as [get_reporter_directories] produces it. *)
Definition reporter_entry (r : string * string) : Prop :=
  fst r <> "" /\ Str.all_chars not_slash (fst r) = true.

(** A computation that creates no directory. *)
Definition same_dirs {A} (m : M A) : Prop :=
  forall w, made_dirs (snd (m w)) = made_dirs w.

(** The directory of a reporter below [out]. *)
Definition reporter_dir_of (out : string) (r : string * string) : string :=
  Str.path_join out (fst r).

(** The reporters a crawl with the given limit processes, as the slice
    expression of Python selects them: all of them without a limit or with
    the limit 0, the first [n] for a positive [n], and all but the last
    [-n] for a negative [n]. *)
Definition limited_to {A} (limit : option Z) (xs : list A) : list A :=
  match limit with
  | None => xs
  | Some n =>
      if n =? 0 then xs
      else if 0 <? n then take (Z.to_nat n) xs
      else take (length xs - Z.to_nat (- n)) xs
  end.

(** A run of white-space characters of [\s], each in its encoding. *)
Inductive spaces : string -> Prop :=
| spaces_nil : spaces ""
| spaces_cons c ws :
    In c ReBucket.space_chars -> spaces ws -> spaces (c +:+ ws).

(** A match of the bucket-name pattern at the head of [s], with [name]
    as its group: the literal BUCKET_NAME, white space, an equals sign,
    white space, a quote of either kind, a non-empty run without quotes,
    and a quote of either kind. *)
Definition assigns_bucket (s name : string) : Prop :=
  exists ws1 ws2 q1 q2 rest,
    s = "BUCKET_NAME" +:+ ws1 +:+ "=" +:+ ws2 +:+ String q1 (name +:+ String q2 rest)
    /\ spaces ws1
    /\ spaces ws2
    /\ ReBucket.is_quote q1 = true
    /\ ReBucket.is_quote q2 = true
    /\ name <> ""
    /\ Str.all_chars ReBucket.not_quote name = true.

(** The leftmost match of the pattern in [body] has the group [name]. *)
Definition first_bucket (body name : string) : Prop :=
  exists pre post,
    body = pre +:+ post
    /\ assigns_bucket post name
    /\ forall pre' post' name',
         body = pre' +:+ post' ->
         (String.length pre' < String.length pre)%nat ->
         ~ assigns_bucket post' name'.

(** The pattern matches nowhere in [body]. *)
Definition no_bucket (body : string) : Prop :=
  forall pre post name, body = pre +:+ post -> ~ assigns_bucket post name.

(** The listing URL the first discovery method builds from a bucket name. *)
Definition bucket_url (name : string) : string :=
  "https://" +:+ name +:+ ".s3-us-west-2.amazonaws.com/".

(** A request as the scripts make them: a page or listing request with a
    timeout of 30 seconds, or a streamed download without parameters and
    with a timeout of 300 seconds. *)
Definition script_request (rq : Request) : Prop :=
  (req_stream rq = false /\ req_timeout rq = 30)
  \/ (req_stream rq = true /\ req_timeout rq = 300 /\ req_params rq = []).

(** * Lemmas and theorems *)

(** ** Strings *)

Section StringFacts.


Lemma app_assoc_str (s t u : string) : (s +:+ t) +:+ u = s +:+ (t +:+ u).
Proof. induction s as [|a s IH]; simpl; [reflexivity | now rewrite IH]. Qed.

Lemma app_nil_r_str (s : string) : s +:+ "" = s.
Proof. induction s as [|a s IH]; simpl; [reflexivity | now rewrite IH]. Qed.

Lemma length_app_str (s t : string) :
  String.length (s +:+ t) = (String.length s + String.length t)%nat.
Proof. induction s as [|a s IH]; simpl; [reflexivity | now rewrite IH]. Qed.

Lemma app_inv_head_str (s t u : string) : s +:+ t = s +:+ u -> t = u.
Proof.
  induction s as [|a s IH]; simpl; intros H; [exact H|].
  injection H as H. auto.
Qed.

Lemma chr_eqb_eq (a b : ascii) : Str.chr_eqb a b = true <-> a = b.
Proof. apply Ascii.eqb_eq. Qed.

Lemma chr_eqb_refl (a : ascii) : Str.chr_eqb a a = true.
Proof. apply Ascii.eqb_refl. Qed.

Lemma strip_prefix_spec (p s r : string) :
  Str.strip_prefix p s = Some r <-> s = p +:+ r.
Proof.
  revert s. induction p as [|a p IH]; intros s; simpl.
  - split; [intros [= ->] | intros ->]; reflexivity.
  - destruct s as [|b s]; [split; discriminate|].
    destruct (Str.chr_eqb a b) eqn:E.
    + apply chr_eqb_eq in E as ->. rewrite IH.
      split; [intros -> | intros [= ->]]; reflexivity.
    + split; [discriminate|]. intros [= -> _].
      rewrite chr_eqb_refl in E. discriminate.
Qed.

Lemma strip_prefix_app (p r : string) : Str.strip_prefix p (p +:+ r) = Some r.
Proof. now apply strip_prefix_spec. Qed.

Lemma span_spec (p : ascii -> bool) (s k r : string) :
  Str.span p s = (k, r) ->
  s = k +:+ r /\ Str.all_chars p k = true /\ stops p r.
Proof.
  revert k r. induction s as [|a s IH]; simpl; intros k r H.
  - injection H as <- <-. repeat split.
  - destruct (p a) eqn:Pa.
    + destruct (Str.span p s) as [k' r'] eqn:E.
      injection H as <- <-.
      destruct (IH _ _ eq_refl) as (-> & Hk & Hr).
      simpl. rewrite Pa, Hk. repeat split. exact Hr.
    + injection H as <- <-. simpl. repeat split. exact Pa.
Qed.

Lemma span_app (p : ascii -> bool) (k r : string) :
  Str.all_chars p k = true -> stops p r -> Str.span p (k +:+ r) = (k, r).
Proof.
  induction k as [|a k IH]; simpl; intros Hk Hr.
  - destruct r as [|b r]; [reflexivity|]. simpl in *. now rewrite Hr.
  - apply andb_true_iff in Hk as [Pa Hk]. rewrite Pa, (IH Hk Hr). reflexivity.
Qed.

Lemma endswith_unfold (s suf : string) :
  Str.endswith s suf =
  if String.eqb s suf then true
  else match s with
       | EmptyString => false
       | String _ s' => Str.endswith s' suf
       end.
Proof. destruct s; reflexivity. Qed.

Lemma endswith_spec (s suf : string) :
  Str.endswith s suf = true <-> exists p, s = p +:+ suf.
Proof.
  induction s as [|a s IH]; rewrite endswith_unfold.
  - destruct (String.eqb_spec "" suf) as [<-|Hne].
    + split; [exists ""; reflexivity | reflexivity].
    + split; [discriminate|]. intros [p Hp].
      destruct p; simpl in Hp; [|discriminate]. congruence.
  - destruct (String.eqb_spec (String a s) suf) as [<-|Hne].
    + split; [exists ""; reflexivity | reflexivity].
    + rewrite IH. split.
      * intros [p ->]. exists (String a p). reflexivity.
      * intros [p Hp]. destruct p as [|b p]; simpl in Hp.
        -- congruence.
        -- injection Hp as -> ->. now exists p.
Qed.

End StringFacts.

(** ** The key scanner finds exactly the occurrences of the tag pattern *)

Section KeyScanner.

Lemma match_Key_spec (s k r : string) :
  Re.match_Key s = Some (k, r) <->
  s = "<Key>" +:+ k +:+ "</Key>" +:+ r /\ k <> "" /\ Str.all_chars Re.not_lt k = true.
Proof.
  unfold Re.match_Key. split.
  - destruct (Str.strip_prefix "<Key>" s) as [s1|] eqn:E1; [|discriminate].
    apply strip_prefix_spec in E1 as ->.
    destruct (Str.span Re.not_lt s1) as [k' s2] eqn:E2.
    apply span_spec in E2 as (-> & Hk & _).
    destruct k' as [|a k']; [discriminate|].
    destruct (Str.strip_prefix "</Key>" s2) as [s3|] eqn:E3; [|discriminate].
    apply strip_prefix_spec in E3 as ->.
    intros [= <- <-]. repeat split; [discriminate | exact Hk].
  - intros (-> & Hne & Hk).
    rewrite strip_prefix_app.
    rewrite (span_app Re.not_lt k ("</Key>" +:+ r) Hk) by reflexivity.
    destruct k as [|a k]; [congruence|].
    now rewrite strip_prefix_app.
Qed.

Lemma match_Key_length (s k r : string) :
  Re.match_Key s = Some (k, r) ->
  String.length s = (11 + String.length k + String.length r)%nat.
Proof.
  intros H. apply match_Key_spec in H as (-> & _ & _).
  rewrite !length_app_str. simpl. lia.
Qed.

Lemma occurs_at_0 (s k : string) :
  occurs_at s 0 k <-> exists r, Re.match_Key s = Some (k, r).
Proof.
  split.
  - intros (pre & post & -> & Hlen & Hne & Hk).
    destruct pre; [|discriminate]. simpl.
    exists post. now apply match_Key_spec.
  - intros [r H]. apply match_Key_spec in H as (-> & Hne & Hk).
    now exists "", r.
Qed.

Lemma occurs_at_S (a : ascii) (s : string) (i : nat) (k : string) :
  occurs_at (String a s) (S i) k <-> occurs_at s i k.
Proof.
  split.
  - intros (pre & post & E & Hlen & Hne & Hk).
    destruct pre as [|b pre]; [discriminate|].
    simpl in E, Hlen. injection E as -> ->. injection Hlen as Hlen.
    now exists pre, post.
  - intros (pre & post & -> & Hlen & Hne & Hk).
    exists (String a pre), post. simpl. auto.
Qed.

Lemma occurs_at_app (p s : string) (i : nat) (k : string) :
  occurs_at s i k -> occurs_at (p +:+ s) (String.length p + i) k.
Proof.
  induction p as [|a p IH]; simpl; intros H; [exact H|].
  apply occurs_at_S. auto.
Qed.

(** A key has no [<], so a text that continues with [<] after the key can
    only be split at or after the end of the key. *)
Lemma key_then_lt (k p x y : string) :
  Str.all_chars Re.not_lt k = true ->
  p +:+ String "<" x = k +:+ String "<" y ->
  exists p', p = k +:+ p' /\ p' +:+ String "<" x = String "<" y.
Proof.
  revert p. induction k as [|a k IH]; simpl; intros p Hk E.
  - now exists p.
  - apply andb_true_iff in Hk as [Ha Hk].
    destruct p as [|b p]; simpl in E.
    + injection E as <- _. discriminate.
    + injection E as -> E. destruct (IH p Hk E) as (p' & -> & E').
      now exists p'.
Qed.

(** Occurrences do not overlap: inside a match, no other one starts. *)
Lemma occurs_after_match (s k r : string) (i : nat) (k' : string) :
  Re.match_Key s = Some (k, r) ->
  occurs_at s i k' ->
  i = 0%nat \/
  exists j, i = (String.length s - String.length r + j)%nat /\ occurs_at r j k'.
Proof.
  intros Hm Ho. pose proof (match_Key_length _ _ _ Hm) as Hlen.
  assert (Hd : (String.length s - String.length r = 11 + String.length k)%nat) by lia.
  revert Hd. generalize (String.length s - String.length r)%nat. intros d Hd.
  clear Hlen.
  apply match_Key_spec in Hm as (Hs & Hne & Hk).
  destruct Ho as (pre & post & E & Hi & Hne' & Hk').
  destruct pre as [|c0 pre]; [left; now subst i | right].
  rewrite Hs in E. simpl in E.
  do 4 (destruct pre as [|? pre]; simpl in E; [discriminate E|]).
  injection E as ? ? ? ? ? E. subst.
  symmetry in E.
  destruct (key_then_lt k pre _ _ Hk E) as (p' & -> & E').
  do 6 (destruct p' as [|? p']; simpl in E'; [discriminate E'|]).
  injection E' as ? ? ? ? ? ? E'. subst.
  exists (String.length p'). split.
  - simpl. rewrite !length_app_str. simpl. lia.
  - now exists p', post.
Qed.

Lemma scan_Key_spec (fuel : nat) : forall (off : nat) (s : string),
  (String.length s <= fuel)%nat ->
  let occs := Re.scan_Key fuel off s in
  (forall i k, In (i, k) occs <-> (off <= i)%nat /\ occurs_at s (i - off) k)
  /\ StronglySorted lt (map fst occs).
Proof.
  induction fuel as [|fuel IH]; intros off s Hlen; simpl.
  - destruct s; [|simpl in Hlen; lia]. split; [|constructor].
    intros i k. split; [intros []|]. intros [_ (pre & post & E & _)].
    destruct pre; discriminate.
  - destruct s as [|a s].
    { split; [|constructor]. intros i k. split; [intros []|].
      intros [_ (pre & post & E & _)]. destruct pre; discriminate. }
    destruct (Re.match_Key (String a s)) as [[k r]|] eqn:Hm.
    + pose proof (match_Key_length _ _ _ Hm) as HL.
      set (d := (String.length (String a s) - String.length r)%nat) in *.
      assert (Hd : (0 < d)%nat) by (unfold d; lia).
      assert (Hr : (String.length r <= fuel)%nat) by (simpl in Hlen, HL; lia).
      destruct (IH (off + d)%nat r Hr) as [Hin Hsort].
      split.
      * intros i k0. simpl. rewrite Hin. split.
        -- intros [[= <- <-] | [Hle Ho]].
           ++ split; [lia|]. rewrite Nat.sub_diag. apply occurs_at_0. eauto.
           ++ split; [lia|].
              apply match_Key_spec in Hm as (Hs & _ & _).
              replace (i - off)%nat with (d + (i - (off + d)))%nat by lia.
              rewrite Hs.
              assert (E : d = String.length ("<Key>" +:+ k +:+ "</Key>")).
              { simpl. rewrite length_app_str. simpl.
                unfold d. simpl. simpl in HL. lia. }
              pose proof (occurs_at_app ("<Key>" +:+ k +:+ "</Key>") r _ k0 Ho) as Ho'.
              rewrite <- E in Ho'.
              replace ("<Key>" +:+ k +:+ "</Key>" +:+ r)
                with (("<Key>" +:+ k +:+ "</Key>") +:+ r); [exact Ho'|].
              simpl. rewrite app_assoc_str. reflexivity.
        -- intros [Hle Ho].
           destruct (occurs_after_match _ _ _ _ _ Hm Ho) as [E0 | (j & Ej & Hj)].
           ++ left. assert (i = off) by lia. subst i.
              rewrite Nat.sub_diag in Ho. apply occurs_at_0 in Ho as [r' Hr'].
              congruence.
           ++ right. split; [fold d in Ej; lia|].
              fold d in Ej. replace (i - (off + d))%nat with j by lia. exact Hj.
      * simpl. constructor; [exact Hsort|].
        apply List.Forall_forall. intros x Hx.
        apply in_map_iff in Hx as ([i k0] & <- & Hx).
        apply Hin in Hx as [Hx _]. simpl. lia.
    + assert (Hs : (String.length s <= fuel)%nat) by (simpl in Hlen; lia).
      destruct (IH (S off) s Hs) as [Hin Hsort]. split; [|exact Hsort].
      intros i k. rewrite Hin. split.
      * intros [Hle Ho]. split; [lia|].
        replace (i - off)%nat with (S (i - S off)) by lia.
        now apply occurs_at_S.
      * intros [Hle Ho].
        destruct (Nat.eq_dec i off) as [->|Hne].
        -- rewrite Nat.sub_diag in Ho. apply occurs_at_0 in Ho as [r Hr]. congruence.
        -- split; [lia|].
           replace (i - off)%nat with (S (i - S off)) in Ho by lia.
           now apply occurs_at_S in Ho.
Qed.

(** [re.finditer] enumerates every occurrence, each once, left to right. *)
Lemma finditer_Key_spec (body : string) :
  (forall i k, In (i, k) (Re.finditer_Key body) <-> occurs_at body i k)
  /\ StronglySorted lt (map fst (Re.finditer_Key body)).
Proof.
  destruct (scan_Key_spec (String.length body) 0 body (le_n _)) as [Hin Hsort].
  split; [|exact Hsort].
  intros i k. unfold Re.finditer_Key. rewrite (Hin i k), Nat.sub_0_r.
  split; [tauto | split; [lia | assumption]].
Qed.

End KeyScanner.

(** ** A calculus of effects for the monad *)

Section Effects.

Context {A B : Type}.
Variables (Q : string -> Prop) (R : Request -> Prop) (E : exn -> Prop).

Lemma bind_Ret (m : M A) (k : A -> M B) (w w' : World) (a : A) :
  m w = (Ret a, w') -> bind m k w = k a w'.
Proof. unfold bind. now intros ->. Qed.

Lemma bind_Raise (m : M A) (k : A -> M B) (w w' : World) (e : exn) :
  m w = (Raise e, w') -> bind m k w = (Raise e, w').
Proof. unfold bind. now intros ->. Qed.

Lemma effects_weaken (Q' : string -> Prop) (R' : Request -> Prop)
    (E' : exn -> Prop) (m : M A) :
  (forall p, Q' p -> Q p) -> (forall r, R' r -> R r) -> (forall e, E' e -> E e) ->
  effects Q' R' E' m -> effects Q R E m.
Proof.
  intros HQ HR HE Hm w. destruct (Hm w) as (Hf & (new & Hn & Hall) & He).
  split; [|split].
  - intros p Hp. apply Hf. auto.
  - exists new. split; [exact Hn|]. eapply Forall_impl; eauto.
  - eauto.
Qed.

Lemma effects_ret (a : A) : effects Q R E (ret a).
Proof.
  intros w. simpl. split; [|split]; [reflexivity | | discriminate].
  exists []. now rewrite app_nil_r.
Qed.

Lemma effects_raise (e : exn) : E e -> effects Q R E (raise e : M A).
Proof.
  intros He w. simpl. split; [|split]; [reflexivity | | now intros ? [= <-]].
  exists []. now rewrite app_nil_r.
Qed.

Lemma effects_bind (m : M A) (k : A -> M B) :
  effects Q R E m -> (forall a, effects Q R E (k a)) -> effects Q R E (bind m k).
Proof.
  intros Hm Hk w. unfold bind.
  destruct (Hm w) as (Hf & (new & Hn & Hall) & He).
  destruct (m w) as [[a|e] w1]; simpl in *.
  - destruct (Hk a w1) as (Hf' & (new' & Hn' & Hall') & He').
    split; [|split].
    + intros p Hp. rewrite Hf', Hf; auto.
    + exists (new ++ new'). rewrite Hn', Hn, app_assoc. split; [reflexivity|].
      apply Forall_app; auto.
    + exact He'.
  - split; [|split]; [exact Hf | now exists new |].
    intros e' [= <-]. now apply He.
Qed.

End Effects.

Section EffectsHandlers.

Context {A : Type}.
Variables (Q : string -> Prop) (R : Request -> Prop) (E : exn -> Prop).

Lemma effects_except_RequestException (body handler : M A) :
  effects Q R (fun e => e = RequestException \/ E e) body ->
  effects Q R E handler ->
  effects Q R E (except_RequestException body handler).
Proof.
  intros Hb Hh w. unfold except_RequestException.
  destruct (Hb w) as (Hf & (new & Hn & Hall) & He).
  destruct (body w) as [[a|e] w1]; simpl in *.
  - split; [|split]; [exact Hf | now exists new | discriminate].
  - assert (Hcase : e = RequestException \/ E e) by (now apply He).
    destruct e; try (split; [|split];
      [exact Hf | now exists new
      | intros e' [= <-]; destruct Hcase as [Hc|Hc]; [discriminate Hc | exact Hc]]).
    destruct (Hh w1) as (Hf' & (new' & Hn' & Hall') & He').
    split; [|split].
    + intros p Hp. rewrite Hf', Hf; auto.
    + exists (new ++ new'). rewrite Hn', Hn, app_assoc. split; [reflexivity|].
      apply Forall_app; auto.
    + exact He'.
Qed.

Lemma effects_except_all (E' : exn -> Prop) (body handler : M A) :
  effects Q R E' body ->
  effects Q R E handler ->
  effects Q R E (except_all body handler).
Proof.
  intros Hb Hh w. unfold except_all.
  destruct (Hb w) as (Hf & (new & Hn & Hall) & He).
  destruct (body w) as [[a|e] w1]; simpl in *.
  - split; [|split]; [exact Hf | now exists new | discriminate].
  - destruct (Hh w1) as (Hf' & (new' & Hn' & Hall') & He').
    split; [|split].
    + intros p Hp. rewrite Hf', Hf; auto.
    + exists (new ++ new'). rewrite Hn', Hn, app_assoc. split; [reflexivity|].
      apply Forall_app; auto.
    + exact He'.
Qed.

End EffectsHandlers.

Section EffectsPrimitives.

Variables (Q : string -> Prop) (R : Request -> Prop) (E : exn -> Prop).

Ltac pure_effect :=
  intros w; simpl; split; [|split];
  [ reflexivity
  | exists []; now rewrite app_nil_r
  | try discriminate ].

Lemma effects_print (m : Msg) : effects Q R E (print m).
Proof. pure_effect. Qed.

Lemma effects_sleep : effects Q R E sleep_half_second.
Proof. pure_effect. Qed.

Lemma effects_mkdir (path : string) : effects Q R E (mkdir path).
Proof. pure_effect. Qed.

Lemma effects_path_exists (path : string) : effects Q R E (path_exists path).
Proof. pure_effect. Qed.

Lemma effects_input : E EOFError -> effects Q R E input.
Proof.
  intros He w. unfold input. destruct (stdin w); simpl; (split; [|split]);
    try reflexivity; try discriminate;
    try (exists []; now rewrite app_nil_r).
  now intros e [= <-].
Qed.

Lemma effects_raise_for_status (r : Response) :
  E RequestException -> effects Q R E (raise_for_status r).
Proof.
  intros He. unfold raise_for_status.
  destruct (is_error_status r); [now apply effects_raise | apply effects_ret].
Qed.

Lemma effects_total_size_of (r : Response) :
  E ValueError -> effects Q R E (total_size_of r).
Proof.
  intros He. unfold total_size_of.
  destruct (content_length r); [apply effects_ret | now apply effects_raise | apply effects_ret].
Qed.

Lemma effects_http_get (env : Env) (rq : Request) :
  R rq -> E RequestException -> effects Q R E (http_get env rq).
Proof.
  intros Hr He w. unfold http_get.
  destruct (respond env (requests w) rq); simpl; (split; [|split]);
    try reflexivity; try discriminate;
    try (exists [rq]; split; [reflexivity | now constructor]).
  now intros e [= <-].
Qed.

Lemma effects_remove (path : string) : Q path -> effects Q R E (remove path).
Proof.
  intros Hq w. simpl. split; [|split]; [ | exists []; now rewrite app_nil_r | discriminate].
  intros p Hp. apply lookup_delete_ne. congruence.
Qed.

Lemma effects_open_wb (env : Env) (path : string) :
  Q path -> E OSError -> effects Q R E (open_wb env path).
Proof.
  intros Hq He w. unfold open_wb. destruct (open_ok env path); simpl;
    (split; [|split]); try reflexivity; try discriminate;
    try (exists []; now rewrite app_nil_r).
  - intros p Hp. apply lookup_insert_ne. congruence.
  - now intros e [= <-].
Qed.

Lemma effects_write (env : Env) (path : string) (chunk : list byte) :
  Q path -> E OSError -> effects Q R E (write env path chunk).
Proof.
  intros Hq He w. unfold write. destruct (write_ok env path _ chunk); simpl;
    (split; [|split]); try reflexivity; try discriminate;
    try (exists []; now rewrite app_nil_r).
  - intros p Hp. apply lookup_insert_ne. congruence.
  - now intros e [= <-].
Qed.

Lemma effects_write_chunks (env : Env) (path : string) (total : Z)
    (cs : list (list byte)) : forall done,
  Q path -> E OSError -> E OverflowError ->
  effects Q R E (write_chunks env path total done cs).
Proof.
  induction cs as [|chunk cs IH]; intros done Hq He Ho; simpl.
  - apply effects_ret.
  - destruct chunk as [|b chunk]; [now apply IH|].
    apply effects_bind; [now apply effects_write|]. intros _.
    apply effects_bind; [|intros _; now apply IH].
    destruct (0 <? total); [|apply effects_ret].
    destruct (progress_overflows _ total);
      [now apply effects_raise | apply effects_print].
Qed.

Lemma effects_stream_to_file (env : Env) (path : string) (total : Z) (r : Response) :
  Q path -> E OSError -> E OverflowError -> E RequestException ->
  effects Q R E (stream_to_file env path total r).
Proof.
  intros Hq He Ho He'. unfold stream_to_file.
  apply effects_bind; [now apply effects_open_wb|]. intros _.
  apply effects_bind; [now apply effects_write_chunks|]. intros _.
  destruct (truncated r); [now apply effects_raise | apply effects_ret].
Qed.

End EffectsPrimitives.

Lemma effects_keeps {A} (R : Request -> Prop) (E : exn -> Prop) (m : M A) :
  effects no_path R E m -> keeps m.
Proof.
  intros Hm w p c Hp. destruct (Hm w) as (Hf & _). rewrite Hf; auto.
Qed.

Lemma keeps_bind {A B} (m : M A) (k : A -> M B) :
  keeps m -> (forall a, keeps (k a)) -> keeps (bind m k).
Proof.
  intros Hm Hk w p c Hp. unfold bind. specialize (Hm w p c Hp).
  destruct (m w) as [[a|e] w1]; simpl in *; [now apply Hk | exact Hm].
Qed.

(** The skip-if-exists guard: a computation that only touches [path] is
    harmless when it runs only if nothing is at [path]. *)
Lemma keeps_if_absent_touch {A B} (R : Request -> Prop) (E : exn -> Prop)
    (path : string) (m : M A) (k : A -> M B) :
  effects (eq path) R E m -> (forall a, keeps (k a)) ->
  keeps_if_absent path (bind m k).
Proof.
  intros Hm Hk w Hpath p c Hp. unfold bind.
  destruct (Hm w) as (Hf & _).
  assert (Hne : path <> p) by congruence.
  specialize (Hf p Hne).
  destruct (m w) as [[a|e] w1]; simpl in *; [apply Hk|]; congruence.
Qed.

Lemma keeps_if_absent_after {A B} (R : Request -> Prop) (E : exn -> Prop)
    (path : string) (m : M A) (k : A -> M B) :
  effects no_path R E m -> (forall a, keeps_if_absent path (k a)) ->
  keeps_if_absent path (bind m k).
Proof.
  intros Hm Hk w Hpath p c Hp. unfold bind.
  destruct (Hm w) as (Hf & _).
  pose proof (Hf p (fun F => F)) as Hfp. pose proof (Hf path (fun F => F)) as Hfpath.
  destruct (m w) as [[a|e] w1]; simpl in *; [apply Hk|]; congruence.
Qed.

Lemma keeps_guard {A} (path : string) (skip fetch : M A) :
  keeps skip -> keeps_if_absent path fetch ->
  keeps (bind (path_exists path) (fun present => if present then skip else fetch)).
Proof.
  intros Hs Hfetch w p c Hp.
  unfold bind, path_exists.
  destruct (files w !! path) as [c'|] eqn:Hpath.
  - rewrite bool_decide_eq_true_2 by eauto. now apply Hs.
  - rewrite bool_decide_eq_false_2 by (intros [? ?]; congruence).
    now apply Hfetch.
Qed.

(** ** Effects of the functions of the two scripts *)

Ltac fx_side :=
  cbv beta; unfold local_exn, no_exn; first [reflexivity | exact I | auto 8].

Ltac fx_step :=
  lazymatch goal with
  | |- effects _ _ _ (bind _ _) => apply effects_bind; [|intros ?]
  | |- effects _ _ _ (except_RequestException _ _) =>
      apply effects_except_RequestException
  | |- effects _ _ _ (ret _) => apply effects_ret
  | |- effects _ _ _ (print _) => apply effects_print
  | |- effects _ _ _ sleep_half_second => apply effects_sleep
  | |- effects _ _ _ (mkdir _) => apply effects_mkdir
  | |- effects _ _ _ (path_exists _) => apply effects_path_exists
  | |- effects _ _ _ (remove _) => apply effects_remove; fx_side
  | |- effects _ _ _ (raise_for_status _) => apply effects_raise_for_status; fx_side
  | |- effects _ _ _ (total_size_of _) => apply effects_total_size_of; fx_side
  | |- effects _ _ _ (http_get _ _) => apply effects_http_get; fx_side
  | |- effects _ _ _ (stream_to_file _ _ _ _) => apply effects_stream_to_file; fx_side
  | |- effects _ _ _ (raise _) => apply effects_raise; fx_side
  | |- effects _ _ _ input => apply effects_input; fx_side
  | |- effects _ _ _ (if ?b then _ else _) => destruct b
  | |- effects _ _ _ (match ?x with _ => _ end) => destruct x
  | |- effects _ _ _ (let _ := _ in _) => cbv zeta
  end.

Ltac fx := repeat fx_step.

Section ScriptEffects.

Variable env : Env.

Lemma effects_get_page_links (url : string) :
  effects no_path (eq (mkRequest url [] false 30)) (eq ValueError)
          (CaseLaw.get_page_links env url).
Proof.
  unfold CaseLaw.get_page_links.
  fx.
Qed.

Lemma effects_caselaw_download_file (url path : string) :
  effects (eq path) (eq (mkRequest url [] true 300)) local_exn
          (CaseLaw.download_file env url path).
Proof.
  unfold CaseLaw.download_file, local_exn.
  fx.
Qed.

Lemma effects_get_s3_bucket_listing (url : string) :
  effects no_path (eq (mkRequest url [("prefix", "bulk-data/")] false 30)) no_exn
          (CourtListener.get_s3_bucket_listing env url).
Proof.
  unfold CourtListener.get_s3_bucket_listing.
  fx.
Qed.

Lemma effects_courtlistener_download_file (filename base out : string) :
  effects (eq (Str.path_join out (Str.basename filename)))
          (eq (mkRequest (base +:+ filename) [] true 300)) local_exn
          (CourtListener.download_file env filename base out).
Proof.
  unfold CourtListener.download_file, local_exn.
  fx.
Qed.

End ScriptEffects.

Section DiscoveryEffects.

Variable env : Env.

Lemma effects_listing_any (url : string) :
  effects no_path any_request no_exn (CourtListener.get_s3_bucket_listing env url).
Proof.
  eapply effects_weaken; [| | |apply effects_get_s3_bucket_listing];
    unfold any_request; auto.
Qed.

Lemma effects_get_files_from_html_listing (url : string) :
  effects no_path any_request no_exn
          (CourtListener.get_files_from_html_listing env url).
Proof.
  unfold CourtListener.get_files_from_html_listing.
  apply effects_bind; [apply effects_print|]. intros _.
  apply effects_except_RequestException; [|fx].
  apply effects_bind; [fx|]. intros r.
  apply effects_bind; [fx|]. intros _.
  destruct (ReBucket.search_bucket (text r)); [|fx].
  apply effects_bind; [fx|]. intros _.
  eapply effects_weaken; [| | |apply effects_listing_any]; auto.
Qed.

Lemma effects_try_endpoint (endpoint : string) :
  effects no_path any_request no_exn (CourtListener.try_endpoint env endpoint).
Proof.
  unfold CourtListener.try_endpoint.
  apply effects_except_all with (E' := fun _ => True); [|fx].
  apply effects_bind; [fx|]. intros _.
  apply effects_bind; [fx|]. intros r.
  destruct (status_code r =? 200); [|fx].
  cbv zeta. destruct (CourtListener.bz2_only _); fx.
Qed.

Lemma effects_try_endpoints (endpoints : list string) :
  effects no_path any_request no_exn (CourtListener.try_endpoints env endpoints).
Proof.
  induction endpoints as [|e rest IH]; simpl; [fx|].
  apply effects_bind; [apply effects_try_endpoint|].
  intros [found|]; [fx | exact IH].
Qed.

Lemma effects_get_files_alternative_method (base : string) :
  effects no_path any_request no_exn
          (CourtListener.get_files_alternative_method env base).
Proof.
  unfold CourtListener.get_files_alternative_method.
  apply effects_bind; [fx | intros _; apply effects_try_endpoints].
Qed.

Lemma effects_discover :
  effects no_path any_request no_exn (CourtListener.discover env).
Proof.
  unfold CourtListener.discover.
  apply effects_bind; [apply effects_get_files_from_html_listing|]. intros r1.
  apply effects_bind.
  - destruct (CourtListener.falsy r1);
      [apply effects_get_files_alternative_method | fx].
  - intros r2. destruct (CourtListener.falsy r2); [|fx].
    apply effects_bind; [fx | intros _; apply effects_listing_any].
Qed.

(** A computation from which no exception escapes returns a value. *)
Lemma no_exn_returns {A} (Q : string -> Prop) (R : Request -> Prop) (m : M A)
    (w : World) :
  effects Q R no_exn m -> exists a, fst (m w) = Ret a.
Proof.
  intros Hm. destruct (Hm w) as (_ & _ & He).
  destruct (fst (m w)) as [a|e]; [now exists a|].
  destruct (He e eq_refl).
Qed.

End DiscoveryEffects.

(** ** Path segments: [rstrip], [split] and the final segment *)

Section Segments.

Lemma split_nonempty (c : ascii) (s : string) : Str.split c s <> [].
Proof.
  destruct s as [|a s]; simpl; [discriminate|].
  destruct (Str.chr_eqb a c); [discriminate|].
  destruct (Str.split c s); discriminate.
Qed.

Lemma split_no_slash (n : string) :
  Str.all_chars not_slash n = true -> Str.split "/" n = [n].
Proof.
  induction n as [|a n IH]; simpl; intros H; [reflexivity|].
  apply andb_true_iff in H as [Ha Hn].
  unfold not_slash, is_slash in Ha. apply negb_true_iff in Ha. rewrite Ha.
  now rewrite (IH Hn).
Qed.

Lemma split_app_slash (u v : string) :
  Str.split "/" (u +:+ String "/" v) = Str.split "/" u ++ Str.split "/" v.
Proof.
  induction u as [|a u IH]; simpl; [reflexivity|].
  destruct (Str.chr_eqb a "/"); rewrite IH; [reflexivity|].
  pose proof (split_nonempty "/" u) as Hne.
  destruct (Str.split "/" u); [congruence | reflexivity].
Qed.

Lemma last_item_app (xs : list string) (n : string) :
  Str.last_item (xs ++ [n]) = n.
Proof. unfold Str.last_item. apply last_last. Qed.

Lemma last_split_tail (pre n : string) :
  (pre = "" \/ exists pre', pre = pre' +:+ "/") ->
  Str.all_chars not_slash n = true ->
  Str.last_item (Str.split "/" (pre +:+ n)) = n.
Proof.
  intros [-> | [pre' ->]] Hn.
  - simpl. now rewrite split_no_slash.
  - rewrite app_assoc_str. simpl.
    rewrite split_app_slash, (split_no_slash n) by assumption.
    apply last_item_app.
Qed.

(** Every string is a prefix that is empty or ends in a slash, followed
    by a run without slashes. *)
Lemma tail_decomposition (r : string) :
  exists pre n,
    r = pre +:+ n
    /\ (pre = "" \/ exists pre', pre = pre' +:+ "/")
    /\ Str.all_chars not_slash n = true.
Proof.
  induction r as [|a r (pre & n & -> & Hpre & Hn)].
  - exists "", "". auto.
  - destruct Hpre as [-> | [pre' ->]].
    + destruct (Str.chr_eqb a "/") eqn:Ea.
      * apply chr_eqb_eq in Ea as ->.
        exists "/", n. repeat split; [right; now exists "" | exact Hn].
      * exists "", (String a n). repeat split; [now left|].
        simpl. unfold not_slash at 1, is_slash. now rewrite Ea.
    + exists (String a (pre' +:+ "/")), n. repeat split; [|exact Hn].
      right. now exists (String a pre').
Qed.

Lemma rstrip_slashes (sl : string) :
  Str.all_chars is_slash sl = true -> Str.rstrip "/" sl = "".
Proof.
  induction sl as [|a sl IH]; simpl; intros H; [reflexivity|].
  apply andb_true_iff in H as [Ha Hs]. rewrite (IH Hs).
  unfold is_slash in Ha. now rewrite Ha.
Qed.

Lemma rstrip_decomposition (s : string) :
  exists sl, s = Str.rstrip "/" s +:+ sl /\ Str.all_chars is_slash sl = true.
Proof.
  induction s as [|a s (sl & Hs & Hsl)]; simpl.
  - now exists "".
  - destruct (Str.rstrip "/" s) as [|b r] eqn:Er.
    + destruct (Str.chr_eqb a "/") eqn:Ea.
      * exists (String a s). split; [reflexivity|]. simpl.
        unfold is_slash at 1. rewrite Ea. simpl in Hs. now rewrite Hs.
      * exists s. split; [reflexivity|]. simpl in Hs. now rewrite Hs.
    + exists sl. split; [|exact Hsl]. rewrite Hs at 1. reflexivity.
Qed.

Lemma rstrip_app (pre n sl : string) :
  n <> "" -> Str.all_chars not_slash n = true ->
  Str.all_chars is_slash sl = true ->
  Str.rstrip "/" (pre +:+ n +:+ sl) = pre +:+ n.
Proof.
  intros Hne Hn Hsl.
  assert (Hbase : Str.rstrip "/" (n +:+ sl) = n).
  { revert Hne Hn. induction n as [|a n IH]; [congruence|].
    intros _ H. simpl in *. apply andb_true_iff in H as [Ha Hn].
    destruct n as [|b n].
    - simpl. rewrite (rstrip_slashes _ Hsl).
      unfold not_slash, is_slash in Ha. apply negb_true_iff in Ha. now rewrite Ha.
    - rewrite IH by (discriminate || assumption). reflexivity. }
  induction pre as [|a pre IH]; simpl; [exact Hbase|].
  rewrite IH. destruct pre; [destruct n; [congruence | reflexivity] | reflexivity].
Qed.

Lemma final_segment_of_code (link name : string) :
  Str.last_item (Str.split "/" (Str.rstrip "/" link)) = name ->
  name <> "" -> is_final_segment link name.
Proof.
  intros Hname Hne.
  destruct (rstrip_decomposition link) as (sl & Hl & Hsl).
  destruct (tail_decomposition (Str.rstrip "/" link)) as (pre & n & Hr & Hpre & Hn).
  rewrite Hr, (last_split_tail _ _ Hpre Hn) in Hname. subst n.
  split; [exact Hne|]. split; [exact Hn|].
  exists pre, sl. split; [|now split].
  rewrite Hl at 1. rewrite Hr. apply app_assoc_str.
Qed.

Lemma code_of_final_segment (link name : string) :
  is_final_segment link name ->
  Str.last_item (Str.split "/" (Str.rstrip "/" link)) = name.
Proof.
  intros (Hne & Hn & pre & sl & -> & Hsl & Hpre).
  rewrite rstrip_app by assumption.
  now apply last_split_tail.
Qed.

Lemma reporter_of_spec (root link name url : string) :
  CaseLaw.reporter_of root link = Some (name, url) <->
  url = link /\ is_reporter root link name.
Proof.
  unfold CaseLaw.reporter_of, is_reporter. split.
  - destruct (Str.endswith link "/") eqn:Ed; [|discriminate].
    destruct (String.eqb_spec link root) as [->|Hroot]; [discriminate|]. simpl.
    destruct (String.eqb_spec
                (Str.last_item (Str.split "/" (Str.rstrip "/" link))) "")
      as [E|Hne]; [discriminate|]. simpl.
    destruct (Str.endswith _ ".json") eqn:Ej; [discriminate|]. simpl.
    intros [= <- <-]. split; [reflexivity|].
    split; [reflexivity|]. split; [exact Hroot|].
    split; [now apply final_segment_of_code | exact Ej].
  - intros (-> & Hd & Hroot & Hseg & Hj).
    rewrite Hd. destruct (String.eqb_spec link root) as [E|_]; [contradiction|]. simpl.
    rewrite (code_of_final_segment _ _ Hseg).
    destruct Hseg as (Hne & _).
    destruct (String.eqb_spec name "") as [E|_]; [contradiction|]. simpl.
    now rewrite Hj.
Qed.

Lemma reporters_follow_spec (root : string) (links : list string) :
  listReporters_rel root links (omap (CaseLaw.reporter_of root) links).
Proof.
  induction links as [|link links IH]; simpl; [constructor|].
  destruct (CaseLaw.reporter_of root link) as [[name url]|] eqn:E; simpl.
  - apply reporter_of_spec in E as [-> Hr]. now constructor.
  - constructor; [|exact IH]. intros name Hr.
    assert (CaseLaw.reporter_of root link = Some (name, link))
      by (apply reporter_of_spec; auto).
    congruence.
Qed.

End Segments.

(** ** What the listing and download functions compute *)

Lemma bind_print {A} (m : Msg) (k : unit -> M A) (w : World) :
  bind (print m) k w = k tt (add_line m w).
Proof. reflexivity. Qed.

Lemma print_then_ret {A} (m : Msg) (a : A) (w : World) :
  (print m ;;; ret a) w = (Ret a, add_line m w).
Proof. reflexivity. Qed.

Lemma bind_sleep {A} (k : unit -> M A) (w : World) :
  bind sleep_half_second k w = k tt (nap w).
Proof. reflexivity. Qed.

Section Runs.

Variable env : Env.

(** [resolve_anchors] succeeds with the links that [urljoin] gives for the
    hrefs, one by one and in their order. *)
Lemma resolve_anchors_some (url : string) (anchors : list (option string))
    (links : list string) :
  CaseLaw.resolve_anchors env url anchors = Some links <->
  Forall2 (fun href link => urljoin env url href = Some link)
          (hrefs_of anchors) links.
Proof.
  unfold hrefs_of. revert links.
  induction anchors as [|[href|] anchors IH]; intros links; simpl.
  - split; [intros [= <-]; constructor | intros H; now inversion H].
  - unfold id at 1. simpl. split.
    + destruct (urljoin env url href) as [full|] eqn:Hj; [|discriminate].
      destruct (CaseLaw.resolve_anchors env url anchors) as [ls|];
        [|discriminate].
      intros [= <-]. constructor; [exact Hj | now apply IH].
    + intros H. inversion H as [|? link ? ls Hj Hrest]; subst.
      rewrite Hj. apply IH in Hrest. now rewrite Hrest.
  - apply IH.
Qed.


Lemma get_page_links_run (url : string) (w : World) :
  CaseLaw.get_page_links env url w =
  match respond env (requests w) (page_request url) with
  | Responded r =>
      if is_error_status r
      then (Ret [], add_line (ErrorFetching url) (add_request (page_request url) w))
      else match CaseLaw.resolve_anchors env url (find_all_a env (text r)) with
           | Some links => (Ret links, add_request (page_request url) w)
           | None => (Raise ValueError, add_request (page_request url) w)
           end
  | ConnectionFailed =>
      (Ret [], add_line (ErrorFetching url) (add_request (page_request url) w))
  end.
Proof.
  unfold CaseLaw.get_page_links, except_RequestException, bind, http_get,
    raise_for_status, page_request.
  destruct (respond env (requests w) _) as [|r]; [reflexivity|].
  destruct (is_error_status r); [reflexivity|]. simpl.
  destruct (CaseLaw.resolve_anchors env url _); reflexivity.
Qed.

Lemma truediv_overflows_mono (d d' b : Z) :
  d' <= d -> truediv_overflows d b = false -> truediv_overflows d' b = false.
Proof. unfold truediv_overflows. intros Hle H. lia. Qed.

(** If the divisions fit a float for some number of bytes, they fit for
    every smaller one. *)
Lemma progress_overflows_mono (d d' total : Z) :
  d' <= d -> progress_overflows d total = false ->
  progress_overflows d' total = false.
Proof.
  unfold progress_overflows. intros Hle H.
  apply orb_false_iff in H as [H H3]. apply orb_false_iff in H as [H1 H2].
  rewrite (truediv_overflows_mono d d' total Hle H1),
    (truediv_overflows_mono d d' _ Hle H2), H3. reflexivity.
Qed.

(** Writing a stream to a disk that accepts every write, when the
    progress arithmetic fits. *)
Lemma write_chunks_ok (path : string) (total : Z) (cs : list (list byte)) :
  (forall cur chunk, write_ok env path cur chunk = true) ->
  forall (done : Z) (w : World) (cur : list byte),
    total <= 0 \/ concat cs = []
    \/ progress_overflows (done + Z.of_nat (length (concat cs))) total = false ->
    files w !! path = Some cur ->
    exists n w',
      write_chunks env path total done cs w = (Ret n, w')
      /\ files w' = <[path := cur ++ concat cs]> (files w)
      /\ requests w' = requests w.
Proof.
  intros Hok. induction cs as [|chunk cs IH]; intros done w cur Hfit Hcur.
  - exists done, w. simpl. rewrite app_nil_r, insert_id by assumption. auto.
  - destruct chunk as [|b chunk]; [simpl; now apply IH|].
    set (done' := done + Z.of_nat (length (b :: chunk))).
    set (w1 := set_files (<[path := cur ++ b :: chunk]> (files w)) w).
    set (w2 := if 0 <? total then add_line (Progress done' total) w1 else w1).
    assert (Hlen : Z.of_nat (length (concat ((b :: chunk) :: cs)))
                   = Z.of_nat (length (b :: chunk))
                     + Z.of_nat (length (concat cs))).
    { change (concat ((b :: chunk) :: cs)) with ((b :: chunk) ++ concat cs).
      rewrite length_app. lia. }
    assert (Hnow : (0 <? total) = true -> progress_overflows done' total = false).
    { intros Hpos. apply Z.ltb_lt in Hpos.
      destruct Hfit as [Hle | [Hnil | Hfit]]; [lia | discriminate Hnil|].
      eapply progress_overflows_mono; [|exact Hfit]. unfold done'. lia. }
    assert (Hstep : write_chunks env path total done ((b :: chunk) :: cs) w
                    = write_chunks env path total done' cs w2).
    { change (write_chunks env path total done ((b :: chunk) :: cs))
        with (bind (write env path (b :: chunk))
                (fun _ => bind (if 0 <? total
                                then if progress_overflows done' total
                                     then raise OverflowError
                                     else print (Progress done' total)
                                else ret tt)
                            (fun _ => write_chunks env path total done' cs))).
      unfold bind, write. rewrite Hcur. cbn [default]. rewrite Hok.
      unfold w2, w1. destruct (0 <? total); [|reflexivity].
      rewrite (Hnow eq_refl). reflexivity. }
    assert (Hf2 : files w2 = <[path := cur ++ b :: chunk]> (files w))
      by (unfold w2; destruct (0 <? total); reflexivity).
    assert (Hr2 : requests w2 = requests w)
      by (unfold w2; destruct (0 <? total); reflexivity).
    destruct (IH done' w2 (cur ++ b :: chunk)) as (n & w' & Hrun & Hf & Hr).
    { destruct Hfit as [Hle | [Hnil | Hfit]]; [now left | discriminate Hnil|].
      right. right. unfold done'. rewrite <- Z.add_assoc, <- Hlen. exact Hfit. }
    { rewrite Hf2. apply lookup_insert_eq. }
    exists n, w'. rewrite Hstep. split; [exact Hrun|]. split; [|congruence].
    rewrite Hf, Hf2, insert_insert_eq. f_equal.
    simpl. rewrite <- app_assoc. reflexivity.
Qed.

Lemma body_size_0 (r : Response) : body_size r = 0 -> concat (chunks r) = [].
Proof.
  unfold body_size. destruct (concat (chunks r)); [reflexivity|].
  simpl. lia.
Qed.

(** A stream that ends normally, on a writable disk. *)
Lemma stream_to_file_ok (path : string) (total : Z) (r : Response) (w : World) :
  writable env path -> truncated r = false ->
  total <= 0 \/ body_size r = 0 \/ progress_overflows (body_size r) total = false ->
  exists w',
    stream_to_file env path total r w = (Ret tt, w')
    /\ files w' = <[path := concat (chunks r)]> (files w)
    /\ requests w' = requests w.
Proof.
  intros [Hopen Hwrite] Htr Hfit. unfold stream_to_file.
  unfold bind at 1. unfold open_wb. rewrite Hopen.
  destruct (write_chunks_ok path total (chunks r) Hwrite 0
              (set_files (<[path := []]> (files w)) w) [])
    as (n & w' & Hrun & Hf & Hr);
    [destruct Hfit as [H | [H | H]];
       [now left | right; left; now apply body_size_0 | right; right; exact H]
    | apply lookup_insert_eq|].
  unfold bind. rewrite Hrun, Htr. exists w'. split; [reflexivity|].
  split; [|exact Hr]. rewrite Hf. simpl. apply insert_insert_eq.
Qed.

(** A stream that breaks after its chunks, on a writable disk: the
    request error escapes and the partial file is on disk. *)
Lemma stream_to_file_broken (path : string) (total : Z) (r : Response) (w : World) :
  writable env path -> truncated r = true ->
  total <= 0 \/ body_size r = 0 \/ progress_overflows (body_size r) total = false ->
  exists w',
    stream_to_file env path total r w = (Raise RequestException, w')
    /\ files w' = <[path := concat (chunks r)]> (files w)
    /\ requests w' = requests w.
Proof.
  intros [Hopen Hwrite] Htr Hfit. unfold stream_to_file.
  unfold bind at 1. unfold open_wb. rewrite Hopen.
  destruct (write_chunks_ok path total (chunks r) Hwrite 0
              (set_files (<[path := []]> (files w)) w) [])
    as (n & w' & Hrun & Hf & Hr);
    [destruct Hfit as [H | [H | H]];
       [now left | right; left; now apply body_size_0 | right; right; exact H]
    | apply lookup_insert_eq|].
  unfold bind. rewrite Hrun, Htr. exists w'. split; [reflexivity|].
  split; [|exact Hr]. rewrite Hf. simpl. apply insert_insert_eq.
Qed.

Lemma total_size_of_ok (r : Response) (w : World) :
  content_length r <> Malformed -> total_size_of r w = (Ret (declared_size r), w).
Proof.
  unfold total_size_of, declared_size. destruct (content_length r); intros H;
    [reflexivity | congruence | reflexivity].
Qed.

End Runs.

Section Downloads.

Variable env : Env.

(** The except clause shared by both download functions. *)
Lemma cleanup_run (msg : Msg) (path : string) (w : World) :
  (print msg ;;;
   present <- path_exists path ;;
   (if present then remove path else ret tt) ;;;
   ret false) w
  = (Ret false, set_files (delete path (files w)) (add_line msg w)).
Proof.
  unfold bind, print, path_exists, remove, ret. simpl.
  destruct (files w !! path) as [c|] eqn:Hp.
  - rewrite bool_decide_eq_true_2 by eauto. reflexivity.
  - rewrite bool_decide_eq_false_2 by (intros [? ?]; congruence).
    rewrite delete_id by assumption. reflexivity.
Qed.

Lemma transfer_completes (path : string) (msg : Msg) (rq : Request)
    (r : Response) (w : World) :
  serves env (requests w) rq r -> fits r -> writable env path ->
  truncated r = false ->
  exists w',
    transfer env path msg rq w = (Ret true, w')
    /\ files w' = <[path := concat (chunks r)]> (files w)
    /\ requests w' = requests w ++ [rq].
Proof.
  intros (Hresp & Hst & Hlen) Hfit Hw Htr. unfold transfer.
  erewrite bind_Ret by (unfold http_get; rewrite Hresp; reflexivity).
  erewrite bind_Ret by (unfold raise_for_status; rewrite Hst; reflexivity).
  erewrite bind_Ret by (now apply total_size_of_ok).
  destruct (stream_to_file_ok env path (declared_size r) r (add_request rq w)
              Hw Htr Hfit) as (w' & Hrun & Hf & Hr).
  erewrite bind_Ret by exact Hrun.
  eexists. split; [reflexivity|]. simpl. split; [exact Hf | exact Hr].
Qed.

Lemma transfer_breaks (path : string) (msg : Msg) (rq : Request)
    (r : Response) (w : World) :
  serves env (requests w) rq r -> fits r -> writable env path ->
  truncated r = true ->
  exists w',
    transfer env path msg rq w = (Raise RequestException, w')
    /\ requests w' = requests w ++ [rq].
Proof.
  intros (Hresp & Hst & Hlen) Hfit Hw Htr. unfold transfer.
  erewrite bind_Ret by (unfold http_get; rewrite Hresp; reflexivity).
  erewrite bind_Ret by (unfold raise_for_status; rewrite Hst; reflexivity).
  erewrite bind_Ret by (now apply total_size_of_ok).
  destruct (stream_to_file_broken env path (declared_size r) r
              (add_request rq w) Hw Htr Hfit) as (w' & Hrun & Hf & Hr).
  erewrite bind_Raise by exact Hrun.
  eexists. split; [reflexivity|]. exact Hr.
Qed.


(** The try block returns nothing but [True]. *)
Lemma transfer_returns_true (path : string) (msg : Msg) (rq : Request)
    (w : World) (b : bool) :
  fst (transfer env path msg rq w) = Ret b -> b = true.
Proof.
  unfold transfer, bind.
  destruct (http_get env rq w) as [[r|e] w1]; [|discriminate].
  destruct (raise_for_status r w1) as [[[]|e] w2]; [|discriminate].
  destruct (total_size_of r w2) as [[n|e] w3]; [|discriminate].
  destruct (stream_to_file env path n r w3) as [[[]|e] w4]; [|discriminate].
  simpl. now intros [= <-].
Qed.

Lemma caselaw_download_file_unfold (url path : string) :
  CaseLaw.download_file env url path =
  except_RequestException
    (transfer env path (Text "") (file_request url))
    (print (ErrorDownloading "") ;;;
     present <- path_exists path ;;
     (if present then remove path else ret tt) ;;;
     ret false).
Proof. reflexivity. Qed.

Lemma courtlistener_download_file_unfold (filename base out : string) :
  CourtListener.download_file env filename base out =
  let filepath := Str.path_join out (Str.basename filename) in
  present <- path_exists filepath ;;
  if present then
    print (SkippingFile (Str.basename filename)) ;;; ret true
  else
    print (DownloadingFile (Str.basename filename)) ;;;
    except_RequestException
      (transfer env filepath (Completed (Str.basename filename))
                (file_request (base +:+ filename)))
      (print (ErrorDownloading (Str.basename filename)) ;;;
       present <- path_exists filepath ;;
       (if present then remove filepath else ret tt) ;;;
       ret false).
Proof. reflexivity. Qed.

(** A guarded transfer that returns [False] went through the except
    clause, which deleted the destination and printed the error line. *)
Lemma guarded_transfer_false (path : string) (msg err : Msg) (rq : Request)
    (w : World) :
  let run := except_RequestException
               (transfer env path msg rq)
               (print err ;;;
                present <- path_exists path ;;
                (if present then remove path else ret tt) ;;;
                ret false) w in
  fst run = Ret false ->
  files (snd run) !! path = None
  /\ exists before, console (snd run) = before ++ [err].
Proof.
  unfold except_RequestException.
  pose proof (transfer_returns_true path msg rq w) as Htrue.
  destruct (transfer env path msg rq w) as [[b|e] w1]; simpl in *.
  - intros [= ->]. specialize (Htrue false eq_refl). discriminate.
  - destruct e; try discriminate.
    rewrite cleanup_run. simpl. intros _. split.
    + apply lookup_delete_eq.
    + now exists (console w1).
Qed.


End Downloads.

Section GuardedDownloads.

Variable env : Env.

Lemma path_exists_present (path : string) (w : World) :
  is_Some (files w !! path) -> path_exists path w = (Ret true, w).
Proof. intros H. unfold path_exists. now rewrite bool_decide_eq_true_2. Qed.

Lemma path_exists_absent (path : string) (w : World) :
  files w !! path = None -> path_exists path w = (Ret false, w).
Proof.
  intros H. unfold path_exists.
  rewrite bool_decide_eq_false_2; [reflexivity|]. intros [? ?]. congruence.
Qed.

Lemma courtlistener_download_file_present (filename base out : string) (w : World) :
  is_Some (files w !! Str.path_join out (Str.basename filename)) ->
  CourtListener.download_file env filename base out w
  = (Ret true, add_line (SkippingFile (Str.basename filename)) w).
Proof.
  intros H. rewrite courtlistener_download_file_unfold. cbv zeta.
  erewrite bind_Ret by (now apply path_exists_present). reflexivity.
Qed.

Lemma courtlistener_download_file_absent (filename base out : string) (w : World) :
  files w !! Str.path_join out (Str.basename filename) = None ->
  CourtListener.download_file env filename base out w
  = except_RequestException
      (transfer env (Str.path_join out (Str.basename filename))
                (Completed (Str.basename filename))
                (file_request (base +:+ filename)))
      (print (ErrorDownloading (Str.basename filename)) ;;;
       present <- path_exists (Str.path_join out (Str.basename filename)) ;;
       (if present then remove (Str.path_join out (Str.basename filename))
        else ret tt) ;;;
       ret false)
      (add_line (DownloadingFile (Str.basename filename)) w).
Proof.
  intros H. rewrite courtlistener_download_file_unfold. cbv zeta.
  erewrite bind_Ret by (now apply path_exists_absent). reflexivity.
Qed.

(** A guarded transfer whose try block ends in a request error. *)
Lemma guarded_transfer_caught (path : string) (msg err : Msg) (rq : Request)
    (w w1 : World) :
  transfer env path msg rq w = (Raise RequestException, w1) ->
  except_RequestException
    (transfer env path msg rq)
    (print err ;;;
     present <- path_exists path ;;
     (if present then remove path else ret tt) ;;;
     ret false) w
  = (Ret false, set_files (delete path (files w1)) (add_line err w1)).
Proof.
  intros H. unfold except_RequestException. rewrite H. apply cleanup_run.
Qed.

Lemma guarded_transfer_done (path : string) (msg err : Msg) (rq : Request)
    (w w1 : World) (b : bool) :
  transfer env path msg rq w = (Ret b, w1) ->
  except_RequestException
    (transfer env path msg rq)
    (print err ;;;
     present <- path_exists path ;;
     (if present then remove path else ret tt) ;;;
     ret false) w
  = (Ret b, w1).
Proof. intros H. unfold except_RequestException. now rewrite H. Qed.

End GuardedDownloads.

(** ** Files that are there stay as they are *)

Ltac keeps_pure :=
  apply (effects_keeps any_request (fun _ => True)); fx.

Section Keeps.

Variable env : Env.

Lemma keeps_get_page_links (url : string) : keeps (CaseLaw.get_page_links env url).
Proof. eapply effects_keeps. apply effects_get_page_links. Qed.

Lemma keeps_get_tar_files (url : string) : keeps (CaseLaw.get_tar_files env url).
Proof.
  unfold CaseLaw.get_tar_files.
  apply keeps_bind; [apply keeps_get_page_links | intros links; keeps_pure].
Qed.

Lemma keeps_get_reporter_directories (self : CaseLaw.CaseLawCrawler) :
  keeps (CaseLaw.get_reporter_directories env self).
Proof.
  unfold CaseLaw.get_reporter_directories.
  apply keeps_bind; [keeps_pure | intros _].
  apply keeps_bind; [apply keeps_get_page_links | intros links; keeps_pure].
Qed.

Lemma keeps_download_tars (dir : string) (total : nat) (tars : list string) :
  forall (self : CaseLaw.CaseLawCrawler) (idx : nat),
    keeps (CaseLaw.download_tars env self dir total idx tars).
Proof.
  induction tars as [|url rest IH]; intros self idx; simpl; [keeps_pure|].
  apply keeps_guard.
  - apply keeps_bind; [keeps_pure | intros _; apply IH].
  - apply (keeps_if_absent_after any_request (fun _ => True)); [apply effects_print | intros _].
    eapply keeps_if_absent_touch; [apply effects_caselaw_download_file|].
    intros ok. apply keeps_bind.
    + destruct ok; keeps_pure.
    + intros self'. apply keeps_bind; [keeps_pure | intros _; apply IH].
Qed.

Lemma keeps_process_reporters (total : nat) (reporters : list (string * string)) :
  forall (self : CaseLaw.CaseLawCrawler) (idx : nat),
    keeps (CaseLaw.process_reporters env self total idx reporters).
Proof.
  induction reporters as [|[name url] rest IH]; intros self idx; simpl;
    [keeps_pure|].
  apply keeps_bind; [keeps_pure | intros _].
  apply keeps_bind; [keeps_pure | intros _].
  apply keeps_bind; [apply keeps_get_tar_files | intros tars].
  destruct tars as [|tar tars].
  - apply keeps_bind; [keeps_pure | intros _; apply IH].
  - apply keeps_bind; [keeps_pure | intros _].
    apply keeps_bind; [apply keeps_download_tars | intros self'].
    apply keeps_bind; [keeps_pure | intros _; apply IH].
Qed.

Lemma keeps_crawl_and_download (self : CaseLaw.CaseLawCrawler) (limit : option Z) :
  keeps (CaseLaw.crawl_and_download env self limit).
Proof.
  unfold CaseLaw.crawl_and_download.
  do 4 (apply keeps_bind; [keeps_pure | intros _]).
  apply keeps_bind; [apply keeps_get_reporter_directories | intros reporters].
  destruct reporters as [|r reporters]; [keeps_pure|].
  apply keeps_bind; [keeps_pure | intros _].
  apply keeps_bind.
  - destruct limit as [n|]; [|keeps_pure]. destruct (n =? 0); keeps_pure.
  - intros reporters'. apply keeps_bind; [keeps_pure | intros _].
    apply keeps_bind; [apply keeps_process_reporters | intros self'].
    keeps_pure.
Qed.

Lemma keeps_courtlistener_download_file (filename base out : string) :
  keeps (CourtListener.download_file env filename base out).
Proof.
  rewrite courtlistener_download_file_unfold. cbv zeta.
  apply keeps_guard; [keeps_pure|].
  apply (keeps_if_absent_after any_request (fun _ => True)); [apply effects_print | intros _].
  intros w Hp p c Hc.
  assert (Hfx : effects (eq (Str.path_join out (Str.basename filename)))
                  (eq (file_request (base +:+ filename))) local_exn
                  (except_RequestException
                     (transfer env (Str.path_join out (Str.basename filename))
                        (Completed (Str.basename filename))
                        (file_request (base +:+ filename)))
                     (print (ErrorDownloading (Str.basename filename)) ;;;
                      present <- path_exists
                                   (Str.path_join out (Str.basename filename)) ;;
                      (if present
                       then remove (Str.path_join out (Str.basename filename))
                       else ret tt) ;;;
                      ret false))).
  { unfold transfer, local_exn. fx. }
  destruct (Hfx w) as (Hf & _). rewrite Hf; [exact Hc | congruence].
Qed.

Lemma keeps_download_all (total : nat) (keys : list string) :
  forall (i successful failed : nat),
    keeps (CourtListener.download_all env total i successful failed keys).
Proof.
  induction keys as [|k rest IH]; intros i s f; simpl; [keeps_pure|].
  apply keeps_bind; [keeps_pure | intros _].
  apply keeps_bind; [apply keeps_courtlistener_download_file | intros ok].
  destruct ok; apply IH.
Qed.

Lemma keeps_print_listing (names : list string) :
  forall i, keeps (CourtListener.print_listing i names).
Proof.
  induction names as [|n rest IH]; intros i; simpl; [keeps_pure|].
  apply keeps_bind; [keeps_pure | intros _; apply IH].
Qed.

Lemma keeps_after_discovery (found : option (list string)) :
  keeps (CourtListener.after_discovery env found).
Proof.
  unfold CourtListener.after_discovery.
  destruct found as [[|k keys]|]; [keeps_pure| |keeps_pure].
  do 2 (apply keeps_bind; [keeps_pure | intros _]).
  apply keeps_bind; [apply keeps_print_listing | intros _].
  apply keeps_bind; [destruct (_ <? _)%nat; keeps_pure | intros _].
  apply keeps_bind; [keeps_pure | intros response].
  destruct (negb (CourtListener.says_yes response)); [keeps_pure|].
  apply keeps_bind; [apply keeps_download_all | intros [s f]].
  keeps_pure.
Qed.

Lemma keeps_main : keeps (CourtListener.main env).
Proof.
  unfold CourtListener.main.
  do 2 (apply keeps_bind; [keeps_pure | intros _]).
  apply keeps_bind; [eapply effects_keeps; apply effects_discover | intros found].
  apply keeps_after_discovery.
Qed.

End Keeps.

(** ** Object-store listing *)

Lemma get_s3_bucket_listing_run (env : Env) (url : string) (w : World) (r : Response) :
  respond env (requests w) (mkRequest url [("prefix", "bulk-data/")] false 30)
    = Responded r ->
  is_error_status r = false ->
  CourtListener.get_s3_bucket_listing env url w
  = (Ret (Some (CourtListener.bz2_only (Re.findall_Key (text r)))),
     add_request (mkRequest url [("prefix", "bulk-data/")] false 30)
                 (add_line (FetchingBucket url) w)).
Proof.
  intros Hresp Hst.
  unfold CourtListener.get_s3_bucket_listing, except_RequestException, bind,
    print, http_get, raise_for_status.
  simpl. rewrite Hresp, Hst. reflexivity.
Qed.

(** C4: when the listing request succeeds, [get_s3_bucket_listing] returns
    exactly the keys of the occurrences of the tag pattern in the response
    body that end in [.bz2]: [occs] enumerates every occurrence once, by
    increasing offset, and the result is its keys filtered by the
    extension, in that order. *)
Theorem C4_bucket_keys_in_document_order (env : Env) (url : string) (w : World)
    (r : Response) :
  respond env (requests w) (mkRequest url [("prefix", "bulk-data/")] false 30)
    = Responded r ->
  is_error_status r = false ->
  exists occs : list (nat * string),
    (forall i k, In (i, k) occs <-> occurs_at (text r) i k)
    /\ StronglySorted lt (map fst occs)
    /\ fst (CourtListener.get_s3_bucket_listing env url w)
       = Ret (Some (List.filter (fun k => Str.endswith k ".bz2") (map snd occs)))
    /\ forall k, In k (List.filter (fun k => Str.endswith k ".bz2") (map snd occs))
                 <-> In k (map snd occs) /\ exists stem, k = stem +:+ ".bz2".
Proof.
  intros Hresp Hst. exists (Re.finditer_Key (text r)).
  destruct (finditer_Key_spec (text r)) as [Hin Hsort].
  split; [exact Hin|]. split; [exact Hsort|]. split.
  - rewrite (get_s3_bucket_listing_run env url w r Hresp Hst). reflexivity.
  - intros k. rewrite filter_In, endswith_spec. reflexivity.
Qed.

Lemma C4_witness :
  exists occs : list (nat * string),
    map snd occs = ["bulk-data/a.bz2"; "x.txt"; "bulk-data/b.bz2"]
    /\ fst (CourtListener.get_s3_bucket_listing bucket_env
              (CourtListener.s3_base_url +:+ "?prefix=bulk-data/") empty_world)
       = Ret (Some ["bulk-data/a.bz2"; "bulk-data/b.bz2"]).
Proof.
  destruct (C4_bucket_keys_in_document_order bucket_env
              (CourtListener.s3_base_url +:+ "?prefix=bulk-data/") empty_world
              (ok_response
                 "<Key>bulk-data/a.bz2</Key><Key>x.txt</Key><Key>bulk-data/b.bz2</Key>"
                 [] false) eq_refl eq_refl)
    as (occs & Hin & Hsort & Hrun & Hk).
  exists (Re.finditer_Key
            "<Key>bulk-data/a.bz2</Key><Key>x.txt</Key><Key>bulk-data/b.bz2</Key>").
  split; reflexivity.
Defined.

(** ** Tree-host listings *)

(** [get_page_links] returns, or raises the [ValueError] of [urljoin]. *)
Lemma get_page_links_outcome (env : Env) (url : string) (w : World) :
  (exists links, fst (CaseLaw.get_page_links env url w) = Ret links)
  \/ fst (CaseLaw.get_page_links env url w) = Raise ValueError.
Proof.
  rewrite get_page_links_run.
  destruct (respond env (requests w) (page_request url)) as [|r];
    [left; now eexists|].
  destruct (is_error_status r); [left; now eexists|].
  destruct (CaseLaw.resolve_anchors env url _); [left; now eexists | now right].
Qed.

(** C5: when the root page is served and [urljoin] resolves the hrefs of
    its anchors to [links], in document order, [get_reporter_directories]
    issues that one request and returns, in the order of [links], exactly
    the directory-marker links other than the root whose final non-empty
    path segment does not end in [.json], each paired with that segment;
    every other link, and so every link that is not a directory marker, is
    left out. *)
Theorem C5_reporters_are_the_directory_links (env : Env)
    (self : CaseLaw.CaseLawCrawler) (w : World) (r : Response)
    (links : list string) :
  let root := CaseLaw.base_url self in
  respond env (requests w) (page_request root) = Responded r ->
  is_error_status r = false ->
  Forall2 (fun href link => urljoin env root href = Some link)
          (hrefs_of (find_all_a env (text r))) links ->
  exists reporters,
    CaseLaw.get_reporter_directories env self w
    = (Ret reporters,
       add_request (page_request root)
         (add_line (Text "Discovering reporter directories...") w))
    /\ listReporters_rel root links reporters
    /\ (forall name link,
          In (name, link) reporters <->
          In link links /\ is_reporter root link name).
Proof.
  intros root Hresp Hst Hlinks.
  apply resolve_anchors_some in Hlinks.
  exists (omap (CaseLaw.reporter_of root) links).
  split; [|split].
  - unfold CaseLaw.get_reporter_directories. rewrite bind_print.
    erewrite bind_Ret; [reflexivity|].
    rewrite get_page_links_run. cbn [requests add_line]. fold root.
    rewrite Hresp, Hst, Hlinks. reflexivity.
  - apply reporters_follow_spec.
  - intros name link. rewrite <- list_elem_of_In, list_elem_of_omap. split.
    + intros (l & Hin & Hrep). apply reporter_of_spec in Hrep as [-> Hrep].
      split; [now apply list_elem_of_In | exact Hrep].
    + intros [Hin Hrep]. exists link. split; [now apply list_elem_of_In|].
      now apply reporter_of_spec.
Qed.

Lemma C5_witness :
  exists reporters,
    CaseLaw.get_reporter_directories demo_env (CaseLaw.init "http://h/" "out")
      empty_world
    = (Ret reporters,
       add_request (page_request "http://h/")
         (add_line (Text "Discovering reporter directories...") empty_world))
    /\ (forall name link,
          In (name, link) reporters <->
          In link ["http://h/r/"; "http://h/meta.json"; "http://h/"]
          /\ is_reporter "http://h/" link name).
Proof.
  destruct (C5_reporters_are_the_directory_links demo_env
              (CaseLaw.init "http://h/" "out") empty_world
              (ok_response "root" [] false)
              ["http://h/r/"; "http://h/meta.json"; "http://h/"])
    as (reporters & Hrun & _ & Hin).
  - reflexivity.
  - reflexivity.
  - repeat constructor.
  - exists reporters. split; [exact Hrun | exact Hin].
Defined.

Example reporters_of_demo_root :
  fst (CaseLaw.get_reporter_directories demo_env
         (CaseLaw.init "http://h/" "out") empty_world)
  = Ret [("r", "http://h/r/")].
Proof. reflexivity. Qed.




(** ** Failed transfers *)




(** ** What escapes the processing of one item *)




(** ** Existing destinations *)

(** C1, as stated, does not hold for the tree-host [download_file]: it has
    no existence check of its own, so called on an existing destination it
    issues the request and replaces the file. *)
Lemma C1_counterexample :
  let w := world_with "out/r/a.tar" [x09] in
  let run := CaseLaw.download_file demo_env "http://h/r/a.tar" "out/r/a.tar" w in
  requests (snd run) = [file_request "http://h/r/a.tar"]
  /\ files (snd run) !! "out/r/a.tar" = Some [x01; x02; x03]
  /\ ~ (fst run = Ret true
        /\ requests (snd run) = requests w
        /\ files (snd run) !! "out/r/a.tar" = Some [x09]).
Proof.
  split; [|split]; [vm_compute; reflexivity | vm_compute; reflexivity |].
  intros (_ & H & _). vm_compute in H. discriminate H.
Qed.

(** C1, amended: the object-store [download_file] returns [True] for an
    existing destination, with no request and no change on disk; in the
    tree-host script the same check is made by the loop of
    [crawl_and_download], which counts the item as skipped and never calls
    [download_file] for it; and so neither [crawl_and_download] nor the
    object-store [main] ever modifies or deletes a file that exists when it
    starts. *)
Theorem C1_existing_destinations_are_kept (env : Env) (w : World) (p : string)
    (c : list byte) (Hp : files w !! p = Some c) :
  (forall filename base out,
      Str.path_join out (Str.basename filename) = p ->
      CourtListener.download_file env filename base out w
      = (Ret true, add_line (SkippingFile (Str.basename filename)) w))
  /\ (forall self dir total idx url,
        Str.path_join dir (Str.last_item (Str.split "/" url)) = p ->
        CaseLaw.download_tars env self dir total idx [url] w
        = (Ret (CaseLaw.add_skipped self),
           add_line (Skipping idx total (Str.last_item (Str.split "/" url))) w))
  /\ (forall self limit,
        files (snd (CaseLaw.crawl_and_download env self limit w)) !! p = Some c)
  /\ files (snd (CourtListener.main env w)) !! p = Some c.
Proof.
  repeat split.
  - intros filename base out E. apply courtlistener_download_file_present.
    rewrite E. eauto.
  - intros self dir total idx url E. simpl. unfold bind.
    rewrite path_exists_present by (rewrite E; eauto). reflexivity.
  - intros self limit. now apply keeps_crawl_and_download.
  - now apply keeps_main.
Qed.

Lemma C1_witness :
  CourtListener.download_file bucket_env "bulk-data/a.bz2"
    CourtListener.s3_base_url CourtListener.output_dir
    (world_with "courtlistener_downloads/a.bz2" [x09])
  = (Ret true, add_line (SkippingFile "a.bz2")
                        (world_with "courtlistener_downloads/a.bz2" [x09]))
  /\ files (snd (CourtListener.main bucket_env
                   (world_with "courtlistener_downloads/a.bz2" [x09])))
       !! "courtlistener_downloads/a.bz2" = Some [x09].
Proof.
  destruct (C1_existing_destinations_are_kept bucket_env
              (world_with "courtlistener_downloads/a.bz2" [x09])
              "courtlistener_downloads/a.bz2" [x09] eq_refl)
    as (Hstore & _ & _ & Hmain).
  split; [|exact Hmain].
  exact (Hstore "bulk-data/a.bz2" CourtListener.s3_base_url
                CourtListener.output_dir eq_refl).
Defined.

(** ** The tallies of the object-store script *)

Lemma download_all_skips (env : Env) (total : nat) (keys : list string) :
  forall (i successful failed : nat) (w : World),
    (forall k, In k keys -> is_Some (files w !! destination k)) ->
    exists w',
      CourtListener.download_all env total i successful failed keys w
      = (Ret ((successful + length keys)%nat, failed), w')
      /\ requests w' = requests w
      /\ files w' = files w.
Proof.
  induction keys as [|k rest IH]; intros i s f w Hall; simpl.
  - exists w. rewrite Nat.add_0_r. auto.
  - unfold bind at 1. unfold print.
    erewrite bind_Ret; cycle 1.
    { apply courtlistener_download_file_present. apply Hall. now left. }
    destruct (IH (S i) (S s) f
                (add_line (SkippingFile (Str.basename k)) (add_line (Item i total) w)))
      as (w' & Hrun & Hr & Hf).
    { intros k' Hk'. simpl. apply Hall. now right. }
    exists w'. rewrite Hrun. replace (S s + length rest)%nat
      with (s + S (length rest))%nat by lia.
    auto.
Qed.

(** One round of the download loop of the object-store script. *)
Lemma download_all_round (env : Env) (total i s f : nat) (k : string) (rest : list string)
    (w : World) :
  CourtListener.download_all env total i s f (k :: rest) w
  = match CourtListener.download_file env k CourtListener.s3_base_url
            CourtListener.output_dir (add_line (Item i total) w) with
    | (Ret true, w1) => CourtListener.download_all env total (S i) (S s) f rest w1
    | (Ret false, w1) => CourtListener.download_all env total (S i) s (S f) rest w1
    | (Raise e, w1) => (Raise e, w1)
    end.
Proof.
  cbn [CourtListener.download_all]. rewrite bind_print. unfold bind.
  destruct (CourtListener.download_file env k _ _ _) as [[[|]|e] w1]; reflexivity.
Qed.



(** A run that skips its only key and a run that fetches it end with the
    same tallies and print the same summary. *)
Example a_skipped_file_and_a_fetched_file_look_alike :
  let skipped := CourtListener.main storage_env
                   (mkWorld {["courtlistener_downloads/c.bz2" := [x09]]} ∅ [] [] ["y"] 0) in
  let fetched := CourtListener.main storage_env (world_answering "y") in
  fst skipped = Ret (1%nat, 0%nat)
  /\ fst fetched = Ret (1%nat, 0%nat)
  /\ In (SkippingFile "c.bz2") (console (snd skipped))
  /\ In (Completed "c.bz2") (console (snd fetched))
  /\ List.filter (fun m => match m with Tally _ _ => true | _ => false end)
        (console (snd skipped))
     = List.filter (fun m => match m with Tally _ _ => true | _ => false end)
         (console (snd fetched)).
Proof. vm_compute. repeat split; auto 20. Qed.

(** ** Where the object-store script downloads from *)

Section DownloadPhase.

Variable env : Env.

Lemma effects_download_all (total : nat) (keys : list string) :
  forall (all : list string) (i successful failed : nat),
    (forall k, In k keys -> In k all) ->
    effects any_path (fetches_from_s3 all) any_exn
            (CourtListener.download_all env total i successful failed keys).
Proof.
  induction keys as [|k rest IH]; intros all i s f Hsub; simpl; [fx|].
  apply effects_bind; [fx|]. intros _.
  apply effects_bind.
  - eapply effects_weaken; [| | |apply effects_courtlistener_download_file].
    + intros; exact I.
    + intros rq <-. exists k. split; [apply Hsub; now left | reflexivity].
    + intros; exact I.
  - intros ok. destruct ok; apply IH; intros k' Hk'; apply Hsub; now right.
Qed.

Lemma effects_print_listing (Q : string -> Prop) (R : Request -> Prop)
    (E : exn -> Prop) (names : list string) :
  forall i, effects Q R E (CourtListener.print_listing i names).
Proof.
  induction names as [|n rest IH]; intros i; simpl; [fx|].
  apply effects_bind; [fx | intros _; apply IH].
Qed.

Lemma effects_after_discovery (found : option (list string)) :
  effects any_path (fetches_from_s3 (default [] found)) any_exn
          (CourtListener.after_discovery env found).
Proof.
  unfold CourtListener.after_discovery, any_exn.
  destruct found as [[|k keys]|]; [fx| |fx].
  do 2 (apply effects_bind; [fx | intros _]).
  apply effects_bind; [apply effects_print_listing | intros _].
  apply effects_bind; [destruct (_ <? _)%nat; fx | intros _].
  apply effects_bind; [fx | intros response].
  destruct (negb (CourtListener.says_yes response)); [fx|].
  apply effects_bind; [now apply effects_download_all | intros [s f]].
  fx.
Qed.

Lemma fetched_keys (all : list string) (new : list Request) :
  Forall (fetches_from_s3 all) new ->
  exists fetched, new = map s3_request fetched /\ forall k, In k fetched -> In k all.
Proof.
  induction 1 as [|rq new (k & Hk & ->) _ (fetched & -> & Hin)].
  - now exists [].
  - exists (k :: fetched). split; [reflexivity|].
    intros k' [<- | Hk']; auto.
Qed.

(** A computation that issues no request leaves the log as it is. *)
Lemma no_request_same {A} (Q : string -> Prop) (E : exn -> Prop) (m : M A)
    (w : World) :
  effects Q no_request E m -> requests (snd (m w)) = requests w.
Proof.
  intros Hm. destruct (Hm w) as (_ & (new & Hn & Hall) & _).
  destruct new as [|rq new]; [now rewrite app_nil_r in Hn|].
  inversion Hall as [|? ? Hrq _]. destruct Hrq.
Qed.

(** Whatever happens to it, a transfer issues exactly its one request. *)
Lemma guarded_transfer_requests (path : string) (msg err : Msg) (rq : Request)
    (w : World) :
  requests (snd (except_RequestException
                   (transfer env path msg rq)
                   (print err ;;;
                    present <- path_exists path ;;
                    (if present then remove path else ret tt) ;;;
                    ret false) w))
  = requests w ++ [rq].
Proof.
  set (handler := (print err ;;;
                   present <- path_exists path ;;
                   (if present then remove path else ret tt) ;;;
                   ret false)).
  set (rest := fun response : Response =>
                 (raise_for_status response ;;;
                  total_size <- total_size_of response ;;
                  stream_to_file env path total_size response ;;;
                  print msg ;;;
                  ret true)).
  assert (Hrest : forall r, effects (eq path) no_request local_exn
                              (except_RequestException (rest r) handler)).
  { intros r. unfold rest, handler, local_exn. fx. }
  change (transfer env path msg rq) with (bind (http_get env rq) rest).
  unfold except_RequestException at 1. unfold bind at 1. unfold http_get.
  destruct (respond env (requests w) rq) as [|r].
  - unfold handler. rewrite cleanup_run. reflexivity.
  - change (requests (snd (except_RequestException (rest r) handler
                             (add_request rq w))) = requests w ++ [rq]).
    now rewrite (no_request_same _ _ _ _ (Hrest r)).
Qed.

End DownloadPhase.

Section Answers.

Variable env : Env.

Lemma stdin_bind {A B} (m : M A) (k : A -> M B) :
  (forall w, stdin (snd (m w)) = stdin w) ->
  (forall a w, stdin (snd (k a w)) = stdin w) ->
  forall w, stdin (snd (bind m k w)) = stdin w.
Proof.
  intros Hm Hk w. unfold bind. specialize (Hm w).
  destruct (m w) as [[a|e] w1]; simpl in *; [now rewrite Hk | exact Hm].
Qed.

Lemma stdin_except_RequestException {A} (body handler : M A) :
  (forall w, stdin (snd (body w)) = stdin w) ->
  (forall w, stdin (snd (handler w)) = stdin w) ->
  forall w, stdin (snd (except_RequestException body handler w)) = stdin w.
Proof.
  intros Hb Hh w. unfold except_RequestException. specialize (Hb w).
  destruct (body w) as [[a|[]] w1]; simpl in *; try exact Hb.
  now rewrite Hh.
Qed.

Lemma stdin_except_all {A} (body handler : M A) :
  (forall w, stdin (snd (body w)) = stdin w) ->
  (forall w, stdin (snd (handler w)) = stdin w) ->
  forall w, stdin (snd (except_all body handler w)) = stdin w.
Proof.
  intros Hb Hh w. unfold except_all. specialize (Hb w).
  destruct (body w) as [[a|e] w1]; simpl in *; [exact Hb | now rewrite Hh].
Qed.

Lemma stdin_http_get (rq : Request) (w : World) :
  stdin (snd (http_get env rq w)) = stdin w.
Proof. unfold http_get. now destruct (respond env (requests w) rq). Qed.

Lemma stdin_raise_for_status (r : Response) (w : World) :
  stdin (snd (raise_for_status r w)) = stdin w.
Proof. unfold raise_for_status. now destruct (is_error_status r). Qed.

Lemma stdin_get_s3_bucket_listing (url : string) (w : World) :
  stdin (snd (CourtListener.get_s3_bucket_listing env url w)) = stdin w.
Proof.
  revert w. unfold CourtListener.get_s3_bucket_listing.
  apply stdin_bind; [reflexivity | intros _].
  apply stdin_except_RequestException; [|reflexivity].
  apply stdin_bind; [apply stdin_http_get | intros r].
  apply stdin_bind; [apply stdin_raise_for_status | reflexivity].
Qed.

Lemma stdin_get_files_from_html_listing (url : string) (w : World) :
  stdin (snd (CourtListener.get_files_from_html_listing env url w)) = stdin w.
Proof.
  revert w. unfold CourtListener.get_files_from_html_listing.
  apply stdin_bind; [reflexivity | intros _].
  apply stdin_except_RequestException; [|reflexivity].
  apply stdin_bind; [apply stdin_http_get | intros r].
  apply stdin_bind; [apply stdin_raise_for_status | intros _].
  destruct (ReBucket.search_bucket (text r)); [|reflexivity].
  apply stdin_bind; [reflexivity | intros _ w].
  apply stdin_get_s3_bucket_listing.
Qed.

Lemma stdin_try_endpoints (endpoints : list string) (w : World) :
  stdin (snd (CourtListener.try_endpoints env endpoints w)) = stdin w.
Proof.
  revert w. induction endpoints as [|e rest IH]; [reflexivity|].
  cbn [CourtListener.try_endpoints].
  apply stdin_bind.
  - unfold CourtListener.try_endpoint.
    apply stdin_except_all; [|reflexivity].
    apply stdin_bind; [reflexivity | intros _].
    apply stdin_bind; [apply stdin_http_get | intros r].
    destruct (status_code r =? 200); [|reflexivity].
    cbv zeta. destruct (CourtListener.bz2_only _); reflexivity.
  - intros [found|]; [reflexivity | exact IH].
Qed.

Lemma stdin_discover (w : World) :
  stdin (snd (CourtListener.discover env w)) = stdin w.
Proof.
  revert w. unfold CourtListener.discover.
  apply stdin_bind; [apply stdin_get_files_from_html_listing | intros r1].
  apply stdin_bind.
  - destruct (CourtListener.falsy r1); [|reflexivity].
    unfold CourtListener.get_files_alternative_method.
    apply stdin_bind; [reflexivity | intros _ w]. apply stdin_try_endpoints.
  - intros r2. destruct (CourtListener.falsy r2); [|reflexivity].
    apply stdin_bind; [reflexivity | intros _ w].
    apply stdin_get_s3_bucket_listing.
Qed.

Lemma files_discover (w : World) :
  files (snd (CourtListener.discover env w)) = files w.
Proof.
  destruct (effects_discover env w) as (Hf & _).
  apply map_eq. intros p. apply Hf. intros [].
Qed.

Lemma bind_input_line {A} (k : string -> M A) (w : World) (l : string)
    (rest : list string) :
  stdin w = l :: rest ->
  bind input k w
  = k l (mkWorld (files w) (made_dirs w) (requests w) (console w) rest (naps w)).
Proof. intros H. unfold bind, input. now rewrite H. Qed.

Lemma bind_input_end {A} (k : string -> M A) (w : World) :
  stdin w = [] -> bind input k w = (Raise EOFError, w).
Proof. intros H. unfold bind, input. now rewrite H. Qed.

Lemma print_listing_run (names : list string) :
  forall (i : nat) (w : World),
    exists w', CourtListener.print_listing i names w = (Ret tt, w')
               /\ files w' = files w /\ requests w' = requests w
               /\ stdin w' = stdin w.
Proof.
  induction names as [|n rest IH]; intros i w; [now exists w|].
  cbn [CourtListener.print_listing]. rewrite bind_print.
  destruct (IH (S i) (add_line (Listed i n) w)) as (w' & -> & ? & ? & ?).
  now exists w'.
Qed.

(** Up to the prompt: a non-empty listing is announced and the next line
    of the standard input decides. *)
Lemma after_discovery_prompt (k : string) (keys : list string) (w : World) :
  exists w1,
    files w1 = files w /\ requests w1 = requests w /\ stdin w1 = stdin w
    /\ CourtListener.after_discovery env (Some (k :: keys)) w
       = bind input
           (fun response =>
              if negb (CourtListener.says_yes response)
              then print (Text "Download cancelled.") ;;; raise (SystemExit 0)
              else
                tally <- CourtListener.download_all env (length (k :: keys)) 1 0 0
                           (k :: keys) ;;
                let '(successful, failed) := tally in
                print (Text "Download complete!") ;;;
                print (Tally "Successful" successful) ;;;
                print (Tally "Failed" failed) ;;;
                print (OutputDirectory CourtListener.output_dir) ;;;
                ret (successful, failed))%py w1.
Proof.
  unfold CourtListener.after_discovery.
  rewrite !bind_print.
  destruct (print_listing_run (take 10 (k :: keys)) 1
              (add_line (Text "First 10 files:")
                 (add_line (FoundCount (length (k :: keys)) ".bz2 files") w)))
    as (w1 & Hrun & Hf & Hr & Hs).
  erewrite bind_Ret by exact Hrun. cbv beta.
  destruct (10 <? length (k :: keys))%nat.
  - rewrite bind_print.
    exists (add_line (MoreFiles (length (k :: keys) - 10)) w1).
    repeat split; assumption.
  - exists w1. repeat split; assumption.
Qed.

End Answers.

Section StoreRequests.

Variable env : Env.

(** Keys with distinct destinations, none of them on disk, are all asked
    for, in their order, each at the S3 base URL followed by the key. *)
Lemma download_all_requests (total : nat) (keys : list string) :
  forall (i s f : nat) (w : World) (tally : nat * nat),
    NoDup (map destination keys) ->
    (forall k, In k keys -> files w !! destination k = None) ->
    fst (CourtListener.download_all env total i s f keys w) = Ret tally ->
    requests (snd (CourtListener.download_all env total i s f keys w))
    = requests w ++ map s3_request keys.
Proof.
  induction keys as [|k rest IH]; intros i s f w tally Hnd Habs Hrun.
  - simpl. now rewrite app_nil_r.
  - inversion Hnd as [|? ? Hk Hnd']; subst.
    rewrite download_all_round in *.
    assert (Hrq : requests (snd (CourtListener.download_file env k
                                   CourtListener.s3_base_url
                                   CourtListener.output_dir
                                   (add_line (Item i total) w)))
                  = requests w ++ [s3_request k]).
    { rewrite courtlistener_download_file_absent
        by (apply Habs; now left).
      now rewrite guarded_transfer_requests. }
    destruct (effects_courtlistener_download_file env k CourtListener.s3_base_url
                CourtListener.output_dir (add_line (Item i total) w))
      as (Hfiles & _).
    assert (Hrest : forall k', In k' rest ->
              files (snd (CourtListener.download_file env k
                            CourtListener.s3_base_url CourtListener.output_dir
                            (add_line (Item i total) w))) !! destination k'
              = None).
    { intros k' Hk'. rewrite Hfiles.
      - apply Habs. now right.
      - intros E. apply Hk. change (Str.path_join _ _) with (destination k) in E.
        rewrite E. apply list_elem_of_In. now apply in_map. }
    destruct (CourtListener.download_file env k CourtListener.s3_base_url
                CourtListener.output_dir (add_line (Item i total) w))
      as [[[|]|e] w1]; cbn [fst snd] in *; [| |discriminate Hrun].
    + rewrite (IH _ _ _ _ tally Hnd' Hrest Hrun), Hrq, <- app_assoc.
      reflexivity.
    + rewrite (IH _ _ _ _ tally Hnd' Hrest Hrun), Hrq, <- app_assoc.
      reflexivity.
Qed.

(** After a discovery that found keys and the answer [y] or [Y], [main]
    runs the download loop on exactly the keys found, numbered from one,
    with both tallies at zero. *)
Lemma main_downloads_discovered (w : World) (k : string) (ks : list string)
    (answer : string) (more : list string) :
  let w1 := add_line (OutputDirectory CourtListener.output_dir)
                     (snd (mkdir CourtListener.output_dir w)) in
  fst (CourtListener.discover env w1) = Ret (Some (k :: ks)) ->
  stdin w = answer :: more ->
  CourtListener.says_yes answer = true ->
  exists w3,
    files w3 = files w
    /\ requests w3 = requests (snd (CourtListener.discover env w1))
    /\ fst (CourtListener.main env w)
       = fst (CourtListener.download_all env (length (k :: ks)) 1 0 0 (k :: ks) w3)
    /\ requests (snd (CourtListener.main env w))
       = requests (snd (CourtListener.download_all env (length (k :: ks)) 1 0 0
                          (k :: ks) w3))
    /\ files (snd (CourtListener.main env w))
       = files (snd (CourtListener.download_all env (length (k :: ks)) 1 0 0
                       (k :: ks) w3)).
Proof.
  intros w1 Hdisc Hin Hyes.
  pose proof (stdin_discover env w1) as Hs.
  pose proof (files_discover env w1) as Hf.
  remember (CourtListener.main env w) as run eqn:Hrun.
  change (CourtListener.main env w)
    with (bind (CourtListener.discover env) (CourtListener.after_discovery env) w1)
    in Hrun.
  unfold bind at 1 in Hrun.
  destruct (CourtListener.discover env w1) as [o w2]. cbn [fst snd] in *.
  subst o.
  destruct (after_discovery_prompt env k ks w2) as (w3 & Hf3 & Hr3 & Hs3 & Heq).
  rewrite Heq in Hrun.
  rewrite (bind_input_line _ _ answer more) in Hrun
    by (rewrite Hs3, Hs; exact Hin).
  rewrite Hyes in Hrun. cbn [negb] in Hrun.
  set (w4 := mkWorld (files w3) (made_dirs w3) (requests w3) (console w3) more
               (naps w3)) in *.
  exists w4. split; [simpl; now rewrite Hf3, Hf|]. split; [exact Hr3|].
  unfold bind at 1 in Hrun.
  destruct (CourtListener.download_all env (length (k :: ks)) 1 0 0 (k :: ks) w4)
    as [[[s f]|e] w5]; subst run; repeat split.
Qed.

End StoreRequests.

(** C10: the object-store [download_file] requests the base URL it is
    given followed by the key, and [main] always gives it the S3 base URL.
    After a discovery that found keys and the answer [y] or [Y], [main]
    runs the download loop on exactly those keys; the loop, when it
    returns, has asked for every key with a distinct destination not on
    disk, in order, at [s3_base_url + key]; and every request that [main]
    issues after discovery fetches [s3_base_url + key] for a discovered
    key, whichever discovery method found the keys. *)
Theorem C10_downloads_use_the_s3_base_url (env : Env) (w : World)
    (filename base out : string) (keys : list string)
    (total i successful failed : nat) :
  let w1 := add_line (OutputDirectory CourtListener.output_dir)
                     (snd (mkdir CourtListener.output_dir w)) in
  (files w !! Str.path_join out (Str.basename filename) = None ->
   requests (snd (CourtListener.download_file env filename base out w))
   = requests w ++ [file_request (base +:+ filename)])
  /\ (forall tally,
        NoDup (map destination keys) ->
        (forall k, In k keys -> files w !! destination k = None) ->
        fst (CourtListener.download_all env total i successful failed keys w)
        = Ret tally ->
        requests (snd (CourtListener.download_all env total i successful failed
                         keys w))
        = requests w ++ map s3_request keys)
  /\ (forall k ks answer more,
        fst (CourtListener.discover env w1) = Ret (Some (k :: ks)) ->
        stdin w = answer :: more ->
        CourtListener.says_yes answer = true ->
        exists w3,
          files w3 = files w
          /\ requests w3 = requests (snd (CourtListener.discover env w1))
          /\ fst (CourtListener.main env w)
             = fst (CourtListener.download_all env (length (k :: ks)) 1 0 0
                      (k :: ks) w3)
          /\ requests (snd (CourtListener.main env w))
             = requests (snd (CourtListener.download_all env (length (k :: ks))
                                1 0 0 (k :: ks) w3))
          /\ files (snd (CourtListener.main env w))
             = files (snd (CourtListener.download_all env (length (k :: ks))
                             1 0 0 (k :: ks) w3)))
  /\ exists fetched,
       requests (snd (CourtListener.main env w))
       = requests (snd (CourtListener.discover env w1)) ++ map s3_request fetched
       /\ forall k, In k fetched ->
            exists found, fst (CourtListener.discover env w1) = Ret (Some found)
                          /\ In k found.
Proof.
  intros w1. split; [|split; [|split]].
  - intros Hp. rewrite courtlistener_download_file_absent by exact Hp.
    now rewrite guarded_transfer_requests.
  - intros tally. apply download_all_requests.
  - intros k ks answer more. apply main_downloads_discovered.
  - change (CourtListener.main env w)
      with (bind (CourtListener.discover env) (CourtListener.after_discovery env) w1).
    unfold bind.
    destruct (CourtListener.discover env w1) as [[found|e] w2]; simpl.
    + destruct (effects_after_discovery env found w2) as (_ & (new & Hn & Hall) & _).
      destruct (fetched_keys _ _ Hall) as (fetched & -> & Hin).
      exists fetched. split; [exact Hn|].
      intros k Hk. specialize (Hin k Hk).
      destruct found as [keys'|]; [now exists keys' | destruct Hin].
    + exists []. split; [now rewrite app_nil_r | intros k []].
Qed.

Lemma C10_witness :
  requests (snd (CourtListener.download_file storage_env "bulk-data/c.bz2"
                   CourtListener.s3_base_url CourtListener.output_dir empty_world))
  = [file_request
       "https://com-courtlistener-storage.s3-us-west-2.amazonaws.com/bulk-data/c.bz2"]
  /\ requests (snd (CourtListener.main storage_env (world_answering "y")))
     = requests (snd (CourtListener.discover storage_env
                        (add_line (OutputDirectory CourtListener.output_dir)
                           (snd (mkdir CourtListener.output_dir
                                   (world_answering "y"))))))
       ++ [file_request
             "https://com-courtlistener-storage.s3-us-west-2.amazonaws.com/bulk-data/c.bz2"].
Proof.
  split.
  - apply (C10_downloads_use_the_s3_base_url storage_env empty_world
             "bulk-data/c.bz2" CourtListener.s3_base_url
             CourtListener.output_dir [] 0 0 0 0).
    reflexivity.
  - destruct (C10_downloads_use_the_s3_base_url storage_env (world_answering "y")
                "" "" "" [] 0 0 0 0) as (_ & _ & Hmain & _).
    destruct (Hmain "bulk-data/c.bz2" [] "y" [])
      as (w3 & Hf3 & Hr3 & Hres & Hreq & _);
      [vm_compute; reflexivity | reflexivity | reflexivity |].
    destruct (C10_downloads_use_the_s3_base_url storage_env w3
                "" "" "" ["bulk-data/c.bz2"] 1 1 0 0) as (_ & Hloop & _).
    cbn [length] in Hreq, Hres. rewrite Hreq.
    rewrite (Hloop (1%nat, 0%nat)).
    + now rewrite Hr3.
    + apply NoDup_singleton.
    + intros k [<- | []]. rewrite Hf3. reflexivity.
    + rewrite <- Hres. vm_compute. reflexivity.
Defined.

(** Keys found by the third method, on the storage endpoint, are fetched
    from the S3 endpoint all the same. *)
Example keys_of_the_storage_endpoint_come_from_s3 :
  fst (CourtListener.discover storage_env (world_answering "y"))
  = Ret (Some ["bulk-data/c.bz2"])
  /\ map req_url (requests (snd (CourtListener.main storage_env (world_answering "y"))))
     = [ CourtListener.list_url;
         CourtListener.s3_base_url +:+ "?list-type=2&prefix=bulk-data/";
         CourtListener.s3_base_url +:+ "?prefix=bulk-data/";
         CourtListener.s3_base_url +:+ "?delimiter=/&prefix=bulk-data/";
         CourtListener.base_url;
         CourtListener.s3_base_url +:+ "bulk-data/c.bz2" ]
  /\ fst (CourtListener.main storage_env (world_answering "y")) = Ret (1%nat, 0%nat).
Proof. vm_compute. repeat split. Qed.

(** ** The discovery fallback chain *)

Section Discovery.

Variable env : Env.














End Discovery.



(** ** The end-to-end scenario of the tree host *)

Section Scenario.

Variable env : Env.

Lemma get_page_links_lists (url : string) (links : list string) (w : World) :
  page_lists env url links ->
  exists w',
    CaseLaw.get_page_links env url w = (Ret links, w') /\ files w' = files w.
Proof.
  intros (r & Hr & Hst & Hl). rewrite get_page_links_run, Hr, Hst.
  change (text r) with (text r). rewrite Hl.
  now eexists.
Qed.

Lemma caselaw_download_completes (url path : string) (content : list byte)
    (w : World) :
  completes env url path content ->
  exists w',
    CaseLaw.download_file env url path w = (Ret true, w')
    /\ files w' = <[path := content]> (files w).
Proof.
  intros (r & Hs & Hfit & Ht & <- & Hw).
  destruct (transfer_completes env path (Text "") _ r w (Hs _) Hfit Hw Ht)
    as (w' & Hrun & Hf & _).
  exists w'. rewrite caselaw_download_file_unfold.
  now rewrite (guarded_transfer_done env _ _ _ _ _ _ _ Hrun).
Qed.

Lemma transfer_breaks_files (path : string) (msg : Msg) (rq : Request)
    (r : Response) (w : World) :
  serves env (requests w) rq r -> fits r -> writable env path ->
  truncated r = true ->
  exists w',
    transfer env path msg rq w = (Raise RequestException, w')
    /\ forall p, p <> path -> files w' !! p = files w !! p.
Proof.
  intros Hs Hfit Hw Ht.
  destruct (transfer_breaks env path msg rq r w Hs Hfit Hw Ht) as (w' & Hrun & _).
  exists w'. split; [exact Hrun|].
  assert (Hfx : effects (eq path) (eq rq) any_exn (transfer env path msg rq))
    by (unfold transfer, any_exn; fx).
  destruct (Hfx w) as (Hf & _). rewrite Hrun in Hf. simpl in Hf.
  intros p Hp. apply Hf. congruence.
Qed.

Lemma caselaw_download_breaks (url path : string) (w : World) :
  breaks_midstream env url path ->
  exists w',
    CaseLaw.download_file env url path w = (Ret false, w')
    /\ files w' = delete path (files w).
Proof.
  intros (r & Hs & Hfit & Ht & Hw).
  destruct (transfer_breaks_files path (Text "") _ r w (Hs _) Hfit Hw Ht)
    as (w1 & Hrun & Hf).
  eexists. rewrite caselaw_download_file_unfold.
  rewrite (guarded_transfer_caught env _ _ _ _ _ _ Hrun).
  split; [reflexivity|]. simpl.
  apply map_eq. intros p. destruct (decide (p = path)) as [->|Hne].
  - now rewrite !lookup_delete_eq.
  - rewrite !lookup_delete_ne by congruence. now apply Hf.
Qed.

Lemma path_join_relative (dir x y : string) :
  Str.startswith x "/" = false -> Str.startswith y "/" = false ->
  Str.path_join dir x = Str.path_join dir y -> x = y.
Proof.
  intros Hx Hy. unfold Str.path_join. rewrite Hx, Hy.
  destruct (String.eqb dir "" || Str.endswith dir "/"); intros E.
  - now apply app_inv_head_str in E.
  - apply app_inv_head_str in E. now injection E.
Qed.

Lemma download_tars_scenario (self : CaseLaw.CaseLawCrawler) (dir : string)
    (total idx : nat) (ua ub : string) (content : list byte) (w : World) :
  let pa := Str.path_join dir "a.tar" in
  let pb := Str.path_join dir "b.tar" in
  Str.last_item (Str.split "/" ua) = "a.tar" ->
  Str.last_item (Str.split "/" ub) = "b.tar" ->
  completes env ua pa content ->
  breaks_midstream env ub pb ->
  files w !! pa = None -> files w !! pb = None ->
  exists w',
    CaseLaw.download_tars env self dir total idx [ua; ub] w
    = (Ret (CaseLaw.add_failed (CaseLaw.add_downloaded self)), w')
    /\ files w' !! pa = Some content
    /\ files w' !! pb = None
    /\ forall p, p <> pa -> p <> pb -> files w' !! p = files w !! p.
Proof.
  intros pa pb Na Nb Ha Hb Hpa Hpb.
  assert (Hne : pa <> pb).
  { intros E. apply path_join_relative in E; [discriminate | reflexivity..]. }
  cbn [CaseLaw.download_tars]. rewrite Na, Nb. fold pa pb.
  erewrite bind_Ret by (now apply path_exists_absent). cbv beta iota.
  rewrite bind_print.
  destruct (caselaw_download_completes ua pa content
              (add_line (Downloading idx total "a.tar") w) Ha) as (w1 & Hrun1 & Hf1).
  erewrite bind_Ret by exact Hrun1. cbv beta iota.
  erewrite bind_Ret by apply print_then_ret.
  rewrite bind_sleep.
  set (w2 := nap (add_line (Completed "a.tar") w1)).
  assert (Hf2 : files w2 = <[pa := content]> (files w)) by exact Hf1.
  clearbody w2.
  erewrite bind_Ret; cycle 1.
  { apply path_exists_absent. rewrite Hf2, lookup_insert_ne by exact Hne.
    exact Hpb. }
  cbv beta iota. rewrite bind_print.
  destruct (caselaw_download_breaks ub pb
              (add_line (Downloading (S idx) total "b.tar") w2) Hb)
    as (w3 & Hrun3 & Hf3).
  erewrite bind_Ret by exact Hrun3. cbv beta iota.
  erewrite bind_Ret by apply print_then_ret.
  rewrite bind_sleep. unfold ret.
  eexists. split; [reflexivity|]. simpl. rewrite Hf3. simpl. rewrite Hf2.
  split; [|split].
  - rewrite lookup_delete_ne by congruence. apply lookup_insert_eq.
  - apply lookup_delete_eq.
  - intros p Hp1 Hp2. rewrite lookup_delete_ne, lookup_insert_ne by congruence.
    reflexivity.
Qed.

End Scenario.

(** C6, as stated, does not hold for every failure in mid-stream: when
    the second download fails because the disk refuses a write after the
    first chunk, the error is no request error, so it leaves
    [download_file] and the loop: the crawl ends with that error, no
    failure is counted, and the part of [b.tar] already written stays on
    disk. *)
Lemma C6_counterexample :
  let run := CaseLaw.crawl_and_download b_disk_full_env
               (CaseLaw.init "http://h/" "out") None empty_world in
  fst run = Raise OSError
  /\ files (snd run) !! "out/r/a.tar" = Some [x01; x02; x03]
  /\ files (snd run) !! "out/r/b.tar" = Some [x04]
  /\ ~ (exists self', fst run = Ret self' /\ CaseLaw.failed_count self' = 1%nat).
Proof.
  split; [|split; [|split]]; try (vm_compute; reflexivity).
  intros (self' & H & _). vm_compute in H. discriminate H.
Qed.

(** C6, amended: on the tree host, when the root page lists one reporter,
    whose page lists the archives [a.tar] and [b.tar], neither of which is
    on disk, the first download completes and the stream of the second
    breaks (a request error, on a disk that takes every write and with
    declared lengths that fit the progress line), [crawl_and_download]
    ends normally with the counters downloaded = 1, failed = 1,
    skipped = 0; [a.tar] is on disk with the bytes received and [b.tar]
    is not there. *)
Theorem C6_one_completed_one_failed (env : Env) (w : World)
    (root out name reporter_url ua ub : string)
    (links0 links1 : list string) (content : list byte) :
  let dir := Str.path_join out name in
  page_lists env root links0 ->
  omap (CaseLaw.reporter_of root) links0 = [(name, reporter_url)] ->
  page_lists env reporter_url links1 ->
  List.filter (fun link => Str.endswith link ".tar") links1 = [ua; ub] ->
  Str.last_item (Str.split "/" ua) = "a.tar" ->
  Str.last_item (Str.split "/" ub) = "b.tar" ->
  files w !! Str.path_join dir "a.tar" = None ->
  files w !! Str.path_join dir "b.tar" = None ->
  completes env ua (Str.path_join dir "a.tar") content ->
  breaks_midstream env ub (Str.path_join dir "b.tar") ->
  exists self' w',
    CaseLaw.crawl_and_download env (CaseLaw.init root out) None w = (Ret self', w')
    /\ CaseLaw.downloaded_count self' = 1%nat
    /\ CaseLaw.failed_count self' = 1%nat
    /\ CaseLaw.skipped_count self' = 0%nat
    /\ files w' !! Str.path_join dir "a.tar" = Some content
    /\ files w' !! Str.path_join dir "b.tar" = None.
Proof.
  intros dir Hroot Hreporters Hrep Htars Na Nb Hpa Hpb Ha Hb.
  set (self := CaseLaw.init root out).
  set (w0 := add_line (Text "")
               (add_line (OutputDirectory out)
                  (add_line (Text CaseLaw.rule)
                     (add_line (Text "Case Law Crawler - https://static.case.law/")
                        w)))).
  destruct (get_page_links_lists env root links0
              (add_line (Text "Discovering reporter directories...") w0) Hroot)
    as (w1 & Hrun1 & Hf1).
  assert (Hdisc : CaseLaw.get_reporter_directories env self w0
                  = (Ret [(name, reporter_url)], w1)).
  { unfold CaseLaw.get_reporter_directories. rewrite bind_print.
    change (CaseLaw.base_url self) with root.
    erewrite bind_Ret by exact Hrun1.
    unfold ret. now rewrite Hreporters. }
  set (w2 := snd (mkdir dir
                    (add_line (Processing 1 1 name)
                       (add_line (Text "")
                          (add_line (FoundCount 1 "reporter directories") w1))))).
  destruct (get_page_links_lists env reporter_url links1 w2 Hrep)
    as (w3 & Hrun3 & Hf3).
  assert (Htar : CaseLaw.get_tar_files env reporter_url w2 = (Ret [ua; ub], w3)).
  { unfold CaseLaw.get_tar_files. erewrite bind_Ret by exact Hrun3.
    unfold ret. now rewrite Htars. }
  destruct (download_tars_scenario env self dir 2 1 ua ub content
              (add_line (FoundCount 2 "tar file(s)") w3) Na Nb Ha Hb)
    as (w4 & Hrun4 & Hfa & Hfb & _).
  { simpl. rewrite Hf3. unfold w2. simpl. rewrite Hf1. exact Hpa. }
  { simpl. rewrite Hf3. unfold w2. simpl. rewrite Hf1. exact Hpb. }
  assert (Hproc : CaseLaw.process_reporters env self 1 1 [(name, reporter_url)]
                    (add_line (Text "")
                       (add_line (FoundCount 1 "reporter directories") w1))
                  = (Ret (CaseLaw.add_failed (CaseLaw.add_downloaded self)),
                     add_line (Text "") w4)).
  { cbn [CaseLaw.process_reporters]. rewrite bind_print.
    change (CaseLaw.output_dir self) with out. fold dir.
    change (bind (mkdir dir) ?k ?w) with (k tt (snd (mkdir dir w))).
    fold w2. cbv beta.
    erewrite bind_Ret by exact Htar. cbv beta iota.
    rewrite bind_print. cbn [length].
    erewrite bind_Ret by exact Hrun4.
    rewrite bind_print. reflexivity. }
  eexists _, _. split.
  - unfold CaseLaw.crawl_and_download. rewrite !bind_print. fold w0.
    erewrite bind_Ret by exact Hdisc. cbv beta iota.
    rewrite bind_print.
    erewrite bind_Ret by reflexivity.
    rewrite bind_print. cbn [length].
    erewrite bind_Ret by exact Hproc.
    rewrite !bind_print. reflexivity.
  - simpl. auto.
Qed.

Lemma C6_witness :
  exists self' w',
    CaseLaw.crawl_and_download demo_env (CaseLaw.init "http://h/" "out") None
      empty_world = (Ret self', w')
    /\ CaseLaw.downloaded_count self' = 1%nat
    /\ CaseLaw.failed_count self' = 1%nat
    /\ CaseLaw.skipped_count self' = 0%nat
    /\ files w' !! "out/r/a.tar" = Some [x01; x02; x03]
    /\ files w' !! "out/r/b.tar" = None.
Proof.
  apply (C6_one_completed_one_failed demo_env empty_world "http://h/" "out" "r"
           "http://h/r/" "http://h/r/a.tar" "http://h/r/b.tar"
           ["http://h/r/"; "http://h/meta.json"; "http://h/"]
           ["http://h/r/a.tar"; "http://h/r/b.tar"; "http://h/r/notes.txt"]
           [x01; x02; x03]).
  - exists (ok_response "root" [] false). repeat split.
  - reflexivity.
  - exists (ok_response "reporter" [] false). repeat split.
  - reflexivity.
  - reflexivity.
  - reflexivity.
  - reflexivity.
  - reflexivity.
  - exists (ok_response "" [[x01; x02]; []; [x03]] false).
    split; [intros h; split; [reflexivity | split; [reflexivity | discriminate]]|].
    split; [left; vm_compute; discriminate|].
    split; [reflexivity|]. split; [reflexivity|].
    split; [reflexivity | intros; reflexivity].
  - exists (ok_response "" [[x04; x05]] true).
    split; [intros h; split; [reflexivity | split; [reflexivity | discriminate]]|].
    split; [left; vm_compute; discriminate|].
    split; [reflexivity|]. split; [reflexivity | intros; reflexivity].
Defined.

(** * Further properties of the two scripts *)

(** ** What a transfer leaves on disk *)

Section TransferResults.

Variable env : Env.

(** If the streaming loop ends normally, every chunk was written: the file
    holds what it held when the loop started followed by the chunks, and
    the loop returns the number of bytes it added. *)
Lemma write_chunks_returned (path : string) (total : Z) (cs : list (list byte)) :
  forall (done n : Z) (w w' : World) (cur : list byte),
    files w !! path = Some cur ->
    write_chunks env path total done cs w = (Ret n, w') ->
    files w' = <[path := cur ++ concat cs]> (files w)
    /\ n = done + Z.of_nat (length (concat cs))
    /\ requests w' = requests w.
Proof.
  induction cs as [|chunk cs IH]; intros done n w w' cur Hcur Hrun.
  - injection Hrun as <- <-. simpl.
    rewrite app_nil_r, insert_id by assumption. repeat split. lia.
  - destruct chunk as [|b chunk]; [simpl in *; now apply (IH done n w w' cur)|].
    set (done' := done + Z.of_nat (length (b :: chunk))).
    set (w1 := set_files (<[path := cur ++ b :: chunk]> (files w)) w).
    set (w2 := if 0 <? total then add_line (Progress done' total) w1 else w1).
    change (write_chunks env path total done ((b :: chunk) :: cs))
      with (bind (write env path (b :: chunk))
              (fun _ => bind (if 0 <? total
                              then if progress_overflows done' total
                                   then raise OverflowError
                                   else print (Progress done' total)
                              else ret tt)
                          (fun _ => write_chunks env path total done' cs))) in Hrun.
    unfold bind, write in Hrun. rewrite Hcur in Hrun. cbn [default] in Hrun. unfold id in Hrun.
    destruct (write_ok env path cur (b :: chunk)); [|simpl in Hrun; discriminate Hrun].
    assert (Hstep : write_chunks env path total done' cs w2 = (Ret n, w')).
    { unfold w2, w1. destruct (0 <? total); [|exact Hrun].
      destruct (progress_overflows done' total); [discriminate Hrun | exact Hrun]. }
    assert (Hf2 : files w2 = <[path := cur ++ b :: chunk]> (files w))
      by (unfold w2; destruct (0 <? total); reflexivity).
    assert (Hr2 : requests w2 = requests w)
      by (unfold w2; destruct (0 <? total); reflexivity).
    destruct (IH done' n w2 w' (cur ++ b :: chunk)) as (Hf & Hn & Hr);
      [rewrite Hf2; apply lookup_insert_eq | exact Hstep |].
    split; [|split].
    + rewrite Hf, Hf2, insert_insert_eq. f_equal. simpl.
      now rewrite <- app_assoc.
    + rewrite Hn. unfold done'.
      change (concat ((b :: chunk) :: cs)) with ((b :: chunk) ++ concat cs).
      rewrite length_app. lia.
    + congruence.
Qed.

Lemma stream_to_file_returned (path : string) (total : Z) (r : Response)
    (w w' : World) :
  stream_to_file env path total r w = (Ret tt, w') ->
  truncated r = false
  /\ files w' = <[path := concat (chunks r)]> (files w)
  /\ requests w' = requests w.
Proof.
  unfold stream_to_file. unfold bind at 1. unfold open_wb.
  destruct (open_ok env path); [|discriminate].
  unfold bind.
  destruct (write_chunks env path total 0 (chunks r)
              (set_files (<[path := []]> (files w)) w)) as [[n|e] w1] eqn:Hrun;
    [|discriminate].
  destruct (write_chunks_returned path total (chunks r) 0 n _ w1 []
              (lookup_insert_eq _ _ _) Hrun) as (Hf & _ & Hr).
  destruct (truncated r); [discriminate|].
  intros [= <-]. split; [reflexivity|]. split; [|exact Hr].
  rewrite Hf. simpl. apply insert_insert_eq.
Qed.

(** A try block that returns was answered with a good status and a whole
    body, which is now the content of the destination. *)
Lemma transfer_returned (path : string) (msg : Msg) (rq : Request) (w w' : World)
    (b : bool) :
  transfer env path msg rq w = (Ret b, w') ->
  exists r,
    respond env (requests w) rq = Responded r
    /\ is_error_status r = false
    /\ truncated r = false
    /\ files w' = <[path := concat (chunks r)]> (files w)
    /\ requests w' = requests w ++ [rq].
Proof.
  unfold transfer. unfold bind at 1. unfold http_get.
  destruct (respond env (requests w) rq) as [|r]; [discriminate|].
  unfold bind at 1. unfold raise_for_status.
  destruct (is_error_status r) eqn:Hst; [discriminate|]. simpl.
  unfold bind at 1.
  destruct (total_size_of r (add_request rq w)) as [[n|e] w1] eqn:Hn; [|discriminate].
  assert (w1 = add_request rq w) as ->.
  { unfold total_size_of in Hn. destruct (content_length r);
      try discriminate Hn; now injection Hn. }
  unfold bind at 1.
  destruct (stream_to_file env path n r (add_request rq w))
    as [[[]|e] w2] eqn:Hs; [|discriminate].
  apply stream_to_file_returned in Hs as (Ht & Hf & Hr).
  intros [= <- <-]. exists r. simpl in *. repeat split; assumption || reflexivity.
Qed.

Lemma guarded_transfer_true (path : string) (msg err : Msg) (rq : Request)
    (w w' : World) :
  except_RequestException
    (transfer env path msg rq)
    (print err ;;;
     present <- path_exists path ;;
     (if present then remove path else ret tt) ;;;
     ret false) w = (Ret true, w') ->
  transfer env path msg rq w = (Ret true, w').
Proof.
  unfold except_RequestException.
  destruct (transfer env path msg rq w) as [[b|e] w1]; [now intros|].
  destruct e; try discriminate. rewrite cleanup_run. discriminate.
Qed.

End TransferResults.

(** X1: whenever [download_file] returns [True] after a transfer, the
    server answered with a status below 400 or above 599 and a body that
    ended normally; the destination then holds exactly the chunks of that
    body, in order, whatever was there before, and exactly one request was
    made.  The object-store function can also return [True] because the
    destination was there, and then nothing has changed. *)
Theorem X1_a_completed_download_holds_the_body (env : Env) (w w' : World)
    (url path filename base out : string) :
  (CaseLaw.download_file env url path w = (Ret true, w') ->
   exists r,
     respond env (requests w) (file_request url) = Responded r
     /\ is_error_status r = false /\ truncated r = false
     /\ files w' = <[path := concat (chunks r)]> (files w)
     /\ requests w' = requests w ++ [file_request url])
  /\ (CourtListener.download_file env filename base out w = (Ret true, w') ->
      (is_Some (files w !! Str.path_join out (Str.basename filename))
       /\ files w' = files w /\ requests w' = requests w)
      \/ (files w !! Str.path_join out (Str.basename filename) = None
          /\ exists r,
               respond env (requests w) (file_request (base +:+ filename))
                 = Responded r
               /\ is_error_status r = false /\ truncated r = false
               /\ files w' = <[Str.path_join out (Str.basename filename)
                                 := concat (chunks r)]> (files w)
               /\ requests w' = requests w ++ [file_request (base +:+ filename)])).
Proof.
  split.
  - rewrite caselaw_download_file_unfold. intros H.
    apply guarded_transfer_true in H. now apply transfer_returned in H.
  - intros H.
    destruct (files w !! Str.path_join out (Str.basename filename)) as [c|] eqn:Hp.
    + left. rewrite courtlistener_download_file_present in H by eauto.
      injection H as <-. repeat split; eauto.
    + right. split; [reflexivity|].
      rewrite courtlistener_download_file_absent in H by exact Hp.
      apply guarded_transfer_true in H. now apply transfer_returned in H.
Qed.

Lemma X1_witness :
  files (snd (CaseLaw.download_file demo_env "http://h/r/a.tar" "out/r/a.tar"
                (world_with "out/r/a.tar" [x09])))
  = <["out/r/a.tar" := [x01; x02; x03]]> {["out/r/a.tar" := [x09]]}.
Proof.
  destruct (X1_a_completed_download_holds_the_body demo_env
              (world_with "out/r/a.tar" [x09])
              (snd (CaseLaw.download_file demo_env "http://h/r/a.tar" "out/r/a.tar"
                      (world_with "out/r/a.tar" [x09])))
              "http://h/r/a.tar" "out/r/a.tar" "" "" "") as [Htree _].
  destruct (Htree eq_refl) as (r & Hr & _ & _ & Hf & _).
  injection Hr as <-. exact Hf.
Defined.

(** ** Resuming: what a second run does with an item *)

Section OneRound.

Variable env : Env.

(** One round of the loop over a reporter's archives, by cases. *)
Lemma download_tars_round (self : CaseLaw.CaseLawCrawler) (dir : string)
    (total idx : nat) (url : string) (rest : list string) (w : World) :
  let name := Str.last_item (Str.split "/" url) in
  let p := Str.path_join dir name in
  let w1 := add_line (Downloading idx total name) w in
  (is_Some (files w !! p)
   /\ CaseLaw.download_tars env self dir total idx (url :: rest) w
      = CaseLaw.download_tars env (CaseLaw.add_skipped self) dir total (S idx) rest
          (add_line (Skipping idx total name) w))
  \/ (files w !! p = None
      /\ exists w2,
           CaseLaw.download_file env url p w1 = (Ret true, w2)
           /\ CaseLaw.download_tars env self dir total idx (url :: rest) w
              = CaseLaw.download_tars env (CaseLaw.add_downloaded self) dir total
                  (S idx) rest (nap (add_line (Completed name) w2)))
  \/ (files w !! p = None
      /\ exists w2,
           CaseLaw.download_file env url p w1 = (Ret false, w2)
           /\ CaseLaw.download_tars env self dir total idx (url :: rest) w
              = CaseLaw.download_tars env (CaseLaw.add_failed self) dir total
                  (S idx) rest (nap (add_line (Failed name) w2)))
  \/ (files w !! p = None
      /\ exists e w2,
           CaseLaw.download_file env url p w1 = (Raise e, w2)
           /\ CaseLaw.download_tars env self dir total idx (url :: rest) w
              = (Raise e, w2)).
Proof.
  intros name p w1. cbn [CaseLaw.download_tars]. fold name p.
  destruct (files w !! p) as [c|] eqn:Hp.
  - left. split; [eauto|].
    erewrite bind_Ret by (apply path_exists_present; eauto). reflexivity.
  - right.
    erewrite bind_Ret by (now apply path_exists_absent). cbv beta iota.
    change (bind (print (Downloading idx total name)) ?k w) with (k tt w1).
    cbv beta.
    destruct (CaseLaw.download_file env url p w1) as [[[|]|e] w2] eqn:Hd.
    + left. split; [reflexivity|]. exists w2. split; [reflexivity|].
      erewrite bind_Ret by exact Hd. reflexivity.
    + right. left. split; [reflexivity|]. exists w2. split; [reflexivity|].
      erewrite bind_Ret by exact Hd. reflexivity.
    + right. right. split; [reflexivity|]. exists e, w2. split; [reflexivity|].
      erewrite bind_Raise by exact Hd. reflexivity.
Qed.

Lemma caselaw_download_true_present (url path : string) (w w' : World) :
  CaseLaw.download_file env url path w = (Ret true, w') ->
  is_Some (files w' !! path).
Proof.
  rewrite caselaw_download_file_unfold. intros H.
  apply guarded_transfer_true in H.
  apply transfer_returned in H as (r & _ & _ & _ & Hf & _).
  rewrite Hf, lookup_insert_eq. eauto.
Qed.

Lemma caselaw_download_false_absent (url path : string) (w w' : World) :
  CaseLaw.download_file env url path w = (Ret false, w') ->
  files w' !! path = None.
Proof.
  rewrite caselaw_download_file_unfold. intros H.
  pose proof (guarded_transfer_false env path (Text "") (ErrorDownloading "")
                (file_request url) w) as Hg.
  cbv zeta in Hg. rewrite H in Hg. now apply Hg.
Qed.

Lemma caselaw_download_requests (url path : string) (w : World) :
  requests (snd (CaseLaw.download_file env url path w))
  = requests w ++ [file_request url].
Proof. rewrite caselaw_download_file_unfold. apply guarded_transfer_requests. Qed.

Lemma courtlistener_download_true_present (filename base out : string) (w w' : World) :
  CourtListener.download_file env filename base out w = (Ret true, w') ->
  is_Some (files w' !! Str.path_join out (Str.basename filename)).
Proof.
  intros H.
  destruct (files w !! Str.path_join out (Str.basename filename)) as [c|] eqn:Hp.
  - rewrite courtlistener_download_file_present in H by eauto.
    injection H as <-. simpl. rewrite Hp. eauto.
  - rewrite courtlistener_download_file_absent in H by exact Hp.
    apply guarded_transfer_true in H.
    apply transfer_returned in H as (r & _ & _ & _ & Hf & _).
    rewrite Hf, lookup_insert_eq. eauto.
Qed.

Lemma courtlistener_download_false_absent (filename base out : string) (w w' : World) :
  CourtListener.download_file env filename base out w = (Ret false, w') ->
  files w' !! Str.path_join out (Str.basename filename) = None.
Proof.
  intros H.
  destruct (files w !! Str.path_join out (Str.basename filename)) as [c|] eqn:Hp.
  - rewrite courtlistener_download_file_present in H by eauto. discriminate H.
  - rewrite courtlistener_download_file_absent in H by exact Hp.
    pose proof (guarded_transfer_false env
                  (Str.path_join out (Str.basename filename))
                  (Completed (Str.basename filename))
                  (ErrorDownloading (Str.basename filename))
                  (file_request (base +:+ filename))
                  (add_line (DownloadingFile (Str.basename filename)) w)) as Hg.
    cbv zeta in Hg. rewrite H in Hg. now apply Hg.
Qed.

End OneRound.

(** X2: both scripts resume by file existence alone.  In the object-store
    script a key whose download returned [True] is skipped by the next call
    without a request, and a key whose download returned [False] is
    requested again.  In the tree-host loop an archive that was counted as
    downloaded or skipped is skipped by a later round, and one that was
    counted as failed is requested again. *)
Theorem X2_a_later_run_skips_what_succeeded_and_retries_what_failed
    (env : Env) (w : World) (filename base out : string)
    (self self2 : CaseLaw.CaseLawCrawler) (dir url : string)
    (total idx total2 idx2 : nat) :
  let first := CourtListener.download_file env filename base out w in
  let name := Str.last_item (Str.split "/" url) in
  let item := CaseLaw.download_tars env self dir total idx [url] w in
  let again := CaseLaw.download_tars env self2 dir total2 idx2 [url] (snd item) in
  (fst first = Ret true ->
   CourtListener.download_file env filename base out (snd first)
   = (Ret true, add_line (SkippingFile (Str.basename filename)) (snd first)))
  /\ (fst first = Ret false ->
      requests (snd (CourtListener.download_file env filename base out (snd first)))
      = requests (snd first) ++ [file_request (base +:+ filename)])
  /\ (fst item = Ret (CaseLaw.add_downloaded self)
      \/ fst item = Ret (CaseLaw.add_skipped self) ->
      again = (Ret (CaseLaw.add_skipped self2),
               add_line (Skipping idx2 total2 name) (snd item)))
  /\ (fst item = Ret (CaseLaw.add_failed self) ->
      requests (snd again) = requests (snd item) ++ [file_request url]).
Proof.
  intros first name item again. split; [|split; [|split]].
  - intros H. apply courtlistener_download_file_present.
    apply (courtlistener_download_true_present env filename base out w).
    unfold first in H.
    destruct (CourtListener.download_file env filename base out w) as [o w1] eqn:Hrun.
    simpl in H. now subst o.
  - intros H.
    assert (Hp : files (snd first) !! Str.path_join out (Str.basename filename) = None).
    { unfold first in *.
      destruct (CourtListener.download_file env filename base out w) as [o w1] eqn:Hrun.
      simpl in H. subst o.
      now apply (courtlistener_download_false_absent env filename base out w). }
    rewrite courtlistener_download_file_absent by exact Hp.
    now rewrite guarded_transfer_requests.
  - intros H.
    assert (Hp : is_Some (files (snd item) !! Str.path_join dir name)).
    { subst item again.
      destruct (download_tars_round env self dir total idx url [] w)
        as [(Hp & Heq) | [(Hp & w2 & Hd & Heq) | [(Hp & w2 & Hd & Heq)
           | (Hp & e & w2 & Hd & Heq)]]];
        rewrite Heq in *; cbn [CaseLaw.download_tars fst snd] in *;
        unfold ret in *; cbn [fst snd] in *.
      - exact Hp.
      - exact (caselaw_download_true_present env url _ _ w2 Hd).
      - destruct H as [H | H]; inversion H; lia.
      - destruct H; discriminate. }
    subst again.
    destruct (download_tars_round env self2 dir total2 idx2 url [] (snd item))
      as [(_ & Heq) | [(Hn & _) | [(Hn & _) | (Hn & _)]]];
      [rewrite Heq; reflexivity | | |]; fold name in Hn; rewrite Hn in Hp;
      destruct Hp; discriminate.
  - intros H.
    assert (Hp : files (snd item) !! Str.path_join dir name = None).
    { subst item again.
      destruct (download_tars_round env self dir total idx url [] w)
        as [(Hp & Heq) | [(Hp & w2 & Hd & Heq) | [(Hp & w2 & Hd & Heq)
           | (Hp & e & w2 & Hd & Heq)]]];
        rewrite Heq in *; cbn [CaseLaw.download_tars fst snd] in *;
        unfold ret in *; cbn [fst snd] in *.
      - inversion H; lia.
      - inversion H; lia.
      - exact (caselaw_download_false_absent env url _ _ w2 Hd).
      - discriminate. }
    subst again name.
    pose proof (caselaw_download_requests env url
                  (Str.path_join dir (Str.last_item (Str.split "/" url)))
                  (add_line (Downloading idx2 total2
                               (Str.last_item (Str.split "/" url))) (snd item))) as Hr.
    destruct (download_tars_round env self2 dir total2 idx2 url [] (snd item))
      as [(Hn & _) | [(_ & w2 & Hd & Heq) | [(_ & w2 & Hd & Heq)
         | (_ & e & w2 & Hd & Heq)]]].
    + rewrite Hp in Hn. destruct Hn; discriminate.
    + rewrite Heq. rewrite Hd in Hr. exact Hr.
    + rewrite Heq. rewrite Hd in Hr. exact Hr.
    + rewrite Heq. rewrite Hd in Hr. exact Hr.
Qed.

Lemma X2_witness :
  CourtListener.download_file bucket_env "bulk-data/a.bz2"
    CourtListener.s3_base_url CourtListener.output_dir
    (snd (CourtListener.download_file bucket_env "bulk-data/a.bz2"
            CourtListener.s3_base_url CourtListener.output_dir empty_world))
  = (Ret true,
     add_line (SkippingFile (Str.basename "bulk-data/a.bz2"))
       (snd (CourtListener.download_file bucket_env "bulk-data/a.bz2"
               CourtListener.s3_base_url CourtListener.output_dir empty_world)))
  /\ requests
       (snd (CourtListener.download_file bucket_env "bulk-data/b.bz2"
               CourtListener.s3_base_url CourtListener.output_dir
               (snd (CourtListener.download_file bucket_env "bulk-data/b.bz2"
                       CourtListener.s3_base_url CourtListener.output_dir
                       empty_world))))
     = requests
         (snd (CourtListener.download_file bucket_env "bulk-data/b.bz2"
                 CourtListener.s3_base_url CourtListener.output_dir empty_world))
       ++ [file_request (CourtListener.s3_base_url +:+ "bulk-data/b.bz2")]
  /\ CaseLaw.download_tars demo_env (CaseLaw.init "http://h/" "out") "out/r" 1 1
       ["http://h/r/a.tar"]
       (snd (CaseLaw.download_tars demo_env (CaseLaw.init "http://h/" "out")
               "out/r" 1 1 ["http://h/r/a.tar"] empty_world))
     = (Ret (CaseLaw.add_skipped (CaseLaw.init "http://h/" "out")),
        add_line (Skipping 1 1 (Str.last_item (Str.split "/" "http://h/r/a.tar")))
          (snd (CaseLaw.download_tars demo_env (CaseLaw.init "http://h/" "out")
                  "out/r" 1 1 ["http://h/r/a.tar"] empty_world)))
  /\ requests
       (snd (CaseLaw.download_tars demo_env (CaseLaw.init "http://h/" "out")
               "out/r" 1 1 ["http://h/r/b.tar"]
               (snd (CaseLaw.download_tars demo_env (CaseLaw.init "http://h/" "out")
                       "out/r" 1 1 ["http://h/r/b.tar"] empty_world))))
     = requests
         (snd (CaseLaw.download_tars demo_env (CaseLaw.init "http://h/" "out")
                 "out/r" 1 1 ["http://h/r/b.tar"] empty_world))
       ++ [file_request "http://h/r/b.tar"].
Proof.
  destruct (X2_a_later_run_skips_what_succeeded_and_retries_what_failed
              bucket_env empty_world "bulk-data/a.bz2" CourtListener.s3_base_url
              CourtListener.output_dir
              (CaseLaw.init "http://h/" "out") (CaseLaw.init "http://h/" "out")
              "out/r" "http://h/r/a.tar" 1 1 1 1) as (Hskip & _).
  destruct (X2_a_later_run_skips_what_succeeded_and_retries_what_failed
              bucket_env empty_world "bulk-data/b.bz2" CourtListener.s3_base_url
              CourtListener.output_dir
              (CaseLaw.init "http://h/" "out") (CaseLaw.init "http://h/" "out")
              "out/r" "http://h/r/b.tar" 1 1 1 1) as (_ & Hretry & _).
  destruct (X2_a_later_run_skips_what_succeeded_and_retries_what_failed
              demo_env empty_world "bulk-data/a.bz2" CourtListener.s3_base_url
              CourtListener.output_dir
              (CaseLaw.init "http://h/" "out") (CaseLaw.init "http://h/" "out")
              "out/r" "http://h/r/a.tar" 1 1 1 1) as (_ & _ & Htree & _).
  destruct (X2_a_later_run_skips_what_succeeded_and_retries_what_failed
              demo_env empty_world "bulk-data/b.bz2" CourtListener.s3_base_url
              CourtListener.output_dir
              (CaseLaw.init "http://h/" "out") (CaseLaw.init "http://h/" "out")
              "out/r" "http://h/r/b.tar" 1 1 1 1) as (_ & _ & _ & Hagain).
  split; [|split; [|split]].
  - apply Hskip. vm_compute. reflexivity.
  - apply Hretry. vm_compute. reflexivity.
  - apply Htree. left. vm_compute. reflexivity.
  - apply Hagain. vm_compute. reflexivity.
Defined.

(** ** The counters of the two download loops *)

Section Pauses.

Variable env : Env.

Lemma write_chunks_naps (path : string) (total : Z) (cs : list (list byte)) :
  forall (done : Z) (w : World),
    naps (snd (write_chunks env path total done cs w)) = naps w.
Proof.
  induction cs as [|chunk cs IH]; intros done w; [reflexivity|].
  destruct chunk as [|b chunk]; [apply IH|].
  cbn [write_chunks]. unfold bind at 1. unfold write.
  destruct (write_ok env path _ (b :: chunk)); [|reflexivity].
  unfold bind at 1.
  destruct (0 <? total); [destruct (progress_overflows _ total)|]; simpl;
    try rewrite IH; reflexivity.
Qed.

Lemma stream_to_file_naps (path : string) (total : Z) (r : Response) (w : World) :
  naps (snd (stream_to_file env path total r w)) = naps w.
Proof.
  unfold stream_to_file. unfold bind at 1. unfold open_wb.
  destruct (open_ok env path); [|reflexivity].
  unfold bind.
  pose proof (write_chunks_naps path total (chunks r) 0
                (set_files (<[path := []]> (files w)) w)) as H.
  destruct (write_chunks env path total 0 (chunks r) _) as [[n|e] w1];
    simpl in *; [|exact H].
  destruct (truncated r); exact H.
Qed.

Lemma transfer_naps (path : string) (msg : Msg) (rq : Request) (w : World) :
  naps (snd (transfer env path msg rq w)) = naps w.
Proof.
  unfold transfer. unfold bind at 1. unfold http_get.
  destruct (respond env (requests w) rq) as [|r]; [reflexivity|].
  unfold bind at 1. unfold raise_for_status.
  destruct (is_error_status r); [reflexivity|]. simpl.
  unfold bind at 1. unfold total_size_of.
  destruct (content_length r); simpl; try reflexivity;
    unfold bind;
    match goal with
    | |- context [stream_to_file env path ?n r ?w0] =>
        pose proof (stream_to_file_naps path n r w0) as H;
        destruct (stream_to_file env path n r w0) as [[[]|e] w2]; simpl in *;
        exact H
    end.
Qed.

Lemma guarded_transfer_naps (path : string) (msg err : Msg) (rq : Request)
    (w : World) :
  naps (snd (except_RequestException
               (transfer env path msg rq)
               (print err ;;;
                present <- path_exists path ;;
                (if present then remove path else ret tt) ;;;
                ret false) w)) = naps w.
Proof.
  unfold except_RequestException.
  pose proof (transfer_naps path msg rq w) as H.
  destruct (transfer env path msg rq w) as [[b|e] w1]; [exact H|].
  destruct e; try exact H. rewrite cleanup_run. exact H.
Qed.

End Pauses.

(** X3: the loop over a reporter's archives counts every archive exactly
    once.  When it returns, the three counters together have grown by the
    number of archives, none has decreased, the crawler's base URL and
    output directory are unchanged, and the archives counted as downloaded
    or failed are exactly as many as the requests issued and as the
    half-second pauses taken: a skipped archive costs neither. *)
Theorem X3_every_archive_is_counted_once (env : Env) (dir : string) (total : nat)
    (tars : list string) (self self' : CaseLaw.CaseLawCrawler)
    (idx : nat) (w : World) :
  let run := CaseLaw.download_tars env self dir total idx tars w in
  fst run = Ret self' ->
  (CaseLaw.downloaded_count self' + CaseLaw.failed_count self'
   + CaseLaw.skipped_count self'
   = CaseLaw.downloaded_count self + CaseLaw.failed_count self
     + CaseLaw.skipped_count self + length tars)%nat
  /\ (CaseLaw.downloaded_count self <= CaseLaw.downloaded_count self')%nat
  /\ (CaseLaw.failed_count self <= CaseLaw.failed_count self')%nat
  /\ (CaseLaw.skipped_count self <= CaseLaw.skipped_count self')%nat
  /\ (length (requests (snd run)) + CaseLaw.downloaded_count self
      + CaseLaw.failed_count self
      = length (requests w) + CaseLaw.downloaded_count self'
        + CaseLaw.failed_count self')%nat
  /\ (naps (snd run) + CaseLaw.downloaded_count self + CaseLaw.failed_count self
      = naps w + CaseLaw.downloaded_count self' + CaseLaw.failed_count self')%nat
  /\ CaseLaw.base_url self' = CaseLaw.base_url self
  /\ CaseLaw.output_dir self' = CaseLaw.output_dir self.
Proof.
  cbv zeta. revert self idx w.
  induction tars as [|url rest IH]; intros self idx w Hrun.
  - simpl in Hrun. injection Hrun as <-. simpl. repeat split; lia.
  - pose proof (caselaw_download_requests env url
                  (Str.path_join dir (Str.last_item (Str.split "/" url)))
                  (add_line (Downloading idx total
                     (Str.last_item (Str.split "/" url))) w)) as Hrq.
    pose proof (guarded_transfer_naps env
                  (Str.path_join dir (Str.last_item (Str.split "/" url)))
                  (Text "") (ErrorDownloading "") (file_request url)
                  (add_line (Downloading idx total
                     (Str.last_item (Str.split "/" url))) w)) as Hnp.
    rewrite <- caselaw_download_file_unfold in Hnp.
    destruct (download_tars_round env self dir total idx url rest w)
      as [(_ & Heq) | [(_ & w2 & Hd & Heq) | [(_ & w2 & Hd & Heq)
         | (_ & e & w2 & Hd & Heq)]]];
      rewrite Heq in *; try rewrite Hd in *; cbn [fst snd] in *;
      [| | |discriminate Hrun];
      apply IH in Hrun; simpl in Hrun;
      destruct Hrun as (H1 & H2 & H3 & H4 & H5 & H6 & H7 & H8);
      try rewrite Hrq in H5; try rewrite length_app in H5; simpl in *;
      repeat split; try lia; assumption.
Qed.

Lemma X3_witness :
  exists self',
    fst (CaseLaw.download_tars demo_env (CaseLaw.init "http://h/" "out") "out/r"
           3 1 ["http://h/r/a.tar"; "http://h/r/b.tar"; "http://h/r/c.tar"]
           (world_with "out/r/c.tar" [x09])) = Ret self'
    /\ (CaseLaw.downloaded_count self' + CaseLaw.failed_count self'
        + CaseLaw.skipped_count self' = 3)%nat
    /\ (naps (snd (CaseLaw.download_tars demo_env (CaseLaw.init "http://h/" "out")
                     "out/r" 3 1
                     ["http://h/r/a.tar"; "http://h/r/b.tar"; "http://h/r/c.tar"]
                     (world_with "out/r/c.tar" [x09])))
        = CaseLaw.downloaded_count self' + CaseLaw.failed_count self')%nat.
Proof.
  exists (CaseLaw.mkCrawler "http://h/" "out" 1 1 1).
  assert (Hrun : fst (CaseLaw.download_tars demo_env (CaseLaw.init "http://h/" "out")
                        "out/r" 3 1
                        ["http://h/r/a.tar"; "http://h/r/b.tar"; "http://h/r/c.tar"]
                        (world_with "out/r/c.tar" [x09]))
                 = Ret (CaseLaw.mkCrawler "http://h/" "out" 1 1 1))
    by (vm_compute; reflexivity).
  destruct (X3_every_archive_is_counted_once demo_env "out/r" 3
              ["http://h/r/a.tar"; "http://h/r/b.tar"; "http://h/r/c.tar"]
              (CaseLaw.init "http://h/" "out")
              (CaseLaw.mkCrawler "http://h/" "out" 1 1 1) 1
              (world_with "out/r/c.tar" [x09]) Hrun)
    as (Hsum & _ & _ & _ & _ & Hnaps & _).
  split; [exact Hrun|]. split; [exact Hsum|]. simpl in Hnaps. simpl. lia.
Defined.

Section StoreRound.

Variable env : Env.

Lemma courtlistener_download_requests (filename base out : string) (w : World) :
  let run := CourtListener.download_file env filename base out w in
  (is_Some (files w !! Str.path_join out (Str.basename filename)) ->
   run = (Ret true, add_line (SkippingFile (Str.basename filename)) w))
  /\ (files w !! Str.path_join out (Str.basename filename) = None ->
      requests (snd run) = requests w ++ [file_request (base +:+ filename)]).
Proof.
  cbv zeta. split; intros Hp.
  - now apply courtlistener_download_file_present.
  - rewrite courtlistener_download_file_absent by exact Hp.
    now rewrite guarded_transfer_requests.
Qed.

Lemma courtlistener_download_naps (filename base out : string) (w : World) :
  naps (snd (CourtListener.download_file env filename base out w)) = naps w.
Proof.
  destruct (files w !! Str.path_join out (Str.basename filename)) as [c|] eqn:Hp.
  - rewrite courtlistener_download_file_present by eauto. reflexivity.
  - rewrite courtlistener_download_file_absent by exact Hp.
    now rewrite guarded_transfer_naps.
Qed.

End StoreRound.

(** X4: the download loop of the object-store script counts every key
    exactly once.  When it returns, the two tallies together have grown by
    the number of keys and neither has decreased; it issued at least one
    request for every key counted as failed and at most one for every key;
    and, unlike the tree-host loop, it never pauses. *)
Theorem X4_every_key_is_tallied_once (env : Env) (keys : list string)
    (total i s f s' f' : nat) (w : World) :
  let run := CourtListener.download_all env total i s f keys w in
  fst run = Ret (s', f') ->
  (s' + f' = s + f + length keys)%nat
  /\ (s <= s')%nat /\ (f <= f')%nat
  /\ (length (requests w) + f' <= length (requests (snd run)) + f)%nat
  /\ (length (requests (snd run)) <= length (requests w) + length keys)%nat
  /\ naps (snd run) = naps w.
Proof.
  cbv zeta. revert i s f w.
  induction keys as [|k rest IH]; intros i s f w Hrun.
  - simpl in Hrun. injection Hrun as <- <-. simpl. repeat split; lia.
  - rewrite download_all_round in *.
    pose proof (courtlistener_download_requests env k CourtListener.s3_base_url
                  CourtListener.output_dir (add_line (Item i total) w)) as [Hin Hout].
    pose proof (courtlistener_download_naps env k CourtListener.s3_base_url
                  CourtListener.output_dir (add_line (Item i total) w)) as Hnp.
    destruct (files (add_line (Item i total) w)
                !! Str.path_join CourtListener.output_dir (Str.basename k))
      as [c|] eqn:Hp.
    + rewrite Hin in * by eauto. cbn [fst snd] in *.
      apply IH in Hrun. simpl in *. repeat split; lia.
    + specialize (Hout eq_refl).
      destruct (CourtListener.download_file env k CourtListener.s3_base_url
                  CourtListener.output_dir (add_line (Item i total) w))
        as [[[|]|e] w1]; [| |discriminate Hrun];
        apply IH in Hrun; cbn [fst snd] in *; rewrite Hout, length_app in Hrun;
        simpl in *; repeat split; lia.
Qed.

Lemma X4_witness :
  exists s' f',
    fst (CourtListener.download_all bucket_env 3 1 0 0
           ["bulk-data/a.bz2"; "bulk-data/b.bz2"; "other/a.bz2"] empty_world)
    = Ret (s', f')
    /\ (s' + f' = 3)%nat
    /\ (length (requests (snd (CourtListener.download_all bucket_env 3 1 0 0
                                 ["bulk-data/a.bz2"; "bulk-data/b.bz2"; "other/a.bz2"]
                                 empty_world))) <= 3)%nat.
Proof.
  exists 2%nat, 1%nat.
  assert (Hrun : fst (CourtListener.download_all bucket_env 3 1 0 0
                        ["bulk-data/a.bz2"; "bulk-data/b.bz2"; "other/a.bz2"]
                        empty_world) = Ret (2, 1)%nat)
    by (vm_compute; reflexivity).
  destruct (X4_every_key_is_tallied_once bucket_env
              ["bulk-data/a.bz2"; "bulk-data/b.bz2"; "other/a.bz2"]
              3 1 0 0 2 1 empty_world Hrun) as (Hsum & _ & _ & _ & Hup & _).
  split; [exact Hrun|]. split; [exact Hsum | exact Hup].
Defined.

(** ** What is on disk when a loop ends *)

Section Missing.

Variable env : Env.

Lemma count_none_zero (P : string -> option (list byte)) (l : list string) :
  length (List.filter (fun k => bool_decide (P k = None)) l) = 0%nat ->
  forall k, In k l -> is_Some (P k).
Proof.
  induction l as [|a l IH]; intros Hlen k Hk; [destruct Hk|].
  simpl in Hlen. destruct (P a) as [c|] eqn:Ha.
  - rewrite bool_decide_eq_false_2 in Hlen by discriminate.
    destruct Hk as [<- | Hk]; [rewrite Ha; eauto | now apply IH].
  - rewrite bool_decide_eq_true_2 in Hlen by reflexivity. discriminate Hlen.
Qed.

Lemma count_none_cons (P : string -> option (list byte)) (a : string)
    (l : list string) :
  (length (List.filter (fun k => bool_decide (P k = None)) (a :: l))
   <= S (length (List.filter (fun k => bool_decide (P k = None)) l)))%nat
  /\ (is_Some (P a) ->
      length (List.filter (fun k => bool_decide (P k = None)) (a :: l))
      = length (List.filter (fun k => bool_decide (P k = None)) l)).
Proof.
  simpl. destruct (P a) as [c|].
  - rewrite bool_decide_eq_false_2 by discriminate. split; [lia | reflexivity].
  - rewrite bool_decide_eq_true_2 by reflexivity. simpl. split; [lia|].
    intros [? ?]; discriminate.
Qed.

Lemma download_all_missing (total : nat) (keys : list string) :
  forall (i s f s' f' : nat) (w : World),
    fst (CourtListener.download_all env total i s f keys w) = Ret (s', f') ->
    (length (List.filter
               (fun k => bool_decide
                  (files (snd (CourtListener.download_all env total i s f keys w))
                     !! destination k = None)) keys) + f <= f')%nat.
Proof.
  induction keys as [|k rest IH]; intros i s f s' f' w Hrun.
  - simpl in Hrun. injection Hrun as <- <-. simpl. lia.
  - rewrite download_all_round in *.
    destruct (CourtListener.download_file env k CourtListener.s3_base_url
                CourtListener.output_dir (add_line (Item i total) w))
      as [[[|]|e] w1] eqn:Hd; [| |discriminate Hrun].
    + apply courtlistener_download_true_present in Hd as [c Hc].
      apply (keeps_download_all env total rest (S i) (S s) f) in Hc.
      destruct (count_none_cons
                  (fun k0 => files (snd (CourtListener.download_all env total
                                           (S i) (S s) f rest w1)) !! destination k0)
                  k rest) as [_ Hsame].
      rewrite Hsame by (unfold destination; eauto).
      exact (IH _ _ _ s' f' _ Hrun).
    + destruct (count_none_cons
                  (fun k0 => files (snd (CourtListener.download_all env total
                                           (S i) s (S f) rest w1)) !! destination k0)
                  k rest) as [Hle _].
      apply IH in Hrun. lia.
Qed.

Lemma download_tars_missing (dir : string) (total : nat) (tars : list string) :
  forall (self self' : CaseLaw.CaseLawCrawler) (idx : nat) (w : World),
    fst (CaseLaw.download_tars env self dir total idx tars w) = Ret self' ->
    (length (List.filter
               (fun url => bool_decide
                  (files (snd (CaseLaw.download_tars env self dir total idx tars w))
                     !! Str.path_join dir (Str.last_item (Str.split "/" url)) = None))
               tars) + CaseLaw.failed_count self <= CaseLaw.failed_count self')%nat.
Proof.
  induction tars as [|url rest IH]; intros self self' idx w Hrun.
  - simpl in Hrun. injection Hrun as <-. simpl. lia.
  - destruct (download_tars_round env self dir total idx url rest w)
      as [(Hp & Heq) | [(_ & w2 & Hd & Heq) | [(_ & w2 & Hd & Heq)
         | (_ & e & w2 & Hd & Heq)]]];
      rewrite Heq in *; [| | |discriminate Hrun].
    + destruct Hp as [c Hc].
      apply (keeps_download_tars env dir total rest (CaseLaw.add_skipped self)
               (S idx)
               (add_line (Skipping idx total
                  (Str.last_item (Str.split "/" url))) w)) in Hc.
      destruct (count_none_cons
                  (fun u => files (snd (CaseLaw.download_tars env
                         (CaseLaw.add_skipped self) dir total (S idx) rest
                         (add_line (Skipping idx total
                            (Str.last_item (Str.split "/" url))) w)))
                         !! Str.path_join dir (Str.last_item (Str.split "/" u)))
                  url rest) as [_ Hsame].
      rewrite Hsame by eauto.
      apply IH in Hrun. simpl in Hrun. exact Hrun.
    + apply caselaw_download_true_present in Hd as [c Hc].
      apply (keeps_download_tars env dir total rest (CaseLaw.add_downloaded self)
               (S idx)
               (nap (add_line (Completed
                  (Str.last_item (Str.split "/" url))) w2))) in Hc.
      destruct (count_none_cons
                  (fun u => files (snd (CaseLaw.download_tars env
                         (CaseLaw.add_downloaded self) dir total (S idx) rest
                         (nap (add_line (Completed
                            (Str.last_item (Str.split "/" url))) w2))))
                         !! Str.path_join dir (Str.last_item (Str.split "/" u)))
                  url rest) as [_ Hsame].
      rewrite Hsame by eauto.
      apply IH in Hrun. simpl in Hrun. exact Hrun.
    + destruct (count_none_cons
                  (fun u => files (snd (CaseLaw.download_tars env
                         (CaseLaw.add_failed self) dir total (S idx) rest
                         (nap (add_line (Failed
                            (Str.last_item (Str.split "/" url))) w2))))
                         !! Str.path_join dir (Str.last_item (Str.split "/" u)))
                  url rest) as [Hle _].
      apply IH in Hrun. simpl in Hrun. lia.
Qed.

(** A loop over archives that are all on disk skips every one of them. *)
Lemma download_tars_skips (dir : string) (total : nat) (tars : list string) :
  forall (self : CaseLaw.CaseLawCrawler) (idx : nat) (w : World),
    (forall url, In url tars ->
       is_Some (files w !! Str.path_join dir (Str.last_item (Str.split "/" url)))) ->
    exists w',
      CaseLaw.download_tars env self dir total idx tars w
      = (Ret (CaseLaw.mkCrawler (CaseLaw.base_url self) (CaseLaw.output_dir self)
                (CaseLaw.downloaded_count self) (CaseLaw.failed_count self)
                (CaseLaw.skipped_count self + length tars)), w')
      /\ requests w' = requests w
      /\ files w' = files w
      /\ naps w' = naps w.
Proof.
  induction tars as [|url rest IH]; intros self idx w Hall.
  - exists w. simpl. rewrite Nat.add_0_r. destruct self. auto.
  - destruct (download_tars_round env self dir total idx url rest w)
      as [(_ & Heq) | [(Hn & _) | [(Hn & _) | (Hn & _)]]];
      try (destruct (Hall url (or_introl eq_refl)) as [c Hc]; congruence).
    rewrite Heq.
    destruct (IH (CaseLaw.add_skipped self) (S idx)
                (add_line (Skipping idx total (Str.last_item (Str.split "/" url))) w))
      as (w' & Hrun & Hr & Hf & Hn).
    { intros u Hu. apply Hall. now right. }
    exists w'. rewrite Hrun. split; [|simpl in *; auto].
    unfold CaseLaw.add_skipped.
    cbn [CaseLaw.base_url CaseLaw.output_dir CaseLaw.downloaded_count
         CaseLaw.failed_count CaseLaw.skipped_count length].
    do 3 f_equal. lia.
Qed.

End Missing.

(** X5: a destination is missing when a download loop ends only if an item
    was counted as failed.  In both scripts the items whose destination does
    not exist at the end are at most as many as the failures counted; so a
    run that reports no failure has left a file at the destination of every
    item. *)
Theorem X5_missing_files_are_counted_as_failures (env : Env) (w : World)
    (keys : list string) (total i s f s' f' : nat)
    (tars : list string) (dir : string) (self self' : CaseLaw.CaseLawCrawler)
    (ttotal idx : nat) :
  let store := CourtListener.download_all env total i s f keys w in
  let tree := CaseLaw.download_tars env self dir ttotal idx tars w in
  let path_of := fun url => Str.path_join dir (Str.last_item (Str.split "/" url)) in
  (fst store = Ret (s', f') ->
   (length (List.filter
              (fun k => bool_decide (files (snd store) !! destination k = None))
              keys) + f <= f')%nat
   /\ (f' = f -> forall k, In k keys -> is_Some (files (snd store) !! destination k)))
  /\ (fst tree = Ret self' ->
      (length (List.filter
                 (fun url => bool_decide (files (snd tree) !! path_of url = None))
                 tars) + CaseLaw.failed_count self
       <= CaseLaw.failed_count self')%nat
      /\ (CaseLaw.failed_count self' = CaseLaw.failed_count self ->
          forall url, In url tars -> is_Some (files (snd tree) !! path_of url))).
Proof.
  cbv zeta. split.
  - intros Hrun. pose proof (download_all_missing env total keys i s f s' f' w Hrun)
      as Hbound.
    split; [exact Hbound|]. intros -> k Hk.
    apply (count_none_zero
             (fun k0 => files (snd (CourtListener.download_all env total i s f
                                      keys w)) !! destination k0) keys);
      [lia | exact Hk].
  - intros Hrun.
    pose proof (download_tars_missing env dir ttotal tars self self' idx w Hrun)
      as Hbound.
    split; [exact Hbound|]. intros Hsame url Hurl.
    apply (count_none_zero
             (fun u => files (snd (CaseLaw.download_tars env self dir ttotal idx
                                     tars w))
                         !! Str.path_join dir (Str.last_item (Str.split "/" u)))
             tars); [lia | exact Hurl].
Qed.

Lemma X5_witness :
  is_Some (files (snd (CourtListener.download_all bucket_env 2 1 0 0
                         ["bulk-data/a.bz2"; "other/a.bz2"] empty_world))
             !! destination "other/a.bz2")
  /\ is_Some (files (snd (CaseLaw.download_tars demo_env
                            (CaseLaw.init "http://h/" "out") "out/r" 1 1
                            ["http://h/r/a.tar"] empty_world))
                !! "out/r/a.tar").
Proof.
  destruct (X5_missing_files_are_counted_as_failures bucket_env empty_world
              ["bulk-data/a.bz2"; "other/a.bz2"] 2 1 0 0 2 0
              [] "" (CaseLaw.init "" "") (CaseLaw.init "" "") 0 0)
    as [Hstore _].
  destruct (X5_missing_files_are_counted_as_failures demo_env empty_world
              [] 0 0 0 0 0 0
              ["http://h/r/a.tar"] "out/r" (CaseLaw.init "http://h/" "out")
              (CaseLaw.mkCrawler "http://h/" "out" 1 0 0) 1 1)
    as [_ Htree].
  split.
  - destruct Hstore as [_ Hall]; [vm_compute; reflexivity|].
    apply Hall; [reflexivity | right; left; reflexivity].
  - destruct Htree as [_ Hall]; [vm_compute; reflexivity|].
    apply (Hall eq_refl "http://h/r/a.tar"). left; reflexivity.
Defined.

(** X13: a run without failures is complete.  When a download loop has
    returned without counting a failure, running it again over the same
    items, from the state it left, counts every item as successful
    (object-store script) or skipped (tree host), issues no request and
    leaves the disk as it is; the tree-host loop then takes no pause
    either. *)
Theorem X13_after_a_run_without_failures_nothing_is_fetched (env : Env)
    (w : World) (keys : list string) (total i s f s' total2 i2 s2 f2 : nat)
    (tars : list string) (dir : string)
    (self self' self2 : CaseLaw.CaseLawCrawler) (ttotal idx ttotal2 idx2 : nat) :
  let store := CourtListener.download_all env total i s f keys w in
  let tree := CaseLaw.download_tars env self dir ttotal idx tars w in
  (fst store = Ret (s', f) ->
   exists w',
     CourtListener.download_all env total2 i2 s2 f2 keys (snd store)
     = (Ret ((s2 + length keys)%nat, f2), w')
     /\ requests w' = requests (snd store)
     /\ files w' = files (snd store))
  /\ (fst tree = Ret self' ->
      CaseLaw.failed_count self' = CaseLaw.failed_count self ->
      exists w',
        CaseLaw.download_tars env self2 dir ttotal2 idx2 tars (snd tree)
        = (Ret (CaseLaw.mkCrawler (CaseLaw.base_url self2) (CaseLaw.output_dir self2)
                  (CaseLaw.downloaded_count self2) (CaseLaw.failed_count self2)
                  (CaseLaw.skipped_count self2 + length tars)), w')
        /\ requests w' = requests (snd tree)
        /\ files w' = files (snd tree)
        /\ naps w' = naps (snd tree)).
Proof.
  cbv zeta. split.
  - intros Hrun. apply download_all_skips.
    pose proof (download_all_missing env total keys i s f s' f w Hrun) as Hbound.
    apply (count_none_zero
             (fun k0 => files (snd (CourtListener.download_all env total i s f
                                      keys w)) !! destination k0) keys). lia.
  - intros Hrun Hsame. apply download_tars_skips.
    pose proof (download_tars_missing env dir ttotal tars self self' idx w Hrun)
      as Hbound.
    apply (count_none_zero
             (fun u => files (snd (CaseLaw.download_tars env self dir ttotal idx
                                     tars w))
                         !! Str.path_join dir (Str.last_item (Str.split "/" u)))
             tars). lia.
Qed.

Lemma X13_witness :
  (exists w',
     CourtListener.download_all bucket_env 2 1 0 0
       ["bulk-data/a.bz2"; "other/a.bz2"]
       (snd (CourtListener.download_all bucket_env 2 1 0 0
               ["bulk-data/a.bz2"; "other/a.bz2"] empty_world))
     = (Ret (2, 0)%nat, w')
     /\ requests w'
        = requests (snd (CourtListener.download_all bucket_env 2 1 0 0
                           ["bulk-data/a.bz2"; "other/a.bz2"] empty_world)))
  /\ (exists w',
        CaseLaw.download_tars demo_env (CaseLaw.init "http://h/" "out") "out/r" 1 1
          ["http://h/r/a.tar"]
          (snd (CaseLaw.download_tars demo_env (CaseLaw.init "http://h/" "out")
                  "out/r" 1 1 ["http://h/r/a.tar"] empty_world))
        = (Ret (CaseLaw.mkCrawler "http://h/" "out" 0 0 1), w')
        /\ naps w'
           = naps (snd (CaseLaw.download_tars demo_env
                          (CaseLaw.init "http://h/" "out")
                          "out/r" 1 1 ["http://h/r/a.tar"] empty_world))).
Proof.
  destruct (X13_after_a_run_without_failures_nothing_is_fetched bucket_env
              empty_world ["bulk-data/a.bz2"; "other/a.bz2"] 2 1 0 0 2 2 1 0 0
              [] "" (CaseLaw.init "" "") (CaseLaw.init "" "") (CaseLaw.init "" "")
              0 0 0 0) as [Hstore _].
  destruct (X13_after_a_run_without_failures_nothing_is_fetched demo_env
              empty_world [] 0 0 0 0 0 0 0 0 0
              ["http://h/r/a.tar"] "out/r" (CaseLaw.init "http://h/" "out")
              (CaseLaw.mkCrawler "http://h/" "out" 1 0 0)
              (CaseLaw.init "http://h/" "out") 1 1 1 1) as [_ Htree].
  split.
  - destruct Hstore as (w' & Hrun & Hreq & _); [vm_compute; reflexivity|].
    exists w'. split; [exact Hrun | exact Hreq].
  - destruct Htree as (w' & Hrun & _ & _ & Hnaps);
      [vm_compute; reflexivity | reflexivity|].
    exists w'. split; [exact Hrun | exact Hnaps].
Defined.

(** ** How the object-store script ends without downloading *)

(** X6: the object-store script downloads only after the exact answer [y]
    or [Y].  With [start] the state after the output directory is made and
    announced: if discovery finds nothing (no listing or an empty one) the
    script ends with exit status 1; if it finds keys and the standard input
    is at its end, [input] raises [EOFError]; and if the line read is
    anything but [y] or [Y], the script ends with exit status 0.  In all
    three cases no request follows those of discovery and no file on disk
    is created, changed or removed. *)
Theorem X6_no_download_without_the_answer_y (env : Env) (w : World)
    (found : option (list string)) :
  let start := snd ((mkdir CourtListener.output_dir ;;;
                     print (OutputDirectory CourtListener.output_dir))%py w) in
  let listing := CourtListener.discover env start in
  let run := CourtListener.main env w in
  fst listing = Ret found ->
  (CourtListener.falsy found = true ->
   fst run = Raise (SystemExit 1)
   /\ requests (snd run) = requests (snd listing)
   /\ files (snd run) = files w)
  /\ (CourtListener.falsy found = false -> stdin w = [] ->
      fst run = Raise EOFError
      /\ requests (snd run) = requests (snd listing)
      /\ files (snd run) = files w)
  /\ (forall answer more,
        CourtListener.falsy found = false -> stdin w = answer :: more ->
        answer <> "y" -> answer <> "Y" ->
        fst run = Raise (SystemExit 0)
        /\ requests (snd run) = requests (snd listing)
        /\ files (snd run) = files w
        /\ stdin (snd run) = more).
Proof.
  intros start listing run Hfound.
  assert (Hmain : run = bind (CourtListener.discover env)
                          (CourtListener.after_discovery env) start)
    by reflexivity.
  assert (Hfiles : files (snd listing) = files w)
    by (unfold listing; now rewrite files_discover).
  assert (Hstdin : stdin (snd listing) = stdin w)
    by (unfold listing; now rewrite stdin_discover).
  assert (Hrun : run = CourtListener.after_discovery env found (snd listing)).
  { rewrite Hmain. unfold bind. fold listing.
    destruct listing as [o w1]. simpl in Hfound. now subst o. }
  clearbody run listing. clear Hmain. subst run.
  split; [|split].
  - intros Hf. destruct found as [[|k keys]|]; try discriminate Hf;
      simpl; repeat split; assumption.
  - intros Hf Hin. destruct found as [[|k keys]|]; try discriminate Hf.
    destruct (after_discovery_prompt env k keys (snd listing))
      as (w1 & Hf1 & Hr1 & Hs1 & ->).
    rewrite bind_input_end by congruence. simpl.
    repeat split; congruence.
  - intros answer more Hf Hin Hy HY.
    destruct found as [[|k keys]|]; try discriminate Hf.
    destruct (after_discovery_prompt env k keys (snd listing))
      as (w1 & Hf1 & Hr1 & Hs1 & ->).
    assert (Hno : CourtListener.says_yes answer = false).
    { unfold CourtListener.says_yes.
      destruct (String.eqb_spec answer "y"); [contradiction|].
      destruct (String.eqb_spec answer "Y"); [contradiction | reflexivity]. }
    rewrite (bind_input_line _ _ answer more) by congruence.
    cbv beta. rewrite Hno. simpl. repeat split; congruence.
Qed.

Lemma X6_witness :
  fst (CourtListener.main bucket_env (world_answering "yes")) = Raise (SystemExit 0)
  /\ files (snd (CourtListener.main bucket_env (world_answering "yes")))
     = files (world_answering "yes")
  /\ fst (CourtListener.main bucket_env empty_world) = Raise EOFError.
Proof.
  destruct (X6_no_download_without_the_answer_y bucket_env (world_answering "yes")
              (Some ["bulk-data/a.bz2"; "bulk-data/b.bz2"]))
    as (_ & _ & Hno); [vm_compute; reflexivity|].
  destruct (Hno "yes" []) as (Hexit & _ & Hfiles & _);
    [reflexivity | reflexivity | discriminate | discriminate |].
  destruct (X6_no_download_without_the_answer_y bucket_env empty_world
              (Some ["bulk-data/a.bz2"; "bulk-data/b.bz2"]))
    as (_ & Heof & _); [vm_compute; reflexivity|].
  destruct Heof as (Heof & _); [reflexivity | reflexivity |].
  split; [exact Hexit | split; [exact Hfiles | exact Heof]].
Defined.

(** ** What discovery returns *)

Section Yields.

Lemma yields_ret {A} (P : A -> Prop) (a : A) : P a -> yields P (ret a).
Proof. intros H w a' [= <-]. exact H. Qed.

Lemma yields_raise {A} (P : A -> Prop) (e : exn) : yields P (raise e).
Proof. intros w a H. discriminate H. Qed.

Lemma yields_bind {A B} (P : B -> Prop) (m : M A) (k : A -> M B) :
  (forall a, yields P (k a)) -> yields P (bind m k).
Proof.
  intros Hk w b. unfold bind.
  destruct (m w) as [[a|e] w1]; [apply Hk | discriminate].
Qed.

Lemma yields_bind_post {A B} (P0 : A -> Prop) (P : B -> Prop) (m : M A)
    (k : A -> M B) :
  yields P0 m -> (forall a, P0 a -> yields P (k a)) -> yields P (bind m k).
Proof.
  intros Hm Hk w b. unfold bind. specialize (Hm w).
  destruct (m w) as [[a|e] w1]; [|discriminate].
  apply Hk. now apply Hm.
Qed.

Lemma yields_except_RequestException {A} (P : A -> Prop) (body handler : M A) :
  yields P body -> yields P handler ->
  yields P (except_RequestException body handler).
Proof.
  intros Hb Hh w a. unfold except_RequestException. specialize (Hb w).
  destruct (body w) as [[a'|[]] w1]; simpl in *;
    try discriminate; [exact (Hb a) | apply Hh].
Qed.

Lemma yields_except_all {A} (P : A -> Prop) (body handler : M A) :
  yields P body -> yields P handler -> yields P (except_all body handler).
Proof.
  intros Hb Hh w a. unfold except_all. specialize (Hb w).
  destruct (body w) as [[a'|e] w1]; simpl in *; [exact (Hb a) | apply Hh].
Qed.

(** The effects of a sequence whose second part relies on what the first
    part returns. *)
Lemma effects_bind_post {A B} (Q : string -> Prop) (R : Request -> Prop)
    (E : exn -> Prop) (P : A -> Prop) (m : M A) (k : A -> M B) :
  effects Q R E m -> yields P m -> (forall a, P a -> effects Q R E (k a)) ->
  effects Q R E (bind m k).
Proof.
  intros Hm Hp Hk w. unfold bind.
  destruct (Hm w) as (Hf & (new & Hn & Hall) & He). specialize (Hp w).
  destruct (m w) as [[a|e] w1]; simpl in *.
  - destruct (Hk a (Hp a eq_refl) w1) as (Hf' & (new' & Hn' & Hall') & He').
    split; [|split].
    + intros p Hq. rewrite Hf', Hf; auto.
    + exists (new ++ new'). rewrite Hn', Hn, app_assoc. split; [reflexivity|].
      apply Forall_app; auto.
    + exact He'.
  - split; [|split]; [exact Hf | now exists new |].
    intros e' [= <-]. now apply He.
Qed.

End Yields.

Section DiscoveredKeys.

Variable env : Env.

Lemma archive_keys_of_body (body : string) :
  Forall archive_key (CourtListener.bz2_only (Re.findall_Key body)).
Proof.
  apply List.Forall_forall. intros k Hk.
  unfold CourtListener.bz2_only in Hk. apply filter_In in Hk as [Hk Hbz].
  split; [exact Hbz|].
  unfold Re.findall_Key in Hk. apply in_map_iff in Hk as ([i k'] & <- & Hin).
  apply (proj1 (finditer_Key_spec body)) in Hin.
  destruct Hin as (pre & post & _ & _ & _ & Hall). exact Hall.
Qed.

Lemma archive_keys_None : archive_keys None.
Proof. intros keys H. discriminate H. Qed.

Lemma archive_keys_Some (body : string) :
  archive_keys (Some (CourtListener.bz2_only (Re.findall_Key body))).
Proof. intros keys [= <-]. apply archive_keys_of_body. Qed.

Lemma yields_get_s3_bucket_listing (url : string) :
  yields archive_keys (CourtListener.get_s3_bucket_listing env url).
Proof.
  unfold CourtListener.get_s3_bucket_listing.
  apply yields_bind. intros _.
  apply yields_except_RequestException.
  - apply yields_bind. intros r. apply yields_bind. intros _.
    apply yields_ret, archive_keys_Some.
  - apply yields_bind. intros _. apply yields_ret, archive_keys_None.
Qed.

Lemma yields_get_files_from_html_listing (url : string) :
  yields archive_keys (CourtListener.get_files_from_html_listing env url).
Proof.
  unfold CourtListener.get_files_from_html_listing.
  apply yields_bind. intros _.
  apply yields_except_RequestException.
  - apply yields_bind. intros r. apply yields_bind. intros _.
    destruct (ReBucket.search_bucket (text r)).
    + apply yields_bind. intros _. apply yields_get_s3_bucket_listing.
    + apply yields_bind. intros _. apply yields_ret, archive_keys_None.
  - apply yields_bind. intros _. apply yields_ret, archive_keys_None.
Qed.

Lemma yields_try_endpoints (endpoints : list string) :
  yields archive_keys (CourtListener.try_endpoints env endpoints).
Proof.
  induction endpoints as [|e rest IH]; cbn [CourtListener.try_endpoints].
  - apply yields_ret, archive_keys_None.
  - apply (yields_bind_post archive_keys).
    + unfold CourtListener.try_endpoint.
      apply yields_except_all; [|apply yields_ret, archive_keys_None].
      apply yields_bind. intros _. apply yields_bind. intros r.
      destruct (status_code r =? 200); [|apply yields_ret, archive_keys_None].
      cbv zeta.
      destruct (CourtListener.bz2_only (Re.findall_Key (text r))) eqn:Hk.
      * apply yields_ret, archive_keys_None.
      * apply yields_bind. intros _. apply yields_ret.
        rewrite <- Hk. apply archive_keys_Some.
    + intros [found|] Hfound; [now apply yields_ret | exact IH].
Qed.

Lemma yields_get_files_alternative_method (base : string) :
  yields archive_keys (CourtListener.get_files_alternative_method env base).
Proof.
  unfold CourtListener.get_files_alternative_method.
  apply yields_bind. intros _. apply yields_try_endpoints.
Qed.

Lemma yields_discover : yields archive_keys (CourtListener.discover env).
Proof.
  unfold CourtListener.discover.
  apply (yields_bind_post archive_keys);
    [apply yields_get_files_from_html_listing|]. intros r1 H1.
  apply (yields_bind_post archive_keys).
  - destruct (CourtListener.falsy r1);
      [apply yields_get_files_alternative_method | now apply yields_ret].
  - intros r2 H2. destruct (CourtListener.falsy r2); [|now apply yields_ret].
    apply yields_bind. intros _. apply yields_get_s3_bucket_listing.
Qed.

End DiscoveredKeys.

(** X7: whichever of the three discovery methods answers, every key that
    is handed to the download loop ends in [.bz2] and contains no [<]; the
    same holds for each listing function on its own. *)
Theorem X7_discovery_returns_only_archive_keys (env : Env) (w : World)
    (url base : string) (keys : list string) :
  fst (CourtListener.discover env w) = Ret (Some keys)
  \/ fst (CourtListener.get_s3_bucket_listing env url w) = Ret (Some keys)
  \/ fst (CourtListener.get_files_from_html_listing env url w) = Ret (Some keys)
  \/ fst (CourtListener.get_files_alternative_method env base w) = Ret (Some keys) ->
  forall k, In k keys ->
    Str.endswith k ".bz2" = true /\ Str.all_chars Re.not_lt k = true.
Proof.
  intros H k Hk.
  assert (Hall : Forall archive_key keys).
  { destruct H as [H | [H | [H | H]]].
    - exact (yields_discover env w _ H keys eq_refl).
    - exact (yields_get_s3_bucket_listing env url w _ H keys eq_refl).
    - exact (yields_get_files_from_html_listing env url w _ H keys eq_refl).
    - exact (yields_get_files_alternative_method env base w _ H keys eq_refl). }
  exact (proj1 (List.Forall_forall _ _) Hall k Hk).
Qed.

Lemma X7_witness :
  Str.endswith "bulk-data/b.bz2" ".bz2" = true
  /\ Str.all_chars Re.not_lt "bulk-data/b.bz2" = true.
Proof.
  apply (X7_discovery_returns_only_archive_keys bucket_env empty_world "" ""
           ["bulk-data/a.bz2"; "bulk-data/b.bz2"]);
    [left; vm_compute; reflexivity | right; left; reflexivity].
Defined.

(** ** Where the scripts write *)

Section FileNames.

Lemma all_chars_app (p : ascii -> bool) (s t : string) :
  Str.all_chars p (s +:+ t) = Str.all_chars p s && Str.all_chars p t.
Proof.
  induction s as [|a s IH]; simpl; [reflexivity|].
  now rewrite IH, andb_assoc.
Qed.

Lemma app_eq_app_str (a b c d : string) :
  a +:+ b = c +:+ d ->
  (exists e, c = a +:+ e /\ b = e +:+ d) \/ (exists e, a = c +:+ e /\ d = e +:+ b).
Proof.
  revert c. induction a as [|x a IH]; intros c H.
  - left. exists c. split; [reflexivity | exact H].
  - destruct c as [|y c].
    + right. exists (String x a). split; [reflexivity | exact (eq_sym H)].
    + simpl in H. injection H as <- H.
      destruct (IH c H) as [(e & -> & ->) | (e & -> & ->)].
      * left. now exists e.
      * right. now exists e.
Qed.

(** The last item of a split at slashes contains no slash. *)
Lemma last_item_no_slash (s : string) :
  Str.all_chars not_slash (Str.last_item (Str.split "/" s)) = true.
Proof.
  destruct (tail_decomposition s) as (pre & n & -> & Hpre & Hn).
  now rewrite last_split_tail.
Qed.

(** A suffix without a slash survives taking the last item. *)
Lemma last_item_endswith (s suf : string) :
  Str.all_chars not_slash suf = true ->
  Str.endswith s suf = true ->
  Str.endswith (Str.last_item (Str.split "/" s)) suf = true.
Proof.
  intros Hsuf Hs.
  destruct (tail_decomposition s) as (pre & n & -> & Hpre & Hn).
  rewrite last_split_tail by assumption.
  apply endswith_spec in Hs as [p Hp]. apply endswith_spec.
  destruct (app_eq_app_str _ _ _ _ Hp) as [(e & _ & Hn') | (e & Hpre' & Hsuf')].
  - now exists e.
  - destruct e as [|x e]; [exists ""; now rewrite Hsuf'|].
    exfalso.
    assert (He : exists e', String x e = e' +:+ "/").
    { destruct Hpre as [Hnil | [pre' Hslash]].
      - rewrite Hnil in Hpre'. destruct p; discriminate Hpre'.
      - rewrite Hslash in Hpre'.
        destruct (app_eq_app_str _ _ _ _ Hpre') as [(e2 & _ & He2) | (e2 & _ & He2)].
        + destruct e2 as [|y e2]; simpl in He2.
          * exists "". now rewrite <- He2.
          * injection He2 as _ He2. destruct e2; discriminate He2.
        + now exists e2. }
    destruct He as [e' He']. rewrite He' in Hsuf'. subst suf.
    rewrite !all_chars_app in Hsuf. simpl in Hsuf.
    rewrite andb_false_r in Hsuf. discriminate Hsuf.
Qed.

Lemma startswith_no_slash (name : string) :
  Str.all_chars not_slash name = true -> Str.startswith name "/" = false.
Proof.
  destruct name as [|a name]; [reflexivity|].
  cbn [Str.all_chars]. intros H.
  apply andb_true_iff in H as [Ha _].
  unfold not_slash, is_slash in Ha. apply negb_true_iff in Ha.
  unfold Str.startswith. cbn [Str.strip_prefix].
  destruct (Str.chr_eqb "/" a) eqn:E; [|reflexivity].
  apply chr_eqb_eq in E. subst a. rewrite chr_eqb_refl in Ha. discriminate Ha.
Qed.

(** The destination of a key that ends in [.bz2]. *)
Lemma destination_of_archive_key (k : string) :
  Str.endswith k ".bz2" = true -> archive_destination (destination k).
Proof.
  intros Hk. exists (Str.basename k).
  pose proof (last_item_no_slash k) as Hn. fold (Str.basename k) in Hn.
  split; [|split; [exact Hn | now apply last_item_endswith]].
  unfold destination, Str.path_join. now rewrite startswith_no_slash.
Qed.

End FileNames.

Section TimedDiscovery.

Variable env : Env.

Lemma page_request_timed (url : string) :
  script_request (mkRequest url [] false 30).
Proof. left. split; reflexivity. Qed.

Lemma effects_listing_timed (url : string) :
  effects no_path script_request no_exn
          (CourtListener.get_s3_bucket_listing env url).
Proof.
  eapply effects_weaken; [| | |apply effects_get_s3_bucket_listing]; auto.
  intros rq <-. left. split; reflexivity.
Qed.

Lemma effects_html_listing_timed (url : string) :
  effects no_path script_request no_exn
          (CourtListener.get_files_from_html_listing env url).
Proof.
  unfold CourtListener.get_files_from_html_listing.
  apply effects_bind; [apply effects_print|]. intros _.
  apply effects_except_RequestException; [|fx].
  apply effects_bind;
    [apply effects_http_get; [apply page_request_timed | now left]|]. intros r.
  apply effects_bind; [fx|]. intros _.
  destruct (ReBucket.search_bucket (text r)); [|fx].
  apply effects_bind; [fx|]. intros _.
  eapply effects_weaken; [| | |apply effects_listing_timed]; auto.
Qed.

Lemma effects_try_endpoints_timed (endpoints : list string) :
  effects no_path script_request no_exn
          (CourtListener.try_endpoints env endpoints).
Proof.
  induction endpoints as [|e rest IH]; simpl; [fx|].
  apply effects_bind; [|intros [found|]; [fx | exact IH]].
  unfold CourtListener.try_endpoint.
  apply effects_except_all with (E' := fun _ => True); [|fx].
  apply effects_bind; [fx|]. intros _.
  apply effects_bind;
    [apply effects_http_get; [apply page_request_timed | exact I]|]. intros r.
  destruct (status_code r =? 200); [|fx].
  cbv zeta. destruct (CourtListener.bz2_only _); fx.
Qed.

Lemma effects_discover_timed :
  effects no_path script_request no_exn (CourtListener.discover env).
Proof.
  unfold CourtListener.discover.
  apply effects_bind; [apply effects_html_listing_timed|]. intros r1.
  apply effects_bind.
  - destruct (CourtListener.falsy r1); [|fx].
    unfold CourtListener.get_files_alternative_method.
    apply effects_bind; [fx | intros _; apply effects_try_endpoints_timed].
  - intros r2. destruct (CourtListener.falsy r2); [|fx].
    apply effects_bind; [fx | intros _; apply effects_listing_timed].
Qed.

End TimedDiscovery.

Section WrittenPaths.

Variable env : Env.

Lemma effects_download_all_archives (total : nat) (keys : list string) :
  forall (i successful failed : nat),
    Forall archive_key keys ->
    effects archive_destination script_request any_exn
            (CourtListener.download_all env total i successful failed keys).
Proof.
  induction keys as [|k rest IH]; intros i s f Hkeys; simpl; [fx|].
  apply Forall_cons_1 in Hkeys as [[Hk _] Hrest].
  apply effects_bind; [fx|]. intros _.
  apply effects_bind.
  - eapply effects_weaken; [| | |apply effects_courtlistener_download_file].
    + intros p <-. now apply destination_of_archive_key.
    + intros rq <-. right. repeat split.
    + intros; exact I.
  - intros ok. destruct ok; now apply IH.
Qed.

Lemma effects_after_discovery_archives (found : option (list string)) :
  archive_keys found ->
  effects archive_destination script_request any_exn
          (CourtListener.after_discovery env found).
Proof.
  intros Hfound.
  unfold CourtListener.after_discovery, any_exn.
  destruct found as [[|k keys]|]; [fx| |fx].
  do 2 (apply effects_bind; [fx | intros _]).
  apply effects_bind; [apply effects_print_listing | intros _].
  apply effects_bind; [destruct (_ <? _)%nat; fx | intros _].
  apply effects_bind; [fx | intros response].
  destruct (negb (CourtListener.says_yes response)); [fx|].
  apply effects_bind;
    [apply effects_download_all_archives; now apply Hfound | intros [s f]].
  fx.
Qed.

Lemma effects_main_archives :
  effects archive_destination script_request any_exn (CourtListener.main env).
Proof.
  unfold CourtListener.main.
  do 2 (apply effects_bind; [unfold any_exn; fx | intros _]).
  apply (effects_bind_post _ _ _ archive_keys).
  - eapply effects_weaken; [| | |apply effects_discover_timed];
      [intros p [] | auto | intros e []].
  - apply yields_discover.
  - apply effects_after_discovery_archives.
Qed.

End WrittenPaths.



Section TreePaths.

Variable env : Env.

Lemma yields_get_page_links_any (url : string) :
  yields (fun _ => True) (CaseLaw.get_page_links env url).
Proof. intros w a _. exact I. Qed.

Lemma yields_get_tar_files (url : string) :
  yields (Forall (fun link => Str.endswith link ".tar" = true))
         (CaseLaw.get_tar_files env url).
Proof.
  unfold CaseLaw.get_tar_files. apply yields_bind. intros links.
  apply yields_ret. apply List.Forall_forall. intros link Hin.
  now apply filter_In in Hin as [_ Htar].
Qed.

Lemma yields_get_reporter_directories (self : CaseLaw.CaseLawCrawler) :
  yields (Forall reporter_entry) (CaseLaw.get_reporter_directories env self).
Proof.
  unfold CaseLaw.get_reporter_directories.
  apply yields_bind. intros _. apply yields_bind. intros links.
  apply yields_ret. apply List.Forall_forall. intros [name url] Hin.
  apply list_elem_of_In, list_elem_of_omap in Hin as (link & _ & Hrep).
  apply reporter_of_spec in Hrep as (_ & _ & _ & (Hne & Hslash & _) & _).
  split; assumption.
Qed.

Lemma yields_download_tars (dir : string) (total : nat) (tars : list string) :
  forall (self : CaseLaw.CaseLawCrawler) (idx : nat),
    yields (fun self' => CaseLaw.output_dir self' = CaseLaw.output_dir self)
           (CaseLaw.download_tars env self dir total idx tars).
Proof.
  induction tars as [|url rest IH]; intros self idx w self' Hrun.
  - now injection Hrun as <-.
  - destruct (download_tars_round env self dir total idx url rest w)
      as [(_ & Heq) | [(_ & w2 & _ & Heq) | [(_ & w2 & _ & Heq)
         | (_ & e & w2 & _ & Heq)]]];
      rewrite Heq in Hrun; [| | |discriminate Hrun];
      apply IH in Hrun; exact Hrun.
Qed.

Lemma effects_download_tars_archives (out reporter : string) (total : nat)
    (tars : list string) :
  reporter <> "" -> Str.all_chars not_slash reporter = true ->
  Forall (fun link => Str.endswith link ".tar" = true) tars ->
  forall (self : CaseLaw.CaseLawCrawler) (idx : nat),
    effects (archive_path out) script_request any_exn
            (CaseLaw.download_tars env self (Str.path_join out reporter)
               total idx tars).
Proof.
  intros Hne Hslash Htars.
  induction Htars as [|url rest Hurl _ IH]; intros self idx;
    cbn [CaseLaw.download_tars]; [unfold any_exn; fx|].
  cbv zeta.
  apply effects_bind; [unfold any_exn; fx | intros present].
  destruct present.
  - apply effects_bind; [unfold any_exn; fx | intros _; apply IH].
  - apply effects_bind; [unfold any_exn; fx | intros _].
    apply effects_bind.
    + eapply effects_weaken; [| | |apply effects_caselaw_download_file].
      * intros p <-. exists reporter, (Str.last_item (Str.split "/" url)).
        split; [reflexivity|]. split; [exact Hne|]. split; [exact Hslash|].
        split; [apply last_item_no_slash | now apply last_item_endswith].
      * intros rq <-. right. repeat split.
      * intros; exact I.
    + intros ok. apply effects_bind; [destruct ok; unfold any_exn; fx | intros self'].
      apply effects_bind; [unfold any_exn; fx | intros _; apply IH].
Qed.

Lemma effects_process_reporters_archives (out : string) (total : nat)
    (reporters : list (string * string)) :
  Forall reporter_entry reporters ->
  forall (self : CaseLaw.CaseLawCrawler) (idx : nat),
    CaseLaw.output_dir self = out ->
    effects (archive_path out) script_request any_exn
            (CaseLaw.process_reporters env self total idx reporters).
Proof.
  intros Hall.
  induction Hall as [|[name url] rest [Hne Hslash] _ IH]; intros self idx Hout;
    cbn [CaseLaw.process_reporters]; [unfold any_exn; fx|].
  simpl in Hne, Hslash. cbv zeta. rewrite Hout.
  do 2 (apply effects_bind; [unfold any_exn; fx | intros _]).
  apply (effects_bind_post _ _ _
           (Forall (fun link => Str.endswith link ".tar" = true))).
  - unfold CaseLaw.get_tar_files.
    apply effects_bind; [|intros links; unfold any_exn; fx].
    eapply effects_weaken; [| | |apply effects_get_page_links];
      [intros p [] | intros rq <-; apply page_request_timed | intros e _; exact I].
  - apply yields_get_tar_files.
  - intros tars Htars. destruct tars as [|t tars].
    + apply effects_bind; [unfold any_exn; fx | intros _; now apply IH].
    + apply effects_bind; [unfold any_exn; fx | intros _].
      apply (effects_bind_post _ _ _
               (fun self' => CaseLaw.output_dir self' = CaseLaw.output_dir self)).
      * now apply effects_download_tars_archives.
      * apply yields_download_tars.
      * intros self' Hself'.
        apply effects_bind; [unfold any_exn; fx | intros _].
        apply IH. congruence.
Qed.

Lemma Forall_slice_to {A} (P : A -> Prop) (n : Z) (xs : list A) :
  Forall P xs -> Forall P (CaseLaw.slice_to n xs).
Proof.
  intros H. unfold CaseLaw.slice_to. destruct (n <? 0); now apply Forall_take.
Qed.

Lemma effects_crawl_and_download_archives (self : CaseLaw.CaseLawCrawler)
    (limit : option Z) :
  effects (archive_path (CaseLaw.output_dir self)) script_request any_exn
          (CaseLaw.crawl_and_download env self limit).
Proof.
  unfold CaseLaw.crawl_and_download.
  do 4 (apply effects_bind; [unfold any_exn; fx | intros _]).
  apply (effects_bind_post _ _ _ (Forall reporter_entry)).
  - unfold CaseLaw.get_reporter_directories.
    apply effects_bind; [unfold any_exn; fx | intros _].
    apply effects_bind; [|intros links; unfold any_exn; fx].
    eapply effects_weaken; [| | |apply effects_get_page_links];
      [intros p [] | intros rq <-; apply page_request_timed | intros e _; exact I].
  - apply yields_get_reporter_directories.
  - intros reporters Hall. destruct reporters as [|r reporters];
      [unfold any_exn; fx|].
    apply effects_bind; [unfold any_exn; fx | intros _].
    apply (effects_bind_post _ _ _ (Forall reporter_entry)).
    + destruct limit as [n|]; [|unfold any_exn; fx].
      destruct (n =? 0); unfold any_exn; fx.
    + destruct limit as [n|]; [|now apply yields_ret].
      destruct (n =? 0); [now apply yields_ret|].
      apply yields_bind. intros _. apply yields_ret. now apply Forall_slice_to.
    + intros limited Hlimited.
      apply effects_bind; [unfold any_exn; fx | intros _].
      apply effects_bind;
        [now apply effects_process_reporters_archives | intros self'].
      unfold any_exn; fx.
Qed.

End TreePaths.

Section Resolution.





End Resolution.



(** A reporter directory named [..] puts its archives beside the output
    directory, not below it. *)
Example a_reporter_named_dotdot_leaves_the_output_directory :
  let run := CaseLaw.crawl_and_download dotdot_env (CaseLaw.init "http://h/" "out")
               None empty_world in
  files (snd run) !! "out/../a.tar" = Some [x01]
  /\ Path.resolve "/home/u" "out/../a.tar" = Path.resolve "/home/u" "a.tar".
Proof. vm_compute. split; reflexivity. Qed.

(** ** The reporters a crawl processes *)

Section Directories.

Variable env : Env.

Lemma same_dirs_bind {A B} (m : M A) (k : A -> M B) :
  same_dirs m -> (forall a, same_dirs (k a)) -> same_dirs (bind m k).
Proof.
  intros Hm Hk w. unfold bind. specialize (Hm w).
  destruct (m w) as [[a|e] w1]; simpl in *; [now rewrite Hk | exact Hm].
Qed.

Lemma same_dirs_except_RequestException {A} (body handler : M A) :
  same_dirs body -> same_dirs handler ->
  same_dirs (except_RequestException body handler).
Proof.
  intros Hb Hh w. unfold except_RequestException. specialize (Hb w).
  destruct (body w) as [[a|[]] w1]; simpl in *; try exact Hb.
  now rewrite Hh.
Qed.

Lemma same_dirs_http_get (rq : Request) : same_dirs (http_get env rq).
Proof. intros w. unfold http_get. now destruct (respond env (requests w) rq). Qed.

Lemma same_dirs_raise_for_status (r : Response) : same_dirs (raise_for_status r).
Proof. intros w. unfold raise_for_status. now destruct (is_error_status r). Qed.

Lemma same_dirs_total_size_of (r : Response) : same_dirs (total_size_of r).
Proof. intros w. unfold total_size_of. now destruct (content_length r). Qed.

Lemma same_dirs_write_chunks (path : string) (total : Z) (cs : list (list byte)) :
  forall done, same_dirs (write_chunks env path total done cs).
Proof.
  induction cs as [|chunk cs IH]; intros done; [easy|].
  destruct chunk as [|b chunk]; [apply IH|].
  cbn [write_chunks]. apply same_dirs_bind.
  - intros w. unfold write. now destruct (write_ok env path _ _).
  - intros _. apply same_dirs_bind; [|intros _; apply IH].
    destruct (0 <? total); [destruct (progress_overflows _ total)|]; easy.
Qed.

Lemma same_dirs_stream_to_file (path : string) (total : Z) (r : Response) :
  same_dirs (stream_to_file env path total r).
Proof.
  unfold stream_to_file. apply same_dirs_bind.
  - intros w. unfold open_wb. now destruct (open_ok env path).
  - intros _. apply same_dirs_bind; [apply same_dirs_write_chunks | intros _].
    now destruct (truncated r).
Qed.

Lemma same_dirs_get_page_links (url : string) :
  same_dirs (CaseLaw.get_page_links env url).
Proof.
  unfold CaseLaw.get_page_links.
  apply same_dirs_except_RequestException; [|easy].
  apply same_dirs_bind; [apply same_dirs_http_get | intros r].
  apply same_dirs_bind; [apply same_dirs_raise_for_status | intros _].
  now destruct (CaseLaw.resolve_anchors env url _).
Qed.

Lemma same_dirs_get_tar_files (url : string) :
  same_dirs (CaseLaw.get_tar_files env url).
Proof.
  unfold CaseLaw.get_tar_files.
  apply same_dirs_bind; [apply same_dirs_get_page_links | easy].
Qed.

Lemma same_dirs_caselaw_download_file (url path : string) :
  same_dirs (CaseLaw.download_file env url path).
Proof.
  unfold CaseLaw.download_file.
  apply same_dirs_except_RequestException.
  - apply same_dirs_bind; [apply same_dirs_http_get | intros r].
    apply same_dirs_bind; [apply same_dirs_raise_for_status | intros _].
    apply same_dirs_bind; [apply same_dirs_total_size_of | intros n].
    apply same_dirs_bind; [apply same_dirs_stream_to_file | easy].
  - apply same_dirs_bind; [easy | intros _].
    apply same_dirs_bind; [easy | intros present].
    apply same_dirs_bind; [now destruct present | easy].
Qed.

Lemma same_dirs_download_tars (dir : string) (total : nat) (tars : list string) :
  forall (self : CaseLaw.CaseLawCrawler) (idx : nat),
    same_dirs (CaseLaw.download_tars env self dir total idx tars).
Proof.
  induction tars as [|url rest IH]; intros self idx; [easy|].
  cbn [CaseLaw.download_tars]. cbv zeta.
  apply same_dirs_bind; [easy | intros present]. destruct present.
  - apply same_dirs_bind; [easy | intros _; apply IH].
  - apply same_dirs_bind; [easy | intros _].
    apply same_dirs_bind; [apply same_dirs_caselaw_download_file | intros ok].
    apply same_dirs_bind; [now destruct ok | intros self'].
    apply same_dirs_bind; [easy | intros _; apply IH].
Qed.

Lemma union_swap (a b c : gset string) : a ∪ (b ∪ c) = b ∪ a ∪ c.
Proof. rewrite (assoc_L (∪)). f_equal. apply (comm_L (∪)). Qed.

(** The outer loop makes the directory of every reporter it is given,
    whether or not the reporter has archives. *)
Lemma process_reporters_dirs (out : string) (total : nat)
    (reporters : list (string * string)) :
  forall (self self' : CaseLaw.CaseLawCrawler) (idx : nat) (w : World),
    CaseLaw.output_dir self = out ->
    fst (CaseLaw.process_reporters env self total idx reporters w) = Ret self' ->
    made_dirs (snd (CaseLaw.process_reporters env self total idx reporters w))
    = list_to_set (map (reporter_dir_of out) reporters) ∪ made_dirs w.
Proof.
  induction reporters as [|[name url] rest IH]; intros self self' idx w Hout Hrun.
  - simpl. symmetry. apply (left_id_L ∅ (∪)).
  - cbn [CaseLaw.process_reporters] in *. cbv zeta in *.
    rewrite bind_print in *. rewrite Hout in *.
    set (w1 := snd (mkdir (Str.path_join out name)
                      (add_line (Processing idx total name) w))) in *.
    change (bind (mkdir (Str.path_join out name)) ?k
              (add_line (Processing idx total name) w))
      with (k tt w1) in *.
    cbv beta in *.
    assert (H1 : made_dirs w1 = {[Str.path_join out name]} ∪ made_dirs w)
      by reflexivity.
    pose proof (same_dirs_get_tar_files url w1) as H2.
    unfold bind at 1 in Hrun. unfold bind at 1.
    destruct (CaseLaw.get_tar_files env url w1) as [[tars|e] w2];
      [|discriminate Hrun].
    simpl in H2. destruct tars as [|t tars].
    + rewrite bind_print in *.
      rewrite (IH self self' (S idx) _ Hout Hrun). simpl.
      rewrite H2. apply union_swap.
    + rewrite bind_print in *.
      pose proof (same_dirs_download_tars (Str.path_join out name)
                    (length (t :: tars)) (t :: tars) self 1
                    (add_line (FoundCount (length (t :: tars)) "tar file(s)") w2))
        as H3.
      pose proof (yields_download_tars env (Str.path_join out name)
                    (length (t :: tars)) (t :: tars) self 1
                    (add_line (FoundCount (length (t :: tars)) "tar file(s)") w2))
        as H4.
      unfold bind at 1 in Hrun. unfold bind at 1.
      destruct (CaseLaw.download_tars env self (Str.path_join out name)
                  (length (t :: tars)) 1 (t :: tars)
                  (add_line (FoundCount (length (t :: tars)) "tar file(s)") w2))
        as [[self2|e] w3]; [|discriminate Hrun].
      specialize (H4 self2 eq_refl). simpl in H3, H4.
      rewrite bind_print in *.
      rewrite (IH self2 self' (S idx) _ (eq_trans H4 Hout) Hrun). simpl.
      rewrite H3, H2. apply union_swap.
Qed.

Lemma slice_to_limited {A} (n : Z) (xs : list A) :
  n <> 0 -> CaseLaw.slice_to n xs = limited_to (Some n) xs.
Proof.
  intros Hn. unfold CaseLaw.slice_to, limited_to.
  destruct (Z.eqb_spec n 0) as [|_]; [contradiction|].
  destruct (Z.ltb_spec n 0), (Z.ltb_spec 0 n); try lia; [|reflexivity].
  f_equal. lia.
Qed.

End Directories.

(** X10: a crawl that returns has made a directory for exactly the
    reporters its limit selects, archives or not: all reporters of the
    root page without a limit or with the limit 0, the first [n] for a
    positive limit [n], and all but the last [-n] for a negative one. *)
Theorem X10_a_crawl_makes_the_directories_of_the_selected_reporters
    (env : Env) (self self' : CaseLaw.CaseLawCrawler) (limit : option Z)
    (w : World) (links : list string) :
  let reporters := omap (CaseLaw.reporter_of (CaseLaw.base_url self)) links in
  let run := CaseLaw.crawl_and_download env self limit w in
  page_lists env (CaseLaw.base_url self) links ->
  fst run = Ret self' ->
  made_dirs (snd run)
  = list_to_set (map (fun r => Str.path_join (CaseLaw.output_dir self) (fst r))
                   (match limit with
                    | None => reporters
                    | Some n =>
                        if n =? 0 then reporters
                        else if 0 <? n then take (Z.to_nat n) reporters
                        else take (length reporters - Z.to_nat (- n)) reporters
                    end))
    ∪ made_dirs w.
Proof.
  intros reporters run Hpage Hrun.
  change (match limit with
          | None => reporters
          | Some n =>
              if n =? 0 then reporters
              else if 0 <? n then take (Z.to_nat n) reporters
              else take (length reporters - Z.to_nat (- n)) reporters
          end) with (limited_to limit reporters).
  change (fun r : string * string => Str.path_join (CaseLaw.output_dir self) (fst r))
    with (reporter_dir_of (CaseLaw.output_dir self)).
  assert (Hdisc : forall w0, exists w1,
             CaseLaw.get_reporter_directories env self w0 = (Ret reporters, w1)
             /\ made_dirs w1 = made_dirs w0).
  { intros w0. unfold CaseLaw.get_reporter_directories. rewrite bind_print.
    destruct (get_page_links_lists env _ links
                (add_line (Text "Discovering reporter directories...") w0) Hpage)
      as (w1 & Hl & _).
    exists w1. erewrite bind_Ret by exact Hl. split; [reflexivity|].
    pose proof (same_dirs_get_page_links env (CaseLaw.base_url self)
                  (add_line (Text "Discovering reporter directories...") w0)) as Hd.
    rewrite Hl in Hd. exact Hd. }
  clearbody reporters.
  subst run. unfold CaseLaw.crawl_and_download in *.
  rewrite !bind_print in *.
  destruct (Hdisc (add_line (Text "")
                     (add_line (OutputDirectory (CaseLaw.output_dir self))
                        (add_line (Text CaseLaw.rule)
                           (add_line
                              (Text "Case Law Crawler - https://static.case.law/")
                              w))))) as (w1 & Hrd & Hd1).
  simpl in Hd1. clear Hdisc.
  erewrite bind_Ret in * by exact Hrd. cbv beta in *.
  destruct reporters as [|r rs].
  { simpl. rewrite Hd1.
    assert (Hnil : limited_to limit (@nil (string * string)) = [])
      by (unfold limited_to; destruct limit as [n|]; [|reflexivity];
          destruct (n =? 0); [reflexivity|]; destruct (0 <? n); apply take_nil).
    rewrite Hnil. simpl. symmetry. apply (left_id_L ∅ (∪)). }
  cbv iota in *. set (reporters := r :: rs) in *. clearbody reporters.
  rewrite bind_print in *.
  set (w2 := add_line (FoundCount (length reporters) "reporter directories") w1) in *.
  assert (Hlim : exists w3,
             (match limit with
              | Some n =>
                  if n =? 0 then ret reporters
                  else (print (Limiting n) ;;; ret (CaseLaw.slice_to n reporters))%py
              | None => ret reporters
              end) w2 = (Ret (limited_to limit reporters), w3)
             /\ made_dirs w3 = made_dirs w).
  { destruct limit as [n|]; [|exists w2; split; [reflexivity | exact Hd1]].
    destruct (Z.eqb_spec n 0) as [->|Hn].
    - exists w2. split; [reflexivity | exact Hd1].
    - exists (add_line (Limiting n) w2). split; [|exact Hd1].
      rewrite bind_print. unfold ret. now rewrite slice_to_limited. }
  destruct Hlim as (w3 & Hlim & Hd3).
  erewrite bind_Ret in * by exact Hlim. cbv beta in *.
  rewrite bind_print in *.
  unfold bind at 1 in Hrun. unfold bind at 1.
  pose proof (process_reporters_dirs env (CaseLaw.output_dir self)
                (length (limited_to limit reporters))
                (limited_to limit reporters) self) as Hdirs.
  destruct (CaseLaw.process_reporters env self
              (length (limited_to limit reporters)) 1
              (limited_to limit reporters) (add_line (Text "") w3))
    as [[self2|e] w4] eqn:Hproc; [|discriminate Hrun].
  specialize (Hdirs self2 1%nat (add_line (Text "") w3) eq_refl).
  rewrite Hproc in Hdirs. specialize (Hdirs eq_refl). simpl in Hdirs.
  simpl. rewrite Hdirs, Hd3. reflexivity.
Qed.

Lemma X10_witness :
  made_dirs (snd (CaseLaw.crawl_and_download demo_env
                    (CaseLaw.init "http://h/" "out") (Some 1) empty_world))
  = list_to_set (map (fun r : string * string => Str.path_join "out" (fst r))
                   (take 1 [("r", "http://h/r/")]))
    ∪ made_dirs empty_world.
Proof.
  apply (X10_a_crawl_makes_the_directories_of_the_selected_reporters demo_env
           (CaseLaw.init "http://h/" "out")
           (CaseLaw.mkCrawler "http://h/" "out" 1 1 0) (Some 1) empty_world
           ["http://h/r/"; "http://h/meta.json"; "http://h/"]).
  - exists (ok_response "root" [] false).
    split; [intros h; reflexivity | split; reflexivity].
  - vm_compute. reflexivity.
Defined.

(** ** Items that share a destination *)

(** X11: items with the same base name share one destination, and the
    later one is never fetched.  In the object-store script, once a key has
    been stored (or was already there), any key with the same base name is
    reported as successful without a request, whatever directory of the
    bucket it comes from; in the tree-host loop, once an archive of a
    reporter has been counted as downloaded or skipped, a link of that
    reporter with the same last segment is counted as skipped without a
    request. *)
Theorem X11_a_shared_name_is_fetched_once (env : Env) (w : World)
    (k1 k2 base out : string)
    (self self2 : CaseLaw.CaseLawCrawler) (dir u1 u2 : string)
    (total idx total2 idx2 : nat) :
  let first := CourtListener.download_file env k1 base out w in
  let item := CaseLaw.download_tars env self dir total idx [u1] w in
  (Str.basename k1 = Str.basename k2 ->
   fst first = Ret true ->
   CourtListener.download_file env k2 base out (snd first)
   = (Ret true, add_line (SkippingFile (Str.basename k2)) (snd first)))
  /\ (Str.last_item (Str.split "/" u1) = Str.last_item (Str.split "/" u2) ->
      fst item = Ret (CaseLaw.add_downloaded self)
      \/ fst item = Ret (CaseLaw.add_skipped self) ->
      CaseLaw.download_tars env self2 dir total2 idx2 [u2] (snd item)
      = (Ret (CaseLaw.add_skipped self2),
         add_line (Skipping idx2 total2 (Str.last_item (Str.split "/" u2)))
           (snd item))).
Proof.
  intros first item. split.
  - intros Hname H. apply courtlistener_download_file_present.
    rewrite <- Hname.
    apply (courtlistener_download_true_present env k1 base out w).
    unfold first in H.
    destruct (CourtListener.download_file env k1 base out w) as [o w1].
    simpl in H. now subst o.
  - intros Hname H.
    assert (Hp : is_Some (files (snd item)
                            !! Str.path_join dir (Str.last_item (Str.split "/" u1)))).
    { subst item.
      destruct (download_tars_round env self dir total idx u1 [] w)
        as [(Hp & Heq) | [(Hp & w2 & Hd & Heq) | [(Hp & w2 & Hd & Heq)
           | (Hp & e & w2 & Hd & Heq)]]];
        rewrite Heq in *; cbn [CaseLaw.download_tars fst snd] in *;
        unfold ret in *; cbn [fst snd] in *.
      - exact Hp.
      - exact (caselaw_download_true_present env u1 _ _ w2 Hd).
      - destruct H as [H | H]; inversion H; lia.
      - destruct H; discriminate. }
    rewrite Hname in Hp.
    destruct (download_tars_round env self2 dir total2 idx2 u2 [] (snd item))
      as [(_ & Heq) | [(Hn & _) | [(Hn & _) | (Hn & _)]]];
      [rewrite Heq; reflexivity | | |]; rewrite Hn in Hp;
      destruct Hp; discriminate.
Qed.

Lemma X11_witness :
  CourtListener.download_file bucket_env "other/a.bz2"
    CourtListener.s3_base_url CourtListener.output_dir
    (snd (CourtListener.download_file bucket_env "bulk-data/a.bz2"
            CourtListener.s3_base_url CourtListener.output_dir empty_world))
  = (Ret true,
     add_line (SkippingFile (Str.basename "other/a.bz2"))
       (snd (CourtListener.download_file bucket_env "bulk-data/a.bz2"
               CourtListener.s3_base_url CourtListener.output_dir empty_world)))
  /\ CaseLaw.download_tars demo_env (CaseLaw.init "http://h/" "out") "out/r" 1 1
       ["http://h/s/a.tar"]
       (snd (CaseLaw.download_tars demo_env (CaseLaw.init "http://h/" "out")
               "out/r" 1 1 ["http://h/r/a.tar"] empty_world))
     = (Ret (CaseLaw.add_skipped (CaseLaw.init "http://h/" "out")),
        add_line (Skipping 1 1 (Str.last_item (Str.split "/" "http://h/s/a.tar")))
          (snd (CaseLaw.download_tars demo_env (CaseLaw.init "http://h/" "out")
                  "out/r" 1 1 ["http://h/r/a.tar"] empty_world))).
Proof.
  destruct (X11_a_shared_name_is_fetched_once bucket_env empty_world
              "bulk-data/a.bz2" "other/a.bz2" CourtListener.s3_base_url
              CourtListener.output_dir
              (CaseLaw.init "http://h/" "out") (CaseLaw.init "http://h/" "out")
              "out/r" "http://h/r/a.tar" "http://h/s/a.tar" 1 1 1 1)
    as (Hstore & _).
  destruct (X11_a_shared_name_is_fetched_once demo_env empty_world
              "bulk-data/a.bz2" "other/a.bz2" CourtListener.s3_base_url
              CourtListener.output_dir
              (CaseLaw.init "http://h/" "out") (CaseLaw.init "http://h/" "out")
              "out/r" "http://h/r/a.tar" "http://h/s/a.tar" 1 1 1 1)
    as (_ & Htree).
  split.
  - apply Hstore; [reflexivity | vm_compute; reflexivity].
  - apply Htree; [reflexivity | left; vm_compute; reflexivity].
Defined.

(** ** The bucket name on the listing page *)

Section BucketPattern.

Lemma strip_any_some (cs : list string) (s r : string) :
  ReBucket.strip_any cs s = Some r -> exists c, In c cs /\ s = c +:+ r.
Proof.
  induction cs as [|c cs IH]; simpl; [discriminate|].
  destruct (Str.strip_prefix c s) as [r'|] eqn:E.
  - intros [= ->]. apply strip_prefix_spec in E. eauto.
  - intros H. destruct (IH H) as (c' & Hin & ->). eauto.
Qed.

(** No encoding of a white-space character is a prefix of another one, so
    the first that applies is the one that is there. *)
Lemma strip_space_app (c r : string) :
  In c ReBucket.space_chars -> ReBucket.strip_space (c +:+ r) = Some r.
Proof.
  unfold ReBucket.space_chars. cbn [In]. intros H.
  repeat (destruct H as [<- | H]; [reflexivity|]). destruct H.
Qed.

Lemma space_char_length (c : string) :
  In c ReBucket.space_chars -> (1 <= String.length c)%nat.
Proof.
  unfold ReBucket.space_chars. cbn [In]. intros H.
  repeat (destruct H as [<- | H]; [simpl; lia|]). destruct H.
Qed.

Lemma strip_space_spec (s r : string) :
  ReBucket.strip_space s = Some r
  <-> exists c, In c ReBucket.space_chars /\ s = c +:+ r.
Proof.
  split; [apply strip_any_some|].
  intros (c & Hin & ->). now apply strip_space_app.
Qed.

Lemma strip_space_quote (q : ascii) (r : string) :
  ReBucket.is_quote q = true -> ReBucket.strip_space (String q r) = None.
Proof.
  unfold ReBucket.is_quote. intros H.
  apply orb_true_iff in H as [H | H]; apply chr_eqb_eq in H; subst q; reflexivity.
Qed.

Lemma strip_space_equals (r : string) : ReBucket.strip_space ("=" +:+ r) = None.
Proof. reflexivity. Qed.

(** The greedy loop takes a run of white space and stops where no white
    space follows. *)
Lemma skip_spaces_spec (fuel : nat) :
  forall s, (String.length s <= fuel)%nat ->
    exists ws,
      s = ws +:+ ReBucket.skip_spaces fuel s
      /\ spaces ws
      /\ ReBucket.strip_space (ReBucket.skip_spaces fuel s) = None.
Proof.
  induction fuel as [|fuel IH]; intros s Hlen.
  - destruct s; [|simpl in Hlen; lia].
    exists "". repeat split. constructor.
  - cbn [ReBucket.skip_spaces].
    destruct (ReBucket.strip_space s) as [r|] eqn:E.
    + apply strip_space_spec in E as (c & Hin & ->).
      pose proof (space_char_length c Hin) as Hc.
      rewrite length_app_str in Hlen.
      destruct (IH r ltac:(lia)) as (ws & Hr & Hws & Hstop).
      exists (c +:+ ws). rewrite app_assoc_str, <- Hr.
      repeat split; [now constructor | exact Hstop].
    + exists "". repeat split; [constructor | exact E].
Qed.

Lemma skip_spaces_app (ws rest : string) :
  spaces ws -> ReBucket.strip_space rest = None ->
  forall fuel, (String.length (ws +:+ rest) <= fuel)%nat ->
    ReBucket.skip_spaces fuel (ws +:+ rest) = rest.
Proof.
  intros Hws Hstop. induction Hws as [|c ws Hin _ IH]; intros fuel Hlen.
  - destruct fuel; simpl; [reflexivity | now rewrite Hstop].
  - pose proof (space_char_length c Hin) as Hc.
    rewrite app_assoc_str in *. rewrite length_app_str in Hlen.
    destruct fuel as [|fuel]; [lia|].
    cbn [ReBucket.skip_spaces]. rewrite (strip_space_app c _ Hin).
    apply IH. lia.
Qed.

Lemma skip_spec (s : string) :
  exists ws, s = ws +:+ ReBucket.skip s /\ spaces ws.
Proof.
  destruct (skip_spaces_spec (String.length s) s (le_n _)) as (ws & H & Hws & _).
  now exists ws.
Qed.

Lemma skip_app (ws rest : string) :
  spaces ws -> ReBucket.strip_space rest = None ->
  ReBucket.skip (ws +:+ rest) = rest.
Proof. intros Hws Hstop. now apply skip_spaces_app. Qed.

Lemma match_bucket_spec (s name : string) :
  ReBucket.match_bucket s = Some name <-> assigns_bucket s name.
Proof.
  unfold ReBucket.match_bucket. split.
  - destruct (Str.strip_prefix "BUCKET_NAME" s) as [s1|] eqn:E0; [|discriminate].
    apply strip_prefix_spec in E0 as ->.
    destruct (skip_spec s1) as (ws1 & E1 & Hws1).
    destruct (Str.strip_prefix "=" (ReBucket.skip s1)) as [s3|] eqn:E2;
      [|discriminate].
    apply strip_prefix_spec in E2. rewrite E2 in E1. clear E2.
    destruct (skip_spec s3) as (ws2 & E3 & Hws2).
    destruct (ReBucket.skip s3) as [|q1 s5]; [discriminate|].
    destruct (ReBucket.is_quote q1) eqn:Hq1; [|discriminate].
    destruct (Str.span ReBucket.not_quote s5) as [n s6] eqn:E4.
    apply span_spec in E4 as (-> & Hn & Hstop).
    destruct n as [|a n]; [discriminate|].
    destruct s6 as [|q2 rest]; [discriminate|].
    intros [= <-]. exists ws1, ws2, q1, q2, rest.
    rewrite E1, E3.
    repeat split; try assumption; [|discriminate].
    simpl in Hstop. unfold ReBucket.not_quote in Hstop.
    now apply negb_false_iff in Hstop.
  - intros (ws1 & ws2 & q1 & q2 & rest & -> & Hws1 & Hws2 & Hq1 & Hq2 & Hne & Hn).
    rewrite strip_prefix_app.
    rewrite (skip_app ws1 _ Hws1) by apply strip_space_equals.
    rewrite strip_prefix_app.
    rewrite (skip_app ws2 _ Hws2) by now apply strip_space_quote.
    rewrite Hq1.
    rewrite (span_app ReBucket.not_quote name (String q2 rest) Hn)
      by (simpl; unfold ReBucket.not_quote; now rewrite Hq2).
    destruct name; [congruence | reflexivity].
Qed.

Lemma search_bucket_unfold (s : string) :
  ReBucket.search_bucket s
  = match ReBucket.match_bucket s with
    | Some name => Some name
    | None => match s with
              | EmptyString => None
              | String _ s' => ReBucket.search_bucket s'
              end
    end.
Proof. destruct s; reflexivity. Qed.

(** [search_bucket] finds the group of the leftmost match. *)
Lemma search_bucket_first (body name : string) :
  ReBucket.search_bucket body = Some name <-> first_bucket body name.
Proof.
  split.
  - induction body as [|a body IH]; rewrite search_bucket_unfold;
      destruct (ReBucket.match_bucket _) as [n|] eqn:Hm; try discriminate.
    + intros [= ->]. exists "", (String a body). split; [reflexivity|].
      split; [now apply match_bucket_spec|]. intros ? ? ? _ H. simpl in H. lia.
    + intros H. destruct (IH H) as (pre & post & -> & Hpost & Hmin).
      exists (String a pre), post. split; [reflexivity|]. split; [exact Hpost|].
      intros pre' post' name' Hb Hlen Hbad.
      destruct pre' as [|b pre'].
      * simpl in Hb. subst post'. apply match_bucket_spec in Hbad. congruence.
      * simpl in Hb. injection Hb as <- Hb.
        apply (Hmin pre' post' name' Hb); [simpl in Hlen; lia | exact Hbad].
  - intros (pre & post & -> & Hpost & Hmin).
    induction pre as [|a pre IH].
    + simpl. rewrite search_bucket_unfold.
      apply match_bucket_spec in Hpost. now rewrite Hpost.
    + rewrite search_bucket_unfold.
      destruct (ReBucket.match_bucket (String a pre +:+ post)) as [n|] eqn:Hm.
      * exfalso. apply match_bucket_spec in Hm.
        apply (Hmin "" (String a pre +:+ post) n); [reflexivity | simpl; lia | exact Hm].
      * simpl. apply IH. intros pre' post' name' Hb Hlen.
        apply (Hmin (String a pre') post' name'); [simpl; now rewrite Hb | simpl; lia].
Qed.

Lemma search_bucket_none (body : string) :
  ReBucket.search_bucket body = None <-> no_bucket body.
Proof.
  split.
  - induction body as [|a body IH]; rewrite search_bucket_unfold;
      destruct (ReBucket.match_bucket _) as [n|] eqn:Hm; try discriminate;
      intros H pre post name Hb Hbad.
    + destruct pre; [|discriminate Hb]. simpl in Hb. subst post.
      apply match_bucket_spec in Hbad. congruence.
    + destruct pre as [|b pre].
      * simpl in Hb. subst post. apply match_bucket_spec in Hbad. congruence.
      * simpl in Hb. injection Hb as <- Hb. exact (IH H pre post name Hb Hbad).
  - intros Hno. induction body as [|a body IH]; rewrite search_bucket_unfold.
    + destruct (ReBucket.match_bucket "") as [n|] eqn:Hm; [|reflexivity].
      apply match_bucket_spec in Hm. destruct (Hno "" "" n eq_refl Hm).
    + destruct (ReBucket.match_bucket (String a body)) as [n|] eqn:Hm.
      * apply match_bucket_spec in Hm. destruct (Hno "" _ n eq_refl Hm).
      * apply IH. intros pre post name Hb.
        apply (Hno (String a pre) post name). simpl. now rewrite Hb.
Qed.

End BucketPattern.

Section HtmlListing.

Variable env : Env.

Lemma get_s3_bucket_listing_returns (url : string) (w : World) :
  exists found w',
    CourtListener.get_s3_bucket_listing env url w = (Ret found, w').
Proof.
  destruct (no_exn_returns no_path any_request
              (CourtListener.get_s3_bucket_listing env url) w
              (effects_listing_any env url)) as [found H].
  destruct (CourtListener.get_s3_bucket_listing env url w) as [o w'].
  simpl in H. subst o. now exists found, w'.
Qed.

Lemma html_listing_run (url : string) (w : World) :
  let w1 := add_request (page_request url)
              (add_line (Text "Attempting to fetch from HTML listing page...") w) in
  CourtListener.get_files_from_html_listing env url w
  = match respond env (requests w) (page_request url) with
    | ConnectionFailed => (Ret None, add_line ErrorFetchingHtml w1)
    | Responded r =>
        if is_error_status r then (Ret None, add_line ErrorFetchingHtml w1)
        else match ReBucket.search_bucket (text r) with
             | Some name =>
                 CourtListener.get_s3_bucket_listing env (bucket_url name)
                   (add_line (FoundBucket name) w1)
             | None =>
                 (Ret None,
                  add_line (Text "Could not extract bucket name from HTML") w1)
             end
    end.
Proof.
  cbv zeta. unfold CourtListener.get_files_from_html_listing.
  rewrite bind_print. unfold except_RequestException.
  unfold bind at 1. unfold http_get at 1. cbn [requests add_line].
  fold (page_request url).
  destruct (respond env (requests w) (page_request url)) as [|r]; [reflexivity|].
  unfold bind at 1. unfold raise_for_status.
  destruct (is_error_status r); [reflexivity|]. cbn [ret].
  destruct (ReBucket.search_bucket (text r)) as [name|]; [|reflexivity].
  rewrite bind_print. fold (bucket_url name).
  destruct (get_s3_bucket_listing_returns (bucket_url name)
              (add_line (FoundBucket name)
                 (add_request (page_request url)
                    (add_line (Text "Attempting to fetch from HTML listing page...")
                       w)))) as (found & w' & ->).
  reflexivity.
Qed.

End HtmlListing.

(** X12: the first discovery method asks for the listing page once.  If
    the request fails or is answered with a 4xx or 5xx status, it returns
    nothing; if the page is served and the bucket-name pattern matches
    nowhere in it, it returns nothing as well, without a second request;
    otherwise it takes the name of the leftmost match, in which any white
    space of [\s] (the Unicode white space, not only the ASCII one) may
    stand on either side of the equals sign and whose two quotes need not
    be of the same kind, and its result is that of [get_s3_bucket_listing]
    on the URL built from that name. *)
Theorem X12_the_html_listing_follows_the_leftmost_bucket_name (env : Env)
    (url : string) (w : World) :
  let w1 := add_request (page_request url)
              (add_line (Text "Attempting to fetch from HTML listing page...") w) in
  let run := CourtListener.get_files_from_html_listing env url w in
  (refuses env (requests w) (page_request url) ->
   run = (Ret None, add_line ErrorFetchingHtml w1))
  /\ (forall r,
        respond env (requests w) (page_request url) = Responded r ->
        is_error_status r = false ->
        no_bucket (text r) ->
        run = (Ret None,
               add_line (Text "Could not extract bucket name from HTML") w1))
  /\ (forall r name,
        respond env (requests w) (page_request url) = Responded r ->
        is_error_status r = false ->
        first_bucket (text r) name ->
        run = CourtListener.get_s3_bucket_listing env
                ("https://" +:+ name +:+ ".s3-us-west-2.amazonaws.com/")
                (add_line (FoundBucket name) w1)).
Proof.
  intros w1 run. subst run. rewrite html_listing_run. fold w1.
  split; [|split].
  - intros [Hf | (r & Hr & Hst)]; [now rewrite Hf | now rewrite Hr, Hst].
  - intros r Hr Hst Hno. rewrite Hr, Hst.
    apply search_bucket_none in Hno. now rewrite Hno.
  - intros r name Hr Hst Hfirst. rewrite Hr, Hst.
    apply search_bucket_first in Hfirst. now rewrite Hfirst.
Qed.

Lemma X12_witness :
  CourtListener.get_files_from_html_listing
    (mkEnv (fun _ rq =>
              if String.eqb (req_url rq) "http://h/list.html"
              then Responded (ok_response ideographic_page [] false)
              else ConnectionFailed)
           (fun _ => []) demo_urljoin (fun _ => true) (fun _ _ _ => true))
    "http://h/list.html" empty_world
  = CourtListener.get_s3_bucket_listing
      (mkEnv (fun _ rq =>
                if String.eqb (req_url rq) "http://h/list.html"
                then Responded (ok_response ideographic_page [] false)
                else ConnectionFailed)
             (fun _ => []) demo_urljoin (fun _ => true) (fun _ _ _ => true))
      "https://b1.s3-us-west-2.amazonaws.com/"
      (add_line (FoundBucket "b1")
         (add_request (page_request "http://h/list.html")
            (add_line (Text "Attempting to fetch from HTML listing page...")
               empty_world))).
Proof.
  destruct (X12_the_html_listing_follows_the_leftmost_bucket_name
              (mkEnv (fun _ rq =>
                        if String.eqb (req_url rq) "http://h/list.html"
                        then Responded (ok_response ideographic_page [] false)
                        else ConnectionFailed)
                     (fun _ => []) demo_urljoin (fun _ => true) (fun _ _ _ => true))
              "http://h/list.html" empty_world) as (_ & _ & H).
  apply (H (ok_response ideographic_page [] false) "b1");
    [reflexivity | reflexivity |].
  apply search_bucket_first. vm_compute. reflexivity.
Defined.

(** ** The requests of a whole run *)

(** X14: both scripts only ever add requests to those already made, and
    every request of a whole run carries a timeout: a crawl of the tree
    host and a run of the object-store script issue page and listing
    requests that are not streamed and time out after 30 seconds, and
    downloads that are streamed, carry no parameters and time out after
    300 seconds; nothing else. *)
Theorem X14_every_request_carries_a_timeout (env : Env)
    (self : CaseLaw.CaseLawCrawler) (limit : option Z) (w : World) :
  (exists new,
     requests (snd (CaseLaw.crawl_and_download env self limit w)) = requests w ++ new
     /\ Forall (fun rq =>
                  (req_stream rq = false /\ req_timeout rq = 30)
                  \/ (req_stream rq = true /\ req_timeout rq = 300
                      /\ req_params rq = [])) new)
  /\ (exists new,
        requests (snd (CourtListener.main env w)) = requests w ++ new
        /\ Forall (fun rq =>
                     (req_stream rq = false /\ req_timeout rq = 30)
                     \/ (req_stream rq = true /\ req_timeout rq = 300
                         /\ req_params rq = [])) new).
Proof.
  split.
  - destruct (effects_crawl_and_download_archives env self limit w) as (_ & H & _).
    exact H.
  - destruct (effects_main_archives env w) as (_ & H & _). exact H.
Qed.
